(** * terminal-ag: the warm chat daemon, its gateway client and its socket client

    A shallow embedding of [src/llm_client.py] (class [QwenLLMClient]),
    [src/server.py] (class [QwenServer]) and of [src/client.py] (class
    [QwenClient]: its wire half, [chat_interactive] and [ping]), followed by
    the properties the design document states about them and by further
    properties read off the code.

    Conventions of the embedding.
    - A Python [str] is a Rocq [string] holding its UTF-8 bytes, so
      [encode('utf-8')] and [decode('utf-8')] are the identity; [len] counts
      the bytes that start a code point ([py_len]).
    - A decoded JSON document is a [json] tree.  A [dict] keeps its insertion
      order, so an object is an association list; Python guarantees that its
      keys are distinct ([wf_json]).
    - A float is carried by the text [json.dumps] prints for it.
    - The clock is read in whole time units ([Z]).
    - What lives outside the repository is a parameter of the development:
      the MD5 digest, [json.loads], the remote chat-completion endpoint and
      the host's thread and memory counters. *)

From Stdlib Require Import ZArith String Ascii List Bool Lia DecimalString.
From stdpp Require Import base gmap strings list sorting.

Local Open Scope Z_scope.

(** ** Python built-ins on text *)

(** [s.startswith(p)], by character. *)
Fixpoint startswith (p s : string) : bool :=
  match p with
  | EmptyString => true
  | String a p' =>
      match s with
      | EmptyString => false
      | String b s' => Ascii.eqb a b && startswith p' s'
      end
  end.

(** [old in s]: some suffix of [s] starts with [old]. *)
Fixpoint contains (old s : string) : bool :=
  startswith old s ||
  match s with
  | EmptyString => false
  | String _ s' => contains old s'
  end.

(** [s.replace(old, new)] for a non-empty [old]: occurrences are found from
    the left and do not overlap.  [skip] counts the characters of the
    occurrence just found that are still to be dropped. *)
Fixpoint replace_from (old new : string) (skip : nat) (s : string) : string :=
  match s with
  | EmptyString => EmptyString
  | String c s' =>
      match skip with
      | S k => replace_from old new k s'
      | O =>
          if startswith old s
          then new +:+ replace_from old new (Nat.pred (String.length old)) s'
          else String c (replace_from old new 0 s')
      end
  end.

Definition py_replace (old new s : string) : string := replace_from old new 0 s.

(** Bytes [10xxxxxx] continue a code point; every other byte starts one. *)
Definition is_continuation (c : ascii) : bool :=
  match c with
  | Ascii _ _ _ _ _ _ false true => true
  | _ => false
  end.

(** [len(s)] of a [str]: its number of code points. *)
Fixpoint py_len (s : string) : nat :=
  match s with
  | EmptyString => O
  | String c s' => if is_continuation c then py_len s' else S (py_len s')
  end.

(** [sep.join(parts)]. *)
Fixpoint join (sep : string) (parts : list string) : string :=
  match parts with
  | [] => EmptyString
  | [p] => p
  | p :: rest => p +:+ sep +:+ join sep rest
  end.

(** The bytes of [chunks], one after the other. *)
Fixpoint concat_chunks (chunks : list string) : string :=
  match chunks with
  | [] => EmptyString
  | c :: rest => c +:+ concat_chunks rest
  end.

(** [str(n)] of an [int]. *)
Definition int_repr (n : Z) : string := NilZero.string_of_int (Z.to_int n).

(** ** JSON values, as [json.loads] builds them *)

Unset Elimination Schemes.
Inductive json : Type :=
| JNull
| JBool (b : bool)
| JInt (n : Z)
| JFloat (repr : string)
| JStr (s : string)
| JList (items : list json)
| JObject (fields : list (string * json)).
Set Elimination Schemes.

(** [d.get(key)] / [key in d]: the first binding for [key]. *)
Fixpoint dict_lookup (key : string) (d : list (string * json)) : option json :=
  match d with
  | [] => None
  | (k, v) :: rest => if String.eqb k key then Some v else dict_lookup key rest
  end.

(** [d.get(key, default)]. *)
Definition dict_get (d : list (string * json)) (key : string) (default : json) : json :=
  match dict_lookup key d with
  | Some v => v
  | None => default
  end.

(** Truth value of a decoded value ([if x:] / [not x]). *)
Definition truthy (v : json) : bool :=
  match v with
  | JNull => false
  | JBool b => b
  | JInt n => negb (n =? 0)
  | JFloat r => negb (String.eqb r "0.0" || String.eqb r "-0.0")
  | JStr s => negb (String.eqb s "")
  | JList l => match l with [] => false | _ => true end
  | JObject d => match d with [] => false | _ => true end
  end.

(** [type(x).__name__]. *)
Definition py_type_name (v : json) : string :=
  match v with
  | JNull => "NoneType"
  | JBool _ => "bool"
  | JInt _ => "int"
  | JFloat _ => "float"
  | JStr _ => "str"
  | JList _ => "list"
  | JObject _ => "dict"
  end.

(** *** Escaping of string literals ([json.encoder]) *)

Definition dquote : ascii := "034"%char.
Definition backslash : ascii := "092"%char.

Definition hex_digit (n : N) : ascii :=
  if (n <? 10)%N then ascii_of_N (48 + n) else ascii_of_N (87 + n).

(** [\uXXXX] for a 16-bit unit. *)
Definition u_escape (n : N) : string :=
  String backslash (String "u"
    (String (hex_digit (N.shiftr n 12 mod 16))
    (String (hex_digit (N.shiftr n 8 mod 16))
    (String (hex_digit (N.shiftr n 4 mod 16))
    (String (hex_digit (n mod 16)) EmptyString))))).

(** [\uXXXX] for a code point, as a surrogate pair above the basic plane. *)
Definition u_escape_codepoint (cp : N) : string :=
  if (cp <? 65536)%N then u_escape cp
  else
    let v := (cp - 65536)%N in
    u_escape (55296 + N.shiftr v 10) +:+ u_escape (56320 + N.land v 1023).

(** The escapes shared by both encoders: quote, backslash and the control
    characters.  [None]: the byte is not escaped. *)
Definition escape_char (c : ascii) : option string :=
  let n := N_of_ascii c in
  if Ascii.eqb c dquote then Some (String backslash (String dquote EmptyString))
  else if Ascii.eqb c backslash then Some (String backslash (String backslash EmptyString))
  else if (n =? 10)%N then Some (String backslash "n")
  else if (n =? 13)%N then Some (String backslash "r")
  else if (n =? 9)%N then Some (String backslash "t")
  else if (n =? 8)%N then Some (String backslash "b")
  else if (n =? 12)%N then Some (String backslash "f")
  else if (n <? 32)%N then Some (u_escape n)
  else None.

(** Body of [py_encode_basestring] ([ensure_ascii=False]): bytes above 127
    pass through. *)
Fixpoint escape_body (s : string) : string :=
  match s with
  | EmptyString => EmptyString
  | String c s' =>
      match escape_char c with
      | Some e => e +:+ escape_body s'
      | None => String c (escape_body s')
      end
  end.

(** Body of [py_encode_basestring_ascii] ([ensure_ascii=True]): only the
    characters from the space to the tilde are written as they are; a code
    point above 127 is reassembled from its UTF-8 bytes and written as
    [\uXXXX].
    [pending] is the code point under construction and [need] the number of
    continuation bytes it still lacks. *)
Fixpoint escape_body_ascii (pending : N) (need : nat) (s : string) : string :=
  match s with
  | EmptyString => EmptyString
  | String c s' =>
      let n := N_of_ascii c in
      match need with
      | S k =>
          let cp := (pending * 64 + N.land n 63)%N in
          match k with
          | O => u_escape_codepoint cp +:+ escape_body_ascii 0 0 s'
          | S _ => escape_body_ascii cp k s'
          end
      | O =>
          if (n <? 127)%N then
            match escape_char c with
            | Some e => e +:+ escape_body_ascii 0 0 s'
            | None => String c (escape_body_ascii 0 0 s')
            end
          else if (n =? 127)%N then u_escape n +:+ escape_body_ascii 0 0 s'
          else if (n <? 224)%N then escape_body_ascii (N.land n 31) 1 s'
          else if (n <? 240)%N then escape_body_ascii (N.land n 15) 2 s'
          else escape_body_ascii (N.land n 7) 3 s'
      end
  end.

Definition encode_basestring (ensure_ascii : bool) (s : string) : string :=
  String dquote
    ((if ensure_ascii then escape_body_ascii 0 0 s else escape_body s)
     +:+ String dquote EmptyString).

(** *** [json.dumps(v, ensure_ascii=..., sort_keys=...)] *)

(** Order of [sorted(d.items())]: by key, keys being distinct. *)
Definition item_le (a b : string * string) : Prop := String.le (fst a) (fst b).

Global Instance item_le_dec : RelDecision item_le.
Proof. intros a b. unfold item_le. apply _. Defined.

(** One [key: value] member, the value being rendered already. *)
Definition render_item (ensure_ascii : bool) (kt : string * string) : string :=
  encode_basestring ensure_ascii (fst kt) +:+ ": " +:+ snd kt.

(** The encoder with the default separators [", "] and [": "].  With
    [sort_keys] the items of every object are sorted by key before they are
    written; the members are rendered first so that the recursion stays
    structural, the order of the two steps having no effect on the text. *)
Fixpoint json_dumps (ensure_ascii sort_keys : bool) (v : json) : string :=
  match v with
  | JNull => "null"
  | JBool true => "true"
  | JBool false => "false"
  | JInt n => int_repr n
  | JFloat r => r
  | JStr s => encode_basestring ensure_ascii s
  | JList l => "[" +:+ join ", " (map (json_dumps ensure_ascii sort_keys) l) +:+ "]"
  | JObject d =>
      let items := map (fun kv => (fst kv, json_dumps ensure_ascii sort_keys (snd kv))) d in
      let ordered := if sort_keys then merge_sort item_le items else items in
      "{" +:+ join ", " (map (render_item ensure_ascii) ordered) +:+ "}"
  end.

(** *** Values a Python program can hold *)

(** Text of a float, as [float.__repr__] or the encoder's constants give it. *)
Definition float_char (c : ascii) : bool :=
  let n := N_of_ascii c in
  ((48 <=? n) && (n <=? 57))%N || Ascii.eqb c "." || Ascii.eqb c "e"
  || Ascii.eqb c "+" || Ascii.eqb c "-".

Fixpoint all_chars (p : ascii -> bool) (s : string) : bool :=
  match s with
  | EmptyString => true
  | String c s' => p c && all_chars p s'
  end.

Definition float_text (r : string) : bool :=
  String.eqb r "NaN" || String.eqb r "Infinity" || String.eqb r "-Infinity"
  || (negb (String.eqb r "") && all_chars float_char r).

(** A [dict] has distinct keys and a float has the text of a float. *)
Fixpoint wf_json (v : json) : bool :=
  match v with
  | JNull | JBool _ | JInt _ | JStr _ => true
  | JFloat r => float_text r
  | JList l => forallb wf_json l
  | JObject d =>
      bool_decide (NoDup (map fst d)) && forallb (fun kv => wf_json (snd kv)) d
  end.

(** Two values that differ only in the order in which the keys of their
    objects, at any depth, were inserted. *)
Inductive same_fields : json -> json -> Prop :=
| same_refl v : same_fields v v
| same_trans u v w : same_fields u v -> same_fields v w -> same_fields u w
| same_list_cons x y l l' :
    same_fields x y -> same_fields (JList l) (JList l') ->
    same_fields (JList (x :: l)) (JList (y :: l'))
| same_object_cons k x y d d' :
    same_fields x y -> same_fields (JObject d) (JObject d') ->
    same_fields (JObject ((k, x) :: d)) (JObject ((k, y) :: d'))
| same_object_perm d d' :
    Permutation d d' -> same_fields (JObject d) (JObject d').

(** [s] is one of the strings of [v]: a key or a text, at any depth. *)
Inductive holds_text : json -> string -> Prop :=
| holds_str s : holds_text (JStr s) s
| holds_item v l s : v ∈ l -> holds_text v s -> holds_text (JList l) s
| holds_key k v d : (k, v) ∈ d -> holds_text (JObject d) k
| holds_field k v d s : (k, v) ∈ d -> holds_text v s -> holds_text (JObject d) s.

(** [s[:n]] of a [str]: its first [n] code points. *)
Fixpoint py_prefix (n : nat) (s : string) : string :=
  match s with
  | EmptyString => EmptyString
  | String c s' =>
      if is_continuation c then String c (py_prefix n s')
      else match n with
           | O => EmptyString
           | S k => String c (py_prefix k s')
           end
  end.

(** [v == s] for a [str] literal [s]: only a [str] equals a [str]. *)
Definition is_str (v : json) (s : string) : bool :=
  match v with
  | JStr t => String.eqb t s
  | _ => false
  end.

(** ** The remote endpoint and the state of the process *)

(** Keyword arguments of [client.chat.completions.create]. *)
Record Params := {
  param_model : string;
  param_messages : json;
  param_stream : bool;
  param_temperature : json;
  param_max_tokens : json
}.

(** [response.choices[i].message.content], [None] when absent. *)
Record Choice := { message_content : option string }.

(** What [create(stream=False)] does: raise (after the client library has
    used its 3 retries or its 60 s timeout) or return a completion. *)
Inductive Completion :=
| Raises (err : string)
| Completes (choices : list Choice).

(** [chunk.choices[i].delta.content], [None] when the delta has none. *)
Record Delta := { delta_content : option string }.
Record Chunk := { chunk_choices : list Delta }.

(** What iterating the response of [create(stream=True)] delivers next. *)
Inductive StreamEvent :=
| ChunkEvent (chunk : Chunk)
| StreamError (err : string).

Inductive StreamOpen :=
| OpenRaises (err : string)
| Opens (events : list StreamEvent).

Inductive Priority := LOG_ERR | LOG_WARNING | LOG_INFO | LOG_DEBUG.

(** [{"response": ..., "timestamp": ...}] *)
Record CacheEntry := { entry_response : string; entry_timestamp : Z }.

(** [self.cache] of the client, the calls made to the endpoint so far and
    the lines handed to [syslog]. *)
Record State := {
  cache : gmap string CacheEntry;
  api_calls : list Params;
  journal : list (Priority * string)
}.

Definition syslog (p : Priority) (msg : string) (st : State) : State :=
  {| cache := cache st; api_calls := api_calls st;
     journal := journal st ++ [(p, msg)] |}.

Definition record_call (params : Params) (st : State) : State :=
  {| cache := cache st; api_calls := api_calls st ++ [params];
     journal := journal st |}.

Definition set_cache (c : gmap string CacheEntry) (st : State) : State :=
  {| cache := c; api_calls := api_calls st; journal := journal st |}.

(** A generator object made by [_stream_response]: not started, suspended
    at a [yield] with the rest of the remote stream ahead, or finished. *)
Inductive Generator :=
| GenCreated (params : Params)
| GenSuspended (events : list StreamEvent)
| GenFinished.

(** What [chat_completion] and [_direct_request] return. *)
Inductive Result :=
| RNone
| RStr (s : string)
| RGenerator (g : Generator).

(** What a call gives back: a value, or an exception seen as [str(e)]. *)
Inductive Outcome (A : Type) :=
| Return (a : A)
| Raise (msg : string).
Arguments Return {A} a.
Arguments Raise {A} msg.

(** [self.cache_ttl] *)
Definition cache_ttl : Z := 300.

(** The frame terminator [b"__END__"]. *)
Definition END : string := "__END__".

(** The [while True:] loop that fills [data] in [handle_client] and
    [send_request]: [chunks] are the successive results of [recv(4096)], the
    end of the list standing for the empty read of a closed peer. *)
Fixpoint recv_until_END (chunks : list string) (data : string) : string :=
  match chunks with
  | [] => data
  | chunk :: rest =>
      if String.eqb chunk "" then data
      else
        let data' := data +:+ chunk in
        if contains END data' then data' else recv_until_END rest data'
  end.

(** [socket.send(json.dumps(v, ensure_ascii=False).encode('utf-8') + b"__END__")] *)
Definition frame (v : json) : string := json_dumps false false v +:+ END.

(** [data.decode('utf-8').replace("__END__", "")] *)
Definition strip_END (data : string) : string := py_replace END "" data.

(** The value with the terminator deleted from every key and text. *)
Fixpoint strip_value (v : json) : json :=
  match v with
  | JStr s => JStr (strip_END s)
  | JList l => JList (map strip_value l)
  | JObject d => JObject (map (fun kv => (strip_END (fst kv), strip_value (snd kv))) d)
  | _ => v
  end.

Definition error_response (msg : string) : json := JObject [("error", JStr msg)].
Definition warning_response (msg : string) : json := JObject [("warning", JStr msg)].

(** ** [bytes.decode('utf-8')]

    In the embedding the decoded text is the bytes themselves; what is
    written out here is when the strict decoder refuses them, and the text of
    the [UnicodeDecodeError] it raises then. *)

(** Where the decoder stops: the first and the last byte it complains about,
    and its complaint. *)
Record DecodeError := {
  error_start : nat;
  error_end : nat;
  error_reason : string
}.

Definition invalid_start (pos : nat) : option DecodeError :=
  Some {| error_start := pos; error_end := pos; error_reason := "invalid start byte" |}.

Definition invalid_continuation (pos last : nat) : option DecodeError :=
  Some {| error_start := pos; error_end := last;
          error_reason := "invalid continuation byte" |}.

Definition unexpected_end (pos last : nat) : option DecodeError :=
  Some {| error_start := pos; error_end := last;
          error_reason := "unexpected end of data" |}.

(** The first error in [s], whose first byte is at position [pos]: a lead
    byte that starts nothing, a byte that cannot continue the sequence
    (overlong forms, surrogates and code points above U+10FFFF are refused at
    their second byte), or a sequence cut short by the end of the data. *)
Fixpoint utf8_scan (pos : nat) (s : string) : option DecodeError :=
  match s with
  | EmptyString => None
  | String c1 s1 =>
      let n1 := N_of_ascii c1 in
      if (n1 <? 128)%N then utf8_scan (S pos) s1
      else if (n1 <? 194)%N then invalid_start pos
      else if (n1 <? 224)%N then
        match s1 with
        | EmptyString => unexpected_end pos pos
        | String c2 s2 =>
            if is_continuation c2 then utf8_scan (2 + pos) s2
            else invalid_continuation pos pos
        end
      else if (n1 <? 240)%N then
        match s1 with
        | EmptyString => unexpected_end pos pos
        | String c2 s2 =>
            let n2 := N_of_ascii c2 in
            if negb (is_continuation c2)
               || (if (n2 <? 160)%N then (n1 =? 224)%N else (n1 =? 237)%N)
            then invalid_continuation pos pos
            else
              match s2 with
              | EmptyString => unexpected_end pos (1 + pos)
              | String c3 s3 =>
                  if is_continuation c3 then utf8_scan (3 + pos) s3
                  else invalid_continuation pos (1 + pos)
              end
        end
      else if (n1 <? 245)%N then
        match s1 with
        | EmptyString => unexpected_end pos pos
        | String c2 s2 =>
            let n2 := N_of_ascii c2 in
            if negb (is_continuation c2)
               || (if (n2 <? 144)%N then (n1 =? 240)%N else (n1 =? 244)%N)
            then invalid_continuation pos pos
            else
              match s2 with
              | EmptyString => unexpected_end pos (1 + pos)
              | String c3 s3 =>
                  if negb (is_continuation c3) then invalid_continuation pos (1 + pos)
                  else
                    match s3 with
                    | EmptyString => unexpected_end pos (2 + pos)
                    | String c4 s4 =>
                        if is_continuation c4 then utf8_scan (4 + pos) s4
                        else invalid_continuation pos (2 + pos)
                    end
              end
        end
      else invalid_start pos
  end.

Definition byte_at (pos : nat) (s : string) : N :=
  match String.get pos s with
  | Some c => N_of_ascii c
  | None => 0%N
  end.

(** [str(e)] of the [UnicodeDecodeError]. *)
Definition decode_error_text (s : string) (e : DecodeError) : string :=
  if Nat.eqb (error_start e) (error_end e) then
    "'utf-8' codec can't decode byte 0x"
      +:+ String (hex_digit (byte_at (error_start e) s / 16))
            (String (hex_digit (byte_at (error_start e) s mod 16)) EmptyString)
      +:+ " in position " +:+ int_repr (Z.of_nat (error_start e))
      +:+ ": " +:+ error_reason e
  else
    "'utf-8' codec can't decode bytes in position "
      +:+ int_repr (Z.of_nat (error_start e)) +:+ "-" +:+ int_repr (Z.of_nat (error_end e))
      +:+ ": " +:+ error_reason e.

(** [data.decode('utf-8')]: [None] when the bytes are UTF-8, otherwise the
    text of the exception. *)
Definition utf8_error (data : string) : option string :=
  match utf8_scan 0 data with
  | Some e => Some (decode_error_text data e)
  | None => None
  end.

(** ** Reference versions of the library functions

    The development is parametric in MD5 and in [json.loads].  The versions
    below are used to run the embedding on concrete requests. *)

(** *** MD5 (RFC 1321) on bytes *)

Definition mask32 : N := 4294967295.
Definition add32 (a b : N) : N := N.land (a + b) mask32.
Definition not32 (a : N) : N := N.lxor a mask32.
Definition rotl32 (x c : N) : N :=
  N.land (N.lor (N.shiftl x c) (N.shiftr x (32 - c))) mask32.

Definition md5_shifts : list N :=
  [7; 12; 17; 22; 7; 12; 17; 22; 7; 12; 17; 22; 7; 12; 17; 22;
   5; 9; 14; 20; 5; 9; 14; 20; 5; 9; 14; 20; 5; 9; 14; 20;
   4; 11; 16; 23; 4; 11; 16; 23; 4; 11; 16; 23; 4; 11; 16; 23;
   6; 10; 15; 21; 6; 10; 15; 21; 6; 10; 15; 21; 6; 10; 15; 21]%N.

Definition md5_sines : list N :=
  [3614090360; 3905402710; 606105819; 3250441966; 4118548399; 1200080426;
   2821735955; 4249261313; 1770035416; 2336552879; 4294925233; 2304563134;
   1804603682; 4254626195; 2792965006; 1236535329; 4129170786; 3225465664;
   643717713; 3921069994; 3593408605; 38016083; 3634488961; 3889429448;
   568446438; 3275163606; 4107603335; 1163531501; 2850285829; 4243563512;
   1735328473; 2368359562; 4294588738; 2272392833; 1839030562; 4259657740;
   2763975236; 1272893353; 4139469664; 3200236656; 681279174; 3936430074;
   3572445317; 76029189; 3654602809; 3873151461; 530742520; 3299628645;
   4096336452; 1126891415; 2878612391; 4237533241; 1700485571; 2399980690;
   4293915773; 2240044497; 1873313359; 4264355552; 2734768916; 1309151649;
   4149444226; 3174756917; 718787259; 3951481745]%N.

(** One of the 64 steps on the block [M] of sixteen words. *)
Definition md5_step (M : list N) (abcd : N * N * N * N) (i : nat) : N * N * N * N :=
  let '(A, B, C, D) := abcd in
  let '(F, g) :=
    if (i <? 16)%nat then (N.lor (N.land B C) (N.land (not32 B) D), i)
    else if (i <? 32)%nat then
      (N.lor (N.land D B) (N.land (not32 D) C), ((5 * i + 1) mod 16)%nat)
    else if (i <? 48)%nat then (N.lxor (N.lxor B C) D, ((3 * i + 5) mod 16)%nat)
    else (N.lxor C (N.lor B (not32 D)), ((7 * i) mod 16)%nat) in
  let F' := add32 (add32 (add32 F A) (nth i md5_sines 0%N)) (nth g M 0%N) in
  (D, add32 B (rotl32 F' (nth i md5_shifts 0%N)), B, C).

(** Little-endian words of a list of bytes. *)
Fixpoint le_words (bytes : list N) : list N :=
  match bytes with
  | b0 :: b1 :: b2 :: b3 :: rest =>
      (b0 + 256 * (b1 + 256 * (b2 + 256 * b3)))%N :: le_words rest
  | _ => []
  end.

Definition md5_block (state : N * N * N * N) (block : list N) : N * N * N * N :=
  let '(a0, b0, c0, d0) := state in
  let '(A, B, C, D) := fold_left (md5_step (le_words block)) (seq 0 64) state in
  (add32 a0 A, add32 b0 B, add32 c0 C, add32 d0 D).

Fixpoint md5_blocks (fuel : nat) (state : N * N * N * N) (bytes : list N)
  : N * N * N * N :=
  match fuel, bytes with
  | S f, _ :: _ => md5_blocks f (md5_block state (firstn 64 bytes)) (skipn 64 bytes)
  | _, _ => state
  end.

Definition le_bytes (n : nat) (x : N) : list N :=
  map (fun i => (N.shiftr x (8 * N.of_nat i) mod 256)%N) (seq 0 n).

Definition md5_pad (bytes : list N) : list N :=
  let len := length bytes in
  bytes ++ [128%N]
        ++ repeat 0%N ((119 - len mod 64) mod 64)%nat
        ++ le_bytes 8 (8 * N.of_nat len).

Definition hex_byte (b : N) : string :=
  String (hex_digit (b / 16)) (String (hex_digit (b mod 16)) EmptyString).

Definition md5 (s : string) : string :=
  let bytes := md5_pad (map N_of_ascii (list_ascii_of_string s)) in
  let '(a, b, c, d) :=
    md5_blocks (length bytes)
      (1732584193, 4023233417, 2562383102, 271733878)%N bytes in
  String.concat "" (map hex_byte (le_bytes 4 a ++ le_bytes 4 b ++ le_bytes 4 c ++ le_bytes 4 d)).

(** *** A reader for JSON text

    It follows [json.decoder]: strict strings, the constants [NaN],
    [Infinity] and [-Infinity], the last value winning for a repeated key.
    A float keeps the text it is written with, which is the float's own text
    whenever [json.dumps] wrote it; an escape for a lone surrogate, which has
    no UTF-8 form, is refused. *)

Definition is_ws (c : ascii) : bool :=
  let n := N_of_ascii c in ((n =? 32) || (n =? 9) || (n =? 10) || (n =? 13))%N.

Fixpoint skip_ws (s : string) : string :=
  match s with
  | EmptyString => EmptyString
  | String c s' => if is_ws c then skip_ws s' else s
  end.

Fixpoint drop_chars (n : nat) (s : string) : string :=
  match n, s with
  | S k, String _ s' => drop_chars k s'
  | _, _ => s
  end.

Definition hex_value (c : ascii) : option N :=
  let n := N_of_ascii c in
  if ((48 <=? n) && (n <=? 57))%N then Some (n - 48)%N
  else if ((97 <=? n) && (n <=? 102))%N then Some (n - 87)%N
  else if ((65 <=? n) && (n <=? 70))%N then Some (n - 55)%N
  else None.

Definition read_hex4 (s : string) : option (N * string) :=
  match s with
  | String a (String b (String c (String d rest))) =>
      match hex_value a, hex_value b, hex_value c, hex_value d with
      | Some x, Some y, Some z, Some w => Some ((((x * 16 + y) * 16 + z) * 16 + w)%N, rest)
      | _, _, _, _ => None
      end
  | _ => None
  end.

(** UTF-8 bytes of a code point. *)
Definition utf8_encode (cp : N) : string :=
  let byte (n : N) (rest : string) := String (ascii_of_N n) rest in
  let cont (shift : N) := (128 + N.land (N.shiftr cp shift) 63)%N in
  if (cp <? 128)%N then byte cp EmptyString
  else if (cp <? 2048)%N then byte (192 + N.shiftr cp 6)%N (byte (cont 0%N) EmptyString)
  else if (cp <? 65536)%N then
    byte (224 + N.shiftr cp 12)%N (byte (cont 6%N) (byte (cont 0%N) EmptyString))
  else
    byte (240 + N.shiftr cp 18)%N
      (byte (cont 12%N) (byte (cont 6%N) (byte (cont 0%N) EmptyString))).

Definition simple_escape (e : ascii) : option ascii :=
  if Ascii.eqb e dquote then Some dquote
  else if Ascii.eqb e backslash then Some backslash
  else if Ascii.eqb e "/" then Some "/"%char
  else if Ascii.eqb e "b" then Some "008"%char
  else if Ascii.eqb e "f" then Some "012"%char
  else if Ascii.eqb e "n" then Some "010"%char
  else if Ascii.eqb e "r" then Some "013"%char
  else if Ascii.eqb e "t" then Some "009"%char
  else None.

(** The body of a string literal, its opening quote consumed: the decoded
    text and what follows the closing quote. *)
Fixpoint read_string (fuel : nat) (s : string) : option (string * string) :=
  match fuel with
  | O => None
  | S f =>
      match s with
      | EmptyString => None
      | String c s' =>
          if Ascii.eqb c dquote then Some (EmptyString, s')
          else if Ascii.eqb c backslash then
            match s' with
            | EmptyString => None
            | String e s'' =>
                if Ascii.eqb e "u" then
                  match read_hex4 s'' with
                  | None => None
                  | Some (u, r) =>
                      if ((55296 <=? u) && (u <? 56320))%N then
                        match r with
                        | String b1 (String b2 r') =>
                            if Ascii.eqb b1 backslash && Ascii.eqb b2 "u" then
                              match read_hex4 r' with
                              | Some (lo, r'') =>
                                  if ((56320 <=? lo) && (lo <? 57344))%N then
                                    match read_string f r'' with
                                    | Some (t, rest) =>
                                        Some (utf8_encode
                                                (65536 + N.shiftl (u - 55296) 10
                                                 + (lo - 56320))%N +:+ t, rest)
                                    | None => None
                                    end
                                  else None
                              | None => None
                              end
                            else None
                        | _ => None
                        end
                      else if ((56320 <=? u) && (u <? 57344))%N then None
                      else
                        match read_string f r with
                        | Some (t, rest) => Some (utf8_encode u +:+ t, rest)
                        | None => None
                        end
                  end
                else
                  match simple_escape e, read_string f s'' with
                  | Some ch, Some (t, rest) => Some (String ch t, rest)
                  | _, _ => None
                  end
            end
          else if (N_of_ascii c <? 32)%N then None
          else
            match read_string f s' with
            | Some (t, rest) => Some (String c t, rest)
            | None => None
            end
      end
  end.

Definition is_digit (c : ascii) : bool :=
  let n := N_of_ascii c in ((48 <=? n) && (n <=? 57))%N.

Definition number_char (c : ascii) : bool :=
  is_digit c || Ascii.eqb c "-" || Ascii.eqb c "+" || Ascii.eqb c "."
  || Ascii.eqb c "e" || Ascii.eqb c "E".

(** The longest prefix made of [p] characters, and the rest. *)
Fixpoint span (p : ascii -> bool) (s : string) : string * string :=
  match s with
  | EmptyString => (EmptyString, EmptyString)
  | String c s' =>
      if p c then let '(a, b) := span p s' in (String c a, b) else (EmptyString, s)
  end.

(** Where the scan of a number stands: an optional minus, an integer part
    without leading zero, an optional fraction, an optional exponent. *)
Inductive NumberState :=
| NStart | NMinus | NZero | NInt | NDot | NFrac | NExp | NExpSign | NExpDigits.

Definition number_step (st : NumberState) (c : ascii) : option NumberState :=
  let exp_mark := Ascii.eqb c "e" || Ascii.eqb c "E" in
  match st with
  | NStart =>
      if Ascii.eqb c "-" then Some NMinus
      else if Ascii.eqb c "0" then Some NZero
      else if is_digit c then Some NInt else None
  | NMinus =>
      if Ascii.eqb c "0" then Some NZero
      else if is_digit c then Some NInt else None
  | NZero =>
      if Ascii.eqb c "." then Some NDot else if exp_mark then Some NExp else None
  | NInt =>
      if is_digit c then Some NInt
      else if Ascii.eqb c "." then Some NDot
      else if exp_mark then Some NExp else None
  | NDot => if is_digit c then Some NFrac else None
  | NFrac =>
      if is_digit c then Some NFrac else if exp_mark then Some NExp else None
  | NExp =>
      if Ascii.eqb c "+" || Ascii.eqb c "-" then Some NExpSign
      else if is_digit c then Some NExpDigits else None
  | NExpSign => if is_digit c then Some NExpDigits else None
  | NExpDigits => if is_digit c then Some NExpDigits else None
  end.

Fixpoint number_scan (st : NumberState) (s : string) : option NumberState :=
  match s with
  | EmptyString => Some st
  | String c s' =>
      match number_step st c with
      | Some st' => number_scan st' s'
      | None => None
      end
  end.

Fixpoint digits_value (acc : Z) (s : string) : Z :=
  match s with
  | EmptyString => acc
  | String c s' => digits_value (10 * acc + Z.of_N (N_of_ascii c - 48)) s'
  end.

Definition read_number (s : string) : option (json * string) :=
  let '(token, rest) := span number_char s in
  match number_scan NStart token with
  | Some NZero | Some NInt =>
      match token with
      | String c digits =>
          if Ascii.eqb c "-" then Some (JInt (- digits_value 0 digits), rest)
          else Some (JInt (digits_value 0 token), rest)
      | EmptyString => None
      end
  | Some NFrac | Some NExpDigits => Some (JFloat token, rest)
  | _ => None
  end.

(** [d[key] = v] on the items of a [dict]. *)
Fixpoint dict_set (key : string) (v : json) (d : list (string * json))
  : list (string * json) :=
  match d with
  | [] => [(key, v)]
  | (k, old) :: rest =>
      if String.eqb k key then (k, v) :: rest else (k, old) :: dict_set key v rest
  end.

Definition dict_of_pairs (pairs : list (string * json)) : list (string * json) :=
  fold_left (fun d kv => dict_set (fst kv) (snd kv) d) pairs [].

(** A value at the head of [s], then the items of an array after its first
    bracket, then the members of an object after its first brace. *)
Fixpoint read_value (fuel : nat) (s : string) {struct fuel} : option (json * string) :=
  match fuel with
  | O => None
  | S f =>
      match s with
      | EmptyString => None
      | String c r =>
          if Ascii.eqb c dquote then
            match read_string (String.length r) r with
            | Some (t, rest) => Some (JStr t, rest)
            | None => None
            end
          else if Ascii.eqb c "{" then
            match skip_ws r with
            | String "}" rest => Some (JObject [], rest)
            | r1 =>
                match read_members f r1 with
                | Some (pairs, rest) => Some (JObject (dict_of_pairs pairs), rest)
                | None => None
                end
            end
          else if Ascii.eqb c "[" then
            match skip_ws r with
            | String "]" rest => Some (JList [], rest)
            | r1 =>
                match read_items f r1 with
                | Some (items, rest) => Some (JList items, rest)
                | None => None
                end
            end
          else if startswith "null" s then Some (JNull, drop_chars 4 s)
          else if startswith "true" s then Some (JBool true, drop_chars 4 s)
          else if startswith "false" s then Some (JBool false, drop_chars 5 s)
          else if startswith "NaN" s then Some (JFloat "NaN", drop_chars 3 s)
          else if startswith "Infinity" s then Some (JFloat "Infinity", drop_chars 8 s)
          else if startswith "-Infinity" s then Some (JFloat "-Infinity", drop_chars 9 s)
          else read_number s
      end
  end
with read_items (fuel : nat) (s : string) {struct fuel} : option (list json * string) :=
  match fuel with
  | O => None
  | S f =>
      match read_value f s with
      | Some (v, r) =>
          match skip_ws r with
          | String "]" rest => Some ([v], rest)
          | String "," r' =>
              match read_items f (skip_ws r') with
              | Some (vs, rest) => Some (v :: vs, rest)
              | None => None
              end
          | _ => None
          end
      | None => None
      end
  end
with read_members (fuel : nat) (s : string) {struct fuel}
  : option (list (string * json) * string) :=
  match fuel with
  | O => None
  | S f =>
      match s with
      | String q r =>
          if Ascii.eqb q dquote then
            match read_string (String.length r) r with
            | Some (key, r1) =>
                match skip_ws r1 with
                | String ":" r2 =>
                    match read_value f (skip_ws r2) with
                    | Some (v, r3) =>
                        match skip_ws r3 with
                        | String "}" rest => Some ([(key, v)], rest)
                        | String "," r4 =>
                            match read_members f (skip_ws r4) with
                            | Some (more, rest) => Some ((key, v) :: more, rest)
                            | None => None
                            end
                        | _ => None
                        end
                    | None => None
                    end
                | _ => None
                end
            | None => None
            end
          else None
      | EmptyString => None
      end
  end.

(** [json.loads(s)], [None] for [JSONDecodeError]. *)
Definition json_parse (s : string) : option json :=
  match read_value (S (String.length s)) (skip_ws s) with
  | Some (v, rest) =>
      match skip_ws rest with
      | EmptyString => Some v
      | String _ _ => None
      end
  | None => None
  end.

(** The reader on bytes: it reads text only. *)
Definition checked_parse (s : string) : option json :=
  match utf8_error s with
  | None => json_parse s
  | Some _ => None
  end.

Definition checked_parse_text (s : string) (v : json)
  : checked_parse s = Some v -> utf8_error s = None.
Proof. unfold checked_parse. destruct (utf8_error s); [discriminate | reflexivity]. Defined.

(** *** Stand-ins for the endpoint and the host *)

(** An endpoint that answers every call with one choice holding [content]. *)
Definition endpoint_answers (content : option string) : list Params -> Params -> Completion :=
  fun _ _ => Completes [{| message_content := content |}].

(** An endpoint on which every call fails with [err]. *)
Definition endpoint_raises (err : string) : list Params -> Params -> Completion :=
  fun _ _ => Raises err.

(** An endpoint whose stream delivers [events]. *)
Definition endpoint_streams (events : list StreamEvent) : list Params -> Params -> StreamOpen :=
  fun _ _ => Opens events.

(** [str(x)] of a container is not needed by the examples. *)
Definition no_container_repr : json -> string := fun _ => EmptyString.

(** The daemon right after start-up, before the warm-up call. *)
Definition fresh_state : State :=
  {| cache := ∅; api_calls := []; journal := [] |}.

(** What the daemon takes from outside the repository. *)
Class World := {
  (** [hashlib.md5(b).hexdigest()] *)
  md5_hexdigest : string -> string;
  (** [json.loads] on a text: the value it returns, [None] where it raises. *)
  json_loads : string -> option json;
  (** What [json.loads] raises where it raises: [None] for a
      [JSONDecodeError], otherwise [str(e)] of the exception (a
      [RecursionError], or the [ValueError] of an integer with too many
      digits). *)
  loads_error : string -> option string;
  (** [json.loads] is given a [str]: what it reads a value from is text. *)
  json_loads_text : forall s v, json_loads s = Some v -> utf8_error s = None;
  (** [str(x)] of a list or a dict. *)
  container_repr : json -> string;
  (** [OpenAI(api_key=..., base_url=..., timeout=60.0, max_retries=3)] in
      [QwenLLMClient.__init__]: [str(e)] of the exception it raises, if it
      raises one. *)
  client_error : string -> option string;
  (** The endpoint behind [self.client.chat.completions.create], told the
      calls made before this one: without and with [stream]. *)
  create_completion : list Params -> Params -> Completion;
  create_stream : list Params -> Params -> StreamOpen;
  (** [threading.active_count()] and, where [psutil] is installed, the
      resident set size in bytes. *)
  active_count : Z;
  memory_rss : option Z
}.

Section Daemon.

Context {world : World}.

(** *** llm_client.py *)

(** [QwenLLMClient._get_cache_key(messages, **kwargs)].  [kwargs] cannot hold
    the key ["messages"], which Python binds to the parameter. *)
Definition _get_cache_key (messages : json) (kwargs : list (string * json)) : string :=
  md5_hexdigest (json_dumps true true (JObject (("messages", messages) :: kwargs))).

(** Lines 48-52 of [chat_completion]: the value under [key], if an entry is
    there and younger than [cache_ttl]. *)
Definition cache_lookup (now : Z) (key : string) (c : gmap string CacheEntry) : option string :=
  match c !! key with
  | Some e =>
      if now - entry_timestamp e <? cache_ttl then Some (entry_response e) else None
  | None => None
  end.

(** Lines 59-62 of [chat_completion]. *)
Definition cache_store (now : Z) (key response : string) (c : gmap string CacheEntry)
  : gmap string CacheEntry :=
  <[key := {| entry_response := response; entry_timestamp := now |}]> c.

(** The [for chunk in response:] loop of [_stream_response], run up to its
    next [yield]. *)
Fixpoint stream_loop (events : list StreamEvent) (st : State)
  : option string * Generator * State :=
  match events with
  | [] => (None, GenFinished, st)
  | StreamError e :: _ =>
      (None, GenFinished, syslog LOG_ERR ("流式响应错误: " +:+ e) st)
  | ChunkEvent chunk :: rest =>
      match chunk_choices chunk with
      | [] => stream_loop rest st
      | delta :: _ =>
          match delta_content delta with
          | Some content =>
              if String.eqb content "" then stream_loop rest st
              else (Some content, GenSuspended rest, st)
          | None => stream_loop rest st
          end
      end
  end.

(** [next(g)] on a generator of [QwenLLMClient._stream_response(params)]:
    the fragment yielded, or [None] for [StopIteration]. *)
Definition gen_next (g : Generator) (st : State) : option string * Generator * State :=
  match g with
  | GenCreated params =>
      let st1 := record_call params st in
      match create_stream (api_calls st) params with
      | OpenRaises e =>
          (None, GenFinished, syslog LOG_ERR ("流式响应错误: " +:+ e) st1)
      | Opens events => stream_loop events st1
      end
  | GenSuspended events => stream_loop events st
  | GenFinished => (None, GenFinished, st)
  end.

(** The fragments of at most [n] calls of [next], stopping at the first
    [StopIteration]. *)
Fixpoint gen_take (n : nat) (g : Generator) (st : State)
  : list string * Generator * State :=
  match n with
  | O => ([], g, st)
  | S k =>
      match gen_next g st with
      | (Some fragment, g', st') =>
          let '(more, g'', st'') := gen_take k g' st' in
          (fragment :: more, g'', st'')
      | (None, g', st') => ([], g', st')
      end
  end.

(** [QwenLLMClient._stream_response(params)]: calling a generator function
    makes the generator and runs none of its body. *)
Definition _stream_response (params : Params) : Generator := GenCreated params.

(** Lines 81-83 of [_direct_request]: the content of the first choice if
    there is one and it is not empty, the empty text otherwise. *)
Definition completion_text (choices : list Choice) : string :=
  match choices with
  | choice :: _ =>
      match message_content choice with
      | Some content => if String.eqb content "" then "" else content
      | None => ""
      end
  | [] => ""
  end.

(** [QwenLLMClient._direct_request(messages, stream, **kwargs)] *)
Definition _direct_request (messages : json) (stream : bool)
    (kwargs : list (string * json)) (st : State) : Result * State :=
  let params :=
    {| param_model := "qwen-turbo";
       param_messages := messages;
       param_stream := stream;
       param_temperature := dict_get kwargs "temperature" (JFloat "0.9");
       param_max_tokens := dict_get kwargs "max_tokens" (JInt 1500) |} in
  if stream then (RGenerator (_stream_response params), st)
  else
    let st1 := record_call params st in
    match create_completion (api_calls st) params with
    | Raises e => (RNone, syslog LOG_ERR ("千问请求失败: " +:+ e) st1)
    | Completes choices => (RStr (completion_text choices), st1)
    end.

(** [QwenLLMClient.chat_completion(messages, stream, **kwargs)]; [now] and
    [now'] are what [time.time()] reads at the look-up and at the store. *)
Definition chat_completion (now now' : Z) (messages : json) (stream : bool)
    (kwargs : list (string * json)) (st : State) : Result * State :=
  if stream then _direct_request messages true kwargs st
  else
    let cache_key := _get_cache_key messages kwargs in
    match cache_lookup now cache_key (cache st) with
    | Some cached => (RStr cached, syslog LOG_DEBUG "使用缓存响应" st)
    | None =>
        let '(response, st1) := _direct_request messages false kwargs st in
        match response with
        | RStr text =>
            if String.eqb text "" then (response, st1)
            else (response, set_cache (cache_store now' cache_key text (cache st1)) st1)
        | _ => (response, st1)
        end
    end.

(** [QwenLLMClient.cleanup()] *)
Definition llm_cleanup (st : State) : State :=
  syslog LOG_INFO "客户端资源已清理" (set_cache ∅ st).

(** *** server.py *)

(** [str(x)] of a decoded value, as an f-string prints it. *)
Definition py_str (v : json) : string :=
  match v with
  | JNull => "None"
  | JBool true => "True"
  | JBool false => "False"
  | JInt n => int_repr n
  | JFloat r =>
      if String.eqb r "NaN" then "nan"
      else if String.eqb r "Infinity" then "inf"
      else if String.eqb r "-Infinity" then "-inf"
      else r
  | JStr s => s
  | JList _ | JObject _ => container_repr v
  end.

(** [str(e)] of the [TypeError] that [len(None)] raises. *)
Definition len_of_None : string := "object of type 'NoneType' has no len()".
Definition len_of_generator : string := "object of type 'generator' has no len()".

(** [QwenServer.initialize_llm()], given [os.getenv("DASHSCOPE_API_KEY")].
    Inside its [try] only the constructor of the client can raise:
    [chat_completion] catches what the endpoint raises.  When the constructor
    returns, the state is that of a client just constructed. *)
Definition initialize_llm (api_key : option string) (now now' : Z) (st : State)
  : bool * State :=
  match api_key with
  | None => (false, syslog LOG_ERR "未设置 DASHSCOPE_API_KEY" st)
  | Some key =>
      if String.eqb key "" then (false, syslog LOG_ERR "未设置 DASHSCOPE_API_KEY" st)
      else
        match client_error key with
        | Some e => (false, syslog LOG_ERR ("模型初始化失败: " +:+ e) st)
        | None =>
            let st0 := syslog LOG_INFO "千问客户端初始化完成" (set_cache ∅ st) in
            let st1 := syslog LOG_INFO "正在预热千问模型..." st0 in
            let '(warmup_response, st2) :=
              chat_completion now now'
                (JList [JObject [("role", JStr "user"); ("content", JStr "你好")]])
                false [] st1 in
            match warmup_response with
            | RStr text =>
                if String.eqb text "" then
                  (true, syslog LOG_WARNING "模型预热无响应，但继续启动" st2)
                else
                  (true,
                   syslog LOG_INFO ("模型预热成功: " +:+ py_prefix 50 text +:+ "...") st2)
            | _ => (true, syslog LOG_WARNING "模型预热无响应，但继续启动" st2)
            end
        end
  end.

(** [QwenServer.get_memory_usage()]: megabytes, or ["unknown"] without
    [psutil]. *)
Definition get_memory_usage : json :=
  match memory_rss with
  | Some rss => JInt (rss / 1024 / 1024)
  | None => JStr "unknown"
  end.

(** [QwenServer.get_status()], the client having been constructed. *)
Definition get_status : json :=
  JObject [("status", JStr "running");
           ("model_loaded", JBool true);
           ("clients_connected", JInt (active_count - 1));
           ("memory_usage", get_memory_usage)].

(** [QwenServer.process_chat(request)] on the items of the request. *)
Definition process_chat (now now' : Z) (request : list (string * json)) (st : State)
  : json * State :=
  let messages := dict_get request "messages" (JList []) in
  let stream := dict_get request "stream" (JBool false) in
  if negb (truthy messages) then (error_response "消息不能为空", st)
  else if truthy stream then
    (warning_response "流式响应需要WebSocket，使用非流式", st)
  else
    let '(response, st') :=
      chat_completion now now' messages false
        [("temperature", dict_get request "temperature" (JFloat "0.9"));
         ("max_tokens", dict_get request "max_tokens" (JInt 2000))] st in
    match response with
    | RStr text =>
        (JObject [("response", JStr text);
                  ("tokens", JInt (Z.of_nat (py_len text) / 4))], st')
    | RNone => (error_response ("模型请求失败: " +:+ len_of_None), st')
    | RGenerator _ => (error_response ("模型请求失败: " +:+ len_of_generator), st')
    end.

(** [QwenServer.process_request(request)].  Only a [dict] has [get]; on
    anything else the first line raises [AttributeError]. *)
Definition process_request (now now' : Z) (request : json) (st : State)
  : Outcome json * State :=
  match request with
  | JObject d =>
      let action := dict_get d "action" (JStr "chat") in
      if is_str action "chat" then
        let '(response, st') := process_chat now now' d st in (Return response, st')
      else if is_str action "ping" then
        (Return (JObject [("status", JStr "alive"); ("action", JStr "pong")]), st)
      else if is_str action "status" then (Return get_status, st)
      else (Return (error_response ("未知操作: " +:+ py_str action)), st)
  | _ =>
      (Raise ("'" +:+ py_type_name request +:+ "' object has no attribute 'get'"), st)
  end.

(** The [except Exception as e:] of [handle_client]: the error is logged
    and reported to the peer. *)
Definition internal_error (e : string) (st : State) : option string * State :=
  (Some (json_dumps true false (error_response ("服务器内部错误: " +:+ e)) +:+ END),
   syslog LOG_ERR ("处理客户端请求时出错: " +:+ e) st).

(** [QwenServer.handle_client(client_socket)]: the bytes sent back, if any.
    Bytes that are not UTF-8 make [decode] raise, and [json.loads] can raise
    something else than the [JSONDecodeError] of the inner [try]: both end
    in the outer [except], as an exception of [process_request] does. *)
Definition handle_client (now now' : Z) (chunks : list string) (st : State)
  : option string * State :=
  let data := recv_until_END chunks "" in
  if String.eqb data "" then (None, st)
  else
    match utf8_error data with
    | Some e => internal_error e st
    | None =>
        let request_str := strip_END data in
        match json_loads request_str with
        | None =>
            match loads_error request_str with
            | None =>
                (Some (json_dumps true false (error_response "无效的JSON请求") +:+ END), st)
            | Some e => internal_error e st
            end
        | Some request =>
            match process_request now now' request st with
            | (Return response, st') => (Some (frame response), st')
            | (Raise e, st') => internal_error e st'
            end
        end
    end.

(** *** client.py *)

(** [QwenClient.send_request(request)] once connected: the bytes sent, and
    the value decoded from what the server sends back ([None] where the
    method prints the error and returns [None]). *)
Definition send_request (request : json) (reply : list string) : string * option json :=
  let sent := frame request in
  let response_data := recv_until_END reply "" in
  match utf8_error response_data with
  | Some _ => (sent, None)
  | None =>
      let response_str := strip_END response_data in
      (sent, json_loads response_str)
  end.

(** *** Vocabulary of the statements *)

(** The request is routed to [process_chat]: its action is ["chat"], or it
    has none. *)
Definition is_chat_request (d : list (string * json)) : bool :=
  is_str (dict_get d "action" (JStr "chat")) "chat".

(** The parameters [process_chat] makes [_direct_request] send for [d]. *)
Definition chat_params (d : list (string * json)) : Params :=
  {| param_model := "qwen-turbo";
     param_messages := dict_get d "messages" (JList []);
     param_stream := false;
     param_temperature := dict_get d "temperature" (JFloat "0.9");
     param_max_tokens := dict_get d "max_tokens" (JInt 2000) |}.

(** The key under which [process_chat] caches the answer to [d]. *)
Definition chat_key (d : list (string * json)) : string :=
  _get_cache_key (dict_get d "messages" (JList []))
    [("temperature", dict_get d "temperature" (JFloat "0.9"));
     ("max_tokens", dict_get d "max_tokens" (JInt 2000))].

(** The text a chunk carries: the content of the delta of its first choice,
    where it has one and it is not empty. *)
Definition chunk_text (chunk : Chunk) : option string :=
  match chunk_choices chunk with
  | delta :: _ =>
      match delta_content delta with
      | Some content => if String.eqb content "" then None else Some content
      | None => None
      end
  | [] => None
  end.

(** The chunks delivered before the stream fails, if it does. *)
Fixpoint chunks_before_error (events : list StreamEvent) : list Chunk :=
  match events with
  | ChunkEvent chunk :: rest => chunk :: chunks_before_error rest
  | _ => []
  end.

(** The members of an object and the elements of a list, as [json_dumps]
    renders them before it puts them together. *)
Definition dumped_items (ensure_ascii sort_keys : bool) (d : list (string * json))
  : list (string * string) :=
  map (fun kv => (fst kv, json_dumps ensure_ascii sort_keys (snd kv))) d.

Definition object_items (ensure_ascii sort_keys : bool) (v : json) : list (string * string) :=
  match v with
  | JObject d => dumped_items ensure_ascii sort_keys d
  | _ => []
  end.

Definition list_texts (ensure_ascii sort_keys : bool) (v : json) : list string :=
  match v with
  | JList l => map (json_dumps ensure_ascii sort_keys) l
  | _ => []
  end.

(** No occurrence of the terminator begins inside [s] once the terminator
    is appended to it. *)
Fixpoint no_start (s : string) : bool :=
  match s with
  | EmptyString => true
  | String _ s' => negb (startswith END (s +:+ END)) && no_start s'
  end.

Definition is_closer (c : ascii) : bool :=
  Ascii.eqb c dquote || Ascii.eqb c "]" || Ascii.eqb c "}".

(** The last character of [s] closes a string, a list or an object. *)
Fixpoint ends_with_closer (s : string) : bool :=
  match s with
  | EmptyString => false
  | String c EmptyString => is_closer c
  | String _ s' => ends_with_closer s'
  end.

Definition not_underscore (c : ascii) : bool := negb (Ascii.eqb c "_").

(** A text that cannot end in a proper prefix of the terminator: it has no
    underscore at all, or it ends with a closing character. *)
Definition boundary_ok (s : string) : bool :=
  all_chars not_underscore s || ends_with_closer s.

Definition object_fields (v : json) : list (string * json) :=
  match v with
  | JObject d => d
  | _ => []
  end.

(** The parameters [_direct_request] sends for a call of [chat_completion]. *)
Definition direct_params (messages : json) (stream : bool) (kwargs : list (string * json))
  : Params :=
  {| param_model := "qwen-turbo";
     param_messages := messages;
     param_stream := stream;
     param_temperature := dict_get kwargs "temperature" (JFloat "0.9");
     param_max_tokens := dict_get kwargs "max_tokens" (JInt 1500) |}.

(** The conversation and the parameters of the warm-up call of
    [initialize_llm]. *)
Definition warmup_messages : json :=
  JList [JObject [("role", JStr "user"); ("content", JStr "你好")]].

Definition warmup_params : Params :=
  {| param_model := "qwen-turbo";
     param_messages := warmup_messages;
     param_stream := false;
     param_temperature := JFloat "0.9";
     param_max_tokens := JInt 1500 |}.

(** The failure of a remote stream: its first error, if it has one, and the
    line [_stream_response] writes to the journal for it. *)
Fixpoint stream_error (events : list StreamEvent) : option string :=
  match events with
  | [] => None
  | ChunkEvent _ :: rest => stream_error rest
  | StreamError e :: _ => Some e
  end.

Definition stream_error_lines (failure : option string) : list (Priority * string) :=
  match failure with
  | Some e => [(LOG_ERR, "流式响应错误: " +:+ e)]
  | None => []
  end.

End Daemon.

(** *** Worlds to run the daemon in *)

(** The reference MD5 and reader, one thread besides the main one, no
    [psutil], and the given endpoint. *)
Definition world_with (completion : list Params -> Params -> Completion)
    (stream : list Params -> Params -> StreamOpen) : World :=
  {| md5_hexdigest := md5;
     json_loads := checked_parse;
     loads_error := fun _ => None;
     json_loads_text := checked_parse_text;
     container_repr := no_container_repr;
     client_error := fun _ => None;
     create_completion := completion;
     create_stream := stream;
     active_count := 2;
     memory_rss := None |}.

(** A world whose endpoint answers [content] to every call. *)
Definition answering (content : option string) : World :=
  world_with (endpoint_answers content) (endpoint_streams []).

(** A world whose endpoint fails every call with [err]. *)
Definition failing (err : string) : World :=
  world_with (endpoint_raises err) (fun _ _ => OpenRaises err).

(** A world whose endpoint streams [events]. *)
Definition streaming (events : list StreamEvent) : World :=
  world_with (endpoint_answers None) (endpoint_streams events).

Definition user_message (content : string) : json :=
  JObject [("role", JStr "user"); ("content", JStr content)].

(** [{"action": "chat", "messages": [{"role": "user", "content": "hello"}],
    "stream": false}] *)
Definition hello_request : list (string * json) :=
  [("action", JStr "chat");
   ("messages", JList [user_message "hello"]);
   ("stream", JBool false)].

(** The same request with its fields, and those of its message, supplied in
    another order. *)
Definition hello_request_reordered : list (string * json) :=
  [("stream", JBool false);
   ("messages", JList [JObject [("content", JStr "hello"); ("role", JStr "user")]]);
   ("action", JStr "chat")].

(** A chat request for a streamed answer. *)
Definition streamed_request : list (string * json) :=
  [("action", JStr "chat");
   ("messages", JList [user_message "hello"]);
   ("stream", JBool true)].

(** A chat request for a streamed answer to an empty conversation. *)
Definition streamed_empty_request : list (string * json) :=
  [("action", JStr "chat"); ("messages", JList []); ("stream", JBool true)].

(** A chat request that asks for more tokens than the dispatcher's default. *)
Definition long_request : list (string * json) :=
  [("action", JStr "chat");
   ("messages", JList [user_message "hello"]);
   ("max_tokens", JInt 5000)].

(** A chat request whose message holds the frame terminator. *)
Definition sentinel_request : list (string * json) :=
  [("action", JStr "chat"); ("messages", JList [user_message "a__END__b"])].

(** A remote stream: two chunks with text, three without, then a failure. *)
Definition sample_stream : list StreamEvent :=
  [ChunkEvent {| chunk_choices := [{| delta_content := Some "Hel" |}] |};
   ChunkEvent {| chunk_choices := [] |};
   ChunkEvent {| chunk_choices := [{| delta_content := None |}] |};
   ChunkEvent {| chunk_choices := [{| delta_content := Some "" |}] |};
   ChunkEvent {| chunk_choices := [{| delta_content := Some "lo" |}] |};
   StreamError "Connection error.";
   ChunkEvent {| chunk_choices := [{| delta_content := Some "lost" |}] |}].

(** [c * n] *)
Fixpoint filler (c : ascii) (n : nat) : string :=
  match n with
  | O => EmptyString
  | S k => String c (filler c k)
  end.


Fixpoint take_chars (n : nat) (s : string) : string :=
  match n, s with
  | S k, String c s' => String c (take_chars k s')
  | _, _ => EmptyString
  end.

(** What successive [recv(size)] return for the bytes [s], when every read
    is served in full. *)
Fixpoint reads (fuel size : nat) (s : string) : list string :=
  match fuel, s with
  | S f, String _ _ => take_chars size s :: reads f size (drop_chars size s)
  | _, _ => []
  end.

(** *** client.py: the interactive side *)

(** [str.isspace] holds of these twenty-nine characters and of no other:
    U+0009 to U+000D, U+001C to U+0020, U+0085, U+00A0, U+1680, U+2000 to
    U+200A, U+2028, U+2029, U+202F, U+205F and U+3000, here in UTF-8. *)
Definition whitespace : list string :=
  [String "009" EmptyString;
   String "010" EmptyString;
   String "011" EmptyString;
   String "012" EmptyString;
   String "013" EmptyString;
   String "028" EmptyString;
   String "029" EmptyString;
   String "030" EmptyString;
   String "031" EmptyString;
   String "032" EmptyString;
   String "194" (String "133" EmptyString);
   String "194" (String "160" EmptyString);
   String "225" (String "154" (String "128" EmptyString));
   String "226" (String "128" (String "128" EmptyString));
   String "226" (String "128" (String "129" EmptyString));
   String "226" (String "128" (String "130" EmptyString));
   String "226" (String "128" (String "131" EmptyString));
   String "226" (String "128" (String "132" EmptyString));
   String "226" (String "128" (String "133" EmptyString));
   String "226" (String "128" (String "134" EmptyString));
   String "226" (String "128" (String "135" EmptyString));
   String "226" (String "128" (String "136" EmptyString));
   String "226" (String "128" (String "137" EmptyString));
   String "226" (String "128" (String "138" EmptyString));
   String "226" (String "128" (String "168" EmptyString));
   String "226" (String "128" (String "169" EmptyString));
   String "226" (String "128" (String "175" EmptyString));
   String "226" (String "129" (String "159" EmptyString));
   String "227" (String "128" (String "128" EmptyString))].

Definition isspace (ch : string) : bool := existsb (String.eqb ch) whitespace.

(** The code points of a [str], each with its continuation bytes. *)
Fixpoint py_chars (s : string) : list string :=
  match s with
  | EmptyString => []
  | String c s' =>
      let chars := py_chars s' in
      match s' with
      | String c' _ =>
          if is_continuation c' then
            match chars with
            | ch :: rest => String c ch :: rest
            | [] => [String c EmptyString]
            end
          else String c EmptyString :: chars
      | EmptyString => [String c EmptyString]
      end
  end.

Fixpoint lstrip_chars (chars : list string) : list string :=
  match chars with
  | ch :: rest => if isspace ch then lstrip_chars rest else chars
  | [] => []
  end.

(** [s.strip()] *)
Definition py_strip (s : string) : string :=
  concat_chunks (rev (lstrip_chars (rev (lstrip_chars (py_chars s))))).

(** [s.lower()] on the ASCII capitals.  Of the other characters only U+0130
    and U+212A have an ASCII letter in their lower case (i with a combining
    dot, and k), so for a word [w] of ASCII letters without k, as the two
    words the client compares with are, [s.lower() == w] is
    [lower_ascii s = w]. *)
Definition lower_char (c : ascii) : ascii :=
  let n := nat_of_ascii c in
  if ((65 <=? n) && (n <=? 90))%nat then ascii_of_nat (n + 32) else c.

Fixpoint lower_ascii (s : string) : string :=
  match s with
  | EmptyString => EmptyString
  | String c s' => String (lower_char c) (lower_ascii s')
  end.

Definition nl : string := String "010" EmptyString.
Definition esc : string := String "027" EmptyString.

(** What [input(prompt)] gives: a line without its newline, or Ctrl-C.  The
    end of the list is the end of the standard input, [EOFError]. *)
Inductive Input :=
| Line (text : string)
| KeyboardInterrupt.

(** What a call [self.send_request(request)] comes to: it returns the decoded
    reply or [None]; Ctrl-C interrupts it; or an exception that [connect]
    does not catch escapes it. *)
Inductive Sending :=
| Returns (response : option json)
| Interrupts
| Escapes (exception : string).

(** What the terminal sees, in order: a call of [input] with its prompt, a
    text written by [print], a call of [send_request] with all it does. *)
Inductive Event :=
| Asked (prompt : string)
| Printed (text : string)
| Requested (request : json).

(** How a method ends: it returns, or an exception of the named type leaves
    it. *)
Inductive Exit (A : Type) :=
| Returned (a : A)
| Raised (exception : string).
Arguments Returned {A} a.
Arguments Raised {A} exception.

Definition then_do {A Peer : Type} (events : list Event)
    (rest : list Event * Exit A * Peer) : list Event * Exit A * Peer :=
  let '(trace, exit, peer) := rest in (events ++ trace, exit, peer).

Definition user_prompt : string := esc +:+ "[94m你: " +:+ esc +:+ "[0m".
Definition assistant_prompt : string := esc +:+ "[92m千问: " +:+ esc +:+ "[0m".

Definition chat_request (conversation_history : list json) : json :=
  JObject [("action", JStr "chat");
           ("messages", JList conversation_history);
           ("stream", JBool false)].

Definition error_line (error_msg : string) : string :=
  nl +:+ esc +:+ "[91m错误: " +:+ error_msg +:+ esc +:+ "[0m" +:+ nl.

Section Client.
Context {world : World} {Peer : Type}.

(** The server as the client meets it: [send peer request] is what the call
    [self.send_request(request)] comes to, and the peer after it. *)
Variable send : Peer -> json -> Sending * Peer.

(** The [while True:] loop of [QwenClient.chat_interactive()]. *)
Fixpoint chat_loop (inputs : list Input) (conversation_history : list json)
    (peer : Peer) : list Event * Exit unit * Peer :=
  match inputs with
  | [] =>
      ([Asked user_prompt; Printed (nl +:+ nl +:+ "退出对话" +:+ nl)], Returned tt, peer)
  | KeyboardInterrupt :: _ =>
      ([Asked user_prompt; Printed (nl +:+ nl +:+ "退出对话" +:+ nl)], Returned tt, peer)
  | Line text :: rest =>
      let user_input := py_strip text in
      if String.eqb user_input "" then
        then_do [Asked user_prompt] (chat_loop rest conversation_history peer)
      else if String.eqb (lower_ascii user_input) "exit" then
        ([Asked user_prompt; Printed ("退出对话" +:+ nl)], Returned tt, peer)
      else if String.eqb (lower_ascii user_input) "clear" then
        then_do [Asked user_prompt;
                 Printed (esc +:+ "[93m对话历史已清空" +:+ esc +:+ "[0m" +:+ nl)]
          (chat_loop rest [] peer)
      else
        let conversation_history :=
          conversation_history
            ++ [JObject [("role", JStr "user"); ("content", JStr user_input)]] in
        let request := chat_request conversation_history in
        let asked := [Asked user_prompt; Printed assistant_prompt; Requested request] in
        match send peer request with
        | (Interrupts, peer) =>
            (asked ++ [Printed (nl +:+ nl +:+ "退出对话" +:+ nl)], Returned tt, peer)
        | (Escapes exception, peer) => (asked, Raised exception, peer)
        | (Returns response, peer) =>
            let no_response :=
              then_do (asked ++ [Printed (error_line "无响应")])
                (chat_loop rest conversation_history peer) in
            match response with
            | None => no_response
            | Some response =>
                if negb (truthy response) then no_response
                else
                  match response with
                  | JObject d =>
                      match dict_lookup "response" d with
                      | Some assistant_reply =>
                          then_do (asked ++ [Printed (py_str assistant_reply +:+ nl)])
                            (chat_loop rest
                               (conversation_history
                                  ++ [JObject [("role", JStr "assistant");
                                               ("content", assistant_reply)]])
                               peer)
                      | None =>
                          then_do
                            (asked
                               ++ [Printed
                                     (error_line (py_str (dict_get d "error" (JStr "未知错误"))))])
                            (chat_loop rest conversation_history peer)
                      end
                  | JList l =>
                      if existsb (fun v => is_str v "response") l
                      then (asked, Raised "TypeError", peer)
                      else (asked, Raised "AttributeError", peer)
                  | JStr s =>
                      if contains "response" s then (asked, Raised "TypeError", peer)
                      else (asked, Raised "AttributeError", peer)
                  | _ => (asked, Raised "TypeError", peer)
                  end
            end
        end
  end.

(** [QwenClient.chat_interactive()] *)
Definition chat_interactive (inputs : list Input) (peer : Peer)
  : list Event * Exit unit * Peer :=
  then_do
    [Printed (nl +:+ filler "=" 60 +:+ nl);
     Printed ("千问大模型对话模式 (输入 'exit' 退出，'clear' 清空历史)" +:+ nl);
     Printed (filler "=" 60 +:+ nl +:+ nl)]
    (chat_loop inputs [] peer).

(** [QwenClient.ping()] *)
Definition ping (peer : Peer) : list Event * Exit bool * Peer :=
  let request := JObject [("action", JStr "ping")] in
  match send peer request with
  | (Interrupts, peer) => ([Requested request], Raised "KeyboardInterrupt", peer)
  | (Escapes exception, peer) => ([Requested request], Raised exception, peer)
  | (Returns response, peer) =>
      let dead := ([Requested request; Printed ("服务无响应 ✗" +:+ nl)], Returned false, peer) in
      match response with
      | None => dead
      | Some response =>
          if negb (truthy response) then dead
          else
            match response with
            | JObject d =>
                if is_str (dict_get d "action" JNull) "pong" then
                  ([Requested request; Printed ("服务运行正常 ✓" +:+ nl)], Returned true, peer)
                else dead
            | _ => ([Requested request], Raised "AttributeError", peer)
            end
      end
  end.

End Client.

(** *** Vocabulary of the statements about the client *)

Definition user_says (content : string) : json :=
  JObject [("role", JStr "user"); ("content", JStr content)].

Definition assistant_says (assistant_reply : json) : json :=
  JObject [("role", JStr "assistant"); ("content", assistant_reply)].

(** The conversations of the requests of a trace, in the order in which they
    were sent. *)
Fixpoint sent_conversations (trace : list Event) : list (list json) :=
  match trace with
  | [] => []
  | Requested request :: rest =>
      match dict_get (object_fields request) "messages" JNull with
      | JList conversation => conversation :: sent_conversations rest
      | _ => sent_conversations rest
      end
  | _ :: rest => sent_conversations rest
  end.

(** Each conversation is the one before it, then the answer to it if there
    was one, then one more question. *)
Fixpoint grows (previous : list json) (conversations : list (list json)) : Prop :=
  match conversations with
  | [] => True
  | conversation :: rest =>
      ((exists question, conversation = previous ++ [user_says question])
       \/ (exists answer question,
             conversation = previous ++ [assistant_says answer; user_says question]))
      /\ grows conversation rest
  end.

(** The line makes the loop stop, or forget the conversation. *)
Definition says (word : string) (input : Input) : bool :=
  match input with
  | Line text => String.eqb (lower_ascii (py_strip text)) word
  | KeyboardInterrupt => false
  end.

(** The daemon behind the socket: the [n]-th connection is served at the
    clock readings [clock n], and [cut] is how the bytes of a frame come out
    of successive calls of [recv]. *)
Definition daemon {world : World} (clock : nat -> Z * Z) (cut : string -> list string)
    (peer : nat * State) (request : json) : Sending * (nat * State) :=
  let '(n, st) := peer in
  let '(reply, st') :=
    handle_client (fst (clock n)) (snd (clock n)) (cut (fst (send_request request []))) st in
  (Returns (snd (send_request request (match reply with
                                        | Some bytes => cut bytes
                                        | None => []
                                        end))),
   (S n, st')).

Definition ping_request : json := JObject [("action", JStr "ping")].
Definition pong : json := JObject [("status", JStr "alive"); ("action", JStr "pong")].

(** A session: two questions, a blank line between them, then an exit and a
    line behind it. *)
Definition session_inputs : list Input :=
  [Line " hello "; Line ""; Line "and then?"; Line "EXIT"; Line "never read"].

(** The daemon of a world whose endpoint answers [hi there], one time unit
    per connection, read 4096 bytes at a time. *)
Definition session_link : nat * State -> json -> Sending * (nat * State) :=
  daemon (world := answering (Some "hi there")) (fun n => (Z.of_nat n, Z.of_nat n))
    (reads 200 4096).

(** ** Properties *)

Section Properties.

Context {world : World}.

(** *** Dispatch ([process_request], [process_chat]) *)

Lemma is_chat_request_no_action d :
  dict_lookup "action" d = None -> is_chat_request d = true.
Proof. unfold is_chat_request, dict_get. now intros ->. Qed.

(** C7. A chat request whose conversation is empty (no ["messages"] field, or an
    empty list) is answered with the empty-conversation error; the state is
    left as it was, so the endpoint is not called and the cache not touched. *)
Theorem chat_empty_conversation_rejected now now' d st :
  is_chat_request d = true ->
  dict_lookup "messages" d = None \/ dict_lookup "messages" d = Some (JList []) ->
  process_request now now' (JObject d) st
    = (Return (error_response "消息不能为空"), st)
  /\ api_calls (snd (process_request now now' (JObject d) st)) = api_calls st.
Proof.
  intros Hchat Hempty.
  assert (Hfalsy : truthy (dict_get d "messages" (JList [])) = false).
  { unfold dict_get. destruct Hempty as [-> | ->]; reflexivity. }
  assert (Hreq : process_request now now' (JObject d) st
                 = (Return (error_response "消息不能为空"), st)).
  { unfold process_request. fold (is_chat_request d). rewrite Hchat.
    unfold process_chat. rewrite Hfalsy. reflexivity. }
  split; [exact Hreq | now rewrite Hreq].
Qed.

Lemma process_request_chat now now' d st :
  is_chat_request d = true ->
  process_request now now' (JObject d) st
    = (Return (fst (process_chat now now' d st)), snd (process_chat now now' d st)).
Proof.
  intros Hchat. unfold process_request. fold (is_chat_request d). rewrite Hchat.
  now destruct (process_chat now now' d st).
Qed.

Lemma process_chat_falsy_messages now now' d st :
  truthy (dict_get d "messages" (JList [])) = false ->
  process_chat now now' d st = (error_response "消息不能为空", st).
Proof. intros H. unfold process_chat. now rewrite H. Qed.

Lemma process_chat_truthy_stream now now' d st :
  truthy (dict_get d "messages" (JList [])) = true ->
  truthy (dict_get d "stream" (JBool false)) = true ->
  process_chat now now' d st
    = (warning_response "流式响应需要WebSocket，使用非流式", st).
Proof. intros Hm Hs. unfold process_chat. now rewrite Hm, Hs. Qed.

(** Whatever the conversation, a truthy [stream] leaves the state alone. *)
Lemma process_chat_stream_state now now' d st :
  truthy (dict_get d "stream" (JBool false)) = true ->
  snd (process_chat now now' d st) = st.
Proof.
  intros Hs. unfold process_chat. rewrite Hs.
  now destruct (truthy (dict_get d "messages" (JList []))).
Qed.

(** C2 (as amended). A chat request with [stream = true] never reaches the cache
    or the endpoint: the state comes back unchanged.  The emptiness check comes
    first: when the conversation is empty (no ["messages"] field, an empty
    list, or any other value that is falsy) the answer is the
    empty-conversation error, and otherwise, so for every non-empty list, it
    is the unsupported-channel warning. *)
Theorem chat_stream_unsupported now now' d st :
  is_chat_request d = true ->
  dict_lookup "stream" d = Some (JBool true) ->
  snd (process_request now now' (JObject d) st) = st
  /\ process_request now now' (JObject d) st
     = (Return (if truthy (dict_get d "messages" (JList []))
                then warning_response "流式响应需要WebSocket，使用非流式"
                else error_response "消息不能为空"), st)
  /\ (forall m ms, dict_lookup "messages" d = Some (JList (m :: ms)) ->
       process_request now now' (JObject d) st
       = (Return (warning_response "流式响应需要WebSocket，使用非流式"), st))
  /\ (dict_lookup "messages" d = None \/ dict_lookup "messages" d = Some (JList []) ->
       process_request now now' (JObject d) st
       = (Return (error_response "消息不能为空"), st)).
Proof.
  intros Hchat Hstream.
  assert (Hs : truthy (dict_get d "stream" (JBool false)) = true).
  { unfold dict_get. now rewrite Hstream. }
  rewrite (process_request_chat now now' d st Hchat).
  assert (Hcases : process_chat now now' d st
                   = (if truthy (dict_get d "messages" (JList []))
                      then warning_response "流式响应需要WebSocket，使用非流式"
                      else error_response "消息不能为空", st)).
  { destruct (truthy (dict_get d "messages" (JList []))) eqn:Hm.
    - now apply process_chat_truthy_stream.
    - now apply process_chat_falsy_messages. }
  rewrite Hcases. cbn [fst snd]. split; [reflexivity|]. split; [reflexivity|]. split.
  - intros m ms Hm. unfold dict_get. now rewrite Hm.
  - intros [Hm | Hm]; unfold dict_get; now rewrite Hm.
Qed.

Lemma process_chat_not_unknown_action now now' d st msg st' :
  process_chat now now' d st <> (error_response ("未知操作: " +:+ msg), st').
Proof.
  unfold process_chat, error_response, warning_response, len_of_None, len_of_generator.
  destruct (truthy (dict_get d "messages" (JList []))); cbn [negb];
    [|cbv [String.append]; intros H; discriminate H].
  destruct (truthy (dict_get d "stream" (JBool false)));
    [intros H; discriminate H|].
  destruct (chat_completion _ _ _ _ _ _) as [[| text | g] st1];
    cbv [String.append]; intros H; discriminate H.
Qed.

(** C10. A request object without an ["action"] field is handled as a chat
    request; the unknown-action error is the answer exactly when the field is
    there and holds something other than ["chat"], ["ping"] or ["status"]. *)
Theorem action_defaults_to_chat now now' d st :
  (dict_lookup "action" d = None ->
     process_request now now' (JObject d) st
     = (Return (fst (process_chat now now' d st)), snd (process_chat now now' d st)))
  /\ (forall msg st',
        process_request now now' (JObject d) st
        = (Return (error_response ("未知操作: " +:+ msg)), st') ->
        exists a, dict_lookup "action" d = Some a
                  /\ is_str a "chat" = false /\ is_str a "ping" = false
                  /\ is_str a "status" = false)
  /\ (forall a, dict_lookup "action" d = Some a ->
        is_str a "chat" = false -> is_str a "ping" = false ->
        is_str a "status" = false ->
        process_request now now' (JObject d) st
        = (Return (error_response ("未知操作: " +:+ py_str a)), st)).
Proof.
  split; [|split].
  - intros Hnone. apply process_request_chat. now apply is_chat_request_no_action.
  - intros msg st' Hreq.
    destruct (is_chat_request d) eqn:Hchat.
    + rewrite process_request_chat in Hreq by assumption.
      exfalso. apply (process_chat_not_unknown_action now now' d st msg st').
      destruct (process_chat now now' d st) as [r s1]. cbn in Hreq. congruence.
    + unfold is_chat_request, dict_get in Hchat.
      destruct (dict_lookup "action" d) as [a|] eqn:Ha; [|discriminate Hchat].
      exists a. split; [reflexivity|]. split; [assumption|].
      unfold process_request, dict_get in Hreq. rewrite Ha, Hchat in Hreq.
      destruct (is_str a "ping"); [discriminate Hreq|].
      destruct (is_str a "status"); [discriminate Hreq|]. now split.
  - intros a Ha Hc Hp Hs. unfold process_request, dict_get.
    now rewrite Ha, Hc, Hp, Hs.
Qed.

(** *** The gateway ([_direct_request], [chat_completion]) *)

Lemma direct_request_call messages kwargs st :
  api_calls (snd (_direct_request messages false kwargs st))
  = api_calls st
      ++ [{| param_model := "qwen-turbo"; param_messages := messages;
             param_stream := false;
             param_temperature := dict_get kwargs "temperature" (JFloat "0.9");
             param_max_tokens := dict_get kwargs "max_tokens" (JInt 1500) |}].
Proof. unfold _direct_request. now destruct (create_completion _ _). Qed.

(** A look-up that fails sends the request to the endpoint; a text that is
    not empty is stored under the key of the request. *)
Lemma chat_completion_miss now now' messages kwargs st :
  cache_lookup now (_get_cache_key messages kwargs) (cache st) = None ->
  chat_completion now now' messages false kwargs st
  = let '(response, st1) := _direct_request messages false kwargs st in
    match response with
    | RStr text =>
        if String.eqb text "" then (response, st1)
        else (response,
              set_cache (cache_store now' (_get_cache_key messages kwargs) text (cache st1)) st1)
    | _ => (response, st1)
    end.
Proof. intros H. unfold chat_completion. now rewrite H. Qed.

Lemma chat_completion_hit now now' messages kwargs st cached :
  cache_lookup now (_get_cache_key messages kwargs) (cache st) = Some cached ->
  chat_completion now now' messages false kwargs st
  = (RStr cached, syslog LOG_DEBUG "使用缓存响应" st).
Proof. intros H. unfold chat_completion. now rewrite H. Qed.

(** The call [process_chat] has [_direct_request] make: both parameters are
    named, so the defaults of [_direct_request] play no part. *)
Lemma direct_request_chat d st :
  _direct_request (dict_get d "messages" (JList [])) false
    [("temperature", dict_get d "temperature" (JFloat "0.9"));
     ("max_tokens", dict_get d "max_tokens" (JInt 2000))] st
  = match create_completion (api_calls st) (chat_params d) with
    | Raises e =>
        (RNone, syslog LOG_ERR ("千问请求失败: " +:+ e) (record_call (chat_params d) st))
    | Completes choices =>
        (RStr (completion_text choices), record_call (chat_params d) st)
    end.
Proof. reflexivity. Qed.

Lemma process_chat_completes now now' d st choices :
  truthy (dict_get d "messages" (JList [])) = true ->
  truthy (dict_get d "stream" (JBool false)) = false ->
  cache_lookup now (chat_key d) (cache st) = None ->
  create_completion (api_calls st) (chat_params d) = Completes choices ->
  process_chat now now' d st
  = (JObject [("response", JStr (completion_text choices));
              ("tokens", JInt (Z.of_nat (py_len (completion_text choices)) / 4))],
     {| cache := if String.eqb (completion_text choices) "" then cache st
                 else cache_store now' (chat_key d) (completion_text choices) (cache st);
        api_calls := api_calls st ++ [chat_params d];
        journal := journal st |}).
Proof.
  intros Hm Hs Hmiss Hcall. unfold process_chat. rewrite Hm, Hs. cbn [negb].
  rewrite chat_completion_miss by exact Hmiss.
  rewrite direct_request_chat, Hcall. fold (chat_key d).
  destruct (String.eqb (completion_text choices) ""); reflexivity.
Qed.

Lemma process_chat_raises now now' d st err :
  truthy (dict_get d "messages" (JList [])) = true ->
  truthy (dict_get d "stream" (JBool false)) = false ->
  cache_lookup now (chat_key d) (cache st) = None ->
  create_completion (api_calls st) (chat_params d) = Raises err ->
  process_chat now now' d st
  = (error_response ("模型请求失败: " +:+ len_of_None),
     {| cache := cache st;
        api_calls := api_calls st ++ [chat_params d];
        journal := journal st ++ [(LOG_ERR, "千问请求失败: " +:+ err)] |}).
Proof.
  intros Hm Hs Hmiss Hcall. unfold process_chat. rewrite Hm, Hs. cbn [negb].
  rewrite chat_completion_miss by exact Hmiss.
  rewrite direct_request_chat, Hcall. reflexivity.
Qed.

(** On a miss the dispatcher makes one call, with the parameters of the
    request, whatever the endpoint then does. *)
Lemma process_chat_miss_call now now' d st :
  truthy (dict_get d "messages" (JList [])) = true ->
  truthy (dict_get d "stream" (JBool false)) = false ->
  cache_lookup now (chat_key d) (cache st) = None ->
  api_calls (snd (process_chat now now' d st)) = api_calls st ++ [chat_params d].
Proof.
  intros Hm Hs Hmiss.
  destruct (create_completion (api_calls st) (chat_params d)) as [err|choices] eqn:Hcall.
  - now rewrite (process_chat_raises now now' d st err).
  - now rewrite (process_chat_completes now now' d st choices).
Qed.

(** C3 (as amended). On a cache miss a chat request with a conversation and
    without [stream] makes one call to the endpoint, with [stream = False];
    the text obtained is stored under the key of the request if it is not
    empty (an empty text, which is not null either, is not stored) and it is
    returned with [len(text) // 4] as its token count. *)
Theorem chat_cache_miss now now' d st choices :
  is_chat_request d = true ->
  truthy (dict_get d "messages" (JList [])) = true ->
  truthy (dict_get d "stream" (JBool false)) = false ->
  cache_lookup now (chat_key d) (cache st) = None ->
  create_completion (api_calls st) (chat_params d) = Completes choices ->
  process_request now now' (JObject d) st
  = (Return (JObject [("response", JStr (completion_text choices));
                      ("tokens", JInt (Z.of_nat (py_len (completion_text choices)) / 4))]),
     {| cache := if String.eqb (completion_text choices) "" then cache st
                 else cache_store now' (chat_key d) (completion_text choices) (cache st);
        api_calls := api_calls st ++ [chat_params d];
        journal := journal st |})
  /\ param_stream (chat_params d) = false.
Proof.
  intros Hchat Hm Hs Hmiss Hcall. split; [|reflexivity].
  rewrite process_request_chat by exact Hchat.
  now rewrite (process_chat_completes now now' d st choices).
Qed.

(** C6 (as amended). [_direct_request] sends [temperature = 0.9] and
    [max_tokens = 1500] when its caller names neither, and the caller's values
    otherwise.  [process_chat] always names both: the request's own values,
    or [0.9] and [2000] where the request has none; [2000] is a default and
    no upper bound is applied. *)
Theorem gateway_parameters now now' messages kwargs d st :
  (exists p,
      api_calls (snd (_direct_request messages false kwargs st)) = api_calls st ++ [p]
      /\ _direct_request messages true kwargs st
         = (RGenerator
              (_stream_response
                 {| param_model := param_model p;
                    param_messages := param_messages p;
                    param_stream := true;
                    param_temperature := param_temperature p;
                    param_max_tokens := param_max_tokens p |}), st)
      /\ (dict_lookup "temperature" kwargs = None -> param_temperature p = JFloat "0.9")
      /\ (dict_lookup "max_tokens" kwargs = None -> param_max_tokens p = JInt 1500)
      /\ (forall v, dict_lookup "temperature" kwargs = Some v -> param_temperature p = v)
      /\ (forall v, dict_lookup "max_tokens" kwargs = Some v -> param_max_tokens p = v))
  /\ (is_chat_request d = true ->
      truthy (dict_get d "messages" (JList [])) = true ->
      truthy (dict_get d "stream" (JBool false)) = false ->
      cache_lookup now (chat_key d) (cache st) = None ->
      exists p,
        api_calls (snd (process_request now now' (JObject d) st)) = api_calls st ++ [p]
        /\ (dict_lookup "temperature" d = None -> param_temperature p = JFloat "0.9")
        /\ (dict_lookup "max_tokens" d = None -> param_max_tokens p = JInt 2000)
        /\ (forall v, dict_lookup "temperature" d = Some v -> param_temperature p = v)
        /\ (forall v, dict_lookup "max_tokens" d = Some v -> param_max_tokens p = v)).
Proof.
  split.
  - eexists. split; [apply direct_request_call|].
    split; [reflexivity|]. cbn [param_temperature param_max_tokens]. unfold dict_get.
    repeat split; intros; now rewrite H.
  - intros Hchat Hm Hs Hmiss. exists (chat_params d).
    rewrite process_request_chat by exact Hchat.
    split; [now apply process_chat_miss_call|].
    unfold chat_params, dict_get. cbn [param_temperature param_max_tokens].
    repeat split; intros; now rewrite H.
Qed.

(** *** The cache *)

Lemma cache_lookup_fresh (k v : string) (stored_at now : Z) (c : gmap string CacheEntry) :
  now - stored_at < cache_ttl ->
  cache_lookup now k (cache_store stored_at k v c) = Some v.
Proof.
  intros H. unfold cache_lookup, cache_store. rewrite lookup_insert_eq.
  cbn [entry_timestamp entry_response]. apply Z.ltb_lt in H. now rewrite H.
Qed.

Lemma cache_lookup_stale (k v : string) (stored_at now : Z) (c : gmap string CacheEntry) :
  cache_ttl <= now - stored_at ->
  cache_lookup now k (cache_store stored_at k v c) = None.
Proof.
  intros H. unfold cache_lookup, cache_store. rewrite lookup_insert_eq.
  cbn [entry_timestamp entry_response]. apply Z.ltb_ge in H. now rewrite H.
Qed.

(** Within the time to live a repeated request is answered from the cache,
    without a call to the endpoint. *)
Lemma chat_completion_reuses_answer now now' later later' messages kwargs st text :
  cache_lookup now (_get_cache_key messages kwargs) (cache st) = None ->
  fst (chat_completion now now' messages false kwargs st) = RStr text ->
  text <> "" ->
  later - now' < cache_ttl ->
  chat_completion later later' messages false kwargs
    (snd (chat_completion now now' messages false kwargs st))
  = (RStr text,
     syslog LOG_DEBUG "使用缓存响应" (snd (chat_completion now now' messages false kwargs st))).
Proof.
  intros Hmiss Hres Hne Hfresh.
  apply chat_completion_hit.
  rewrite chat_completion_miss in * by exact Hmiss.
  destruct (_direct_request messages false kwargs st) as [[| t | g] st1];
    cbn in Hres; try discriminate Hres.
  destruct (String.eqb t "") eqn:Hnil; cbn in Hres; injection Hres as ->.
  - now apply String.eqb_eq in Hnil.
  - cbn. now apply cache_lookup_fresh.
Qed.

(** Once the entry has expired the same request goes to the endpoint again. *)
Lemma chat_completion_after_expiry now now' later later' messages kwargs st text :
  cache_lookup now (_get_cache_key messages kwargs) (cache st) = None ->
  fst (chat_completion now now' messages false kwargs st) = RStr text ->
  text <> "" ->
  cache_ttl <= later - now' ->
  exists p,
    api_calls (snd (chat_completion later later' messages false kwargs
                      (snd (chat_completion now now' messages false kwargs st))))
    = api_calls (snd (chat_completion now now' messages false kwargs st)) ++ [p].
Proof.
  intros Hmiss Hres Hne Hstale.
  set (st1 := snd (chat_completion now now' messages false kwargs st)).
  assert (Hmiss' : cache_lookup later (_get_cache_key messages kwargs) (cache st1) = None).
  { subst st1. rewrite chat_completion_miss in * by exact Hmiss.
    destruct (_direct_request messages false kwargs st) as [[| t | g] st0];
      cbn in Hres; try discriminate Hres.
    destruct (String.eqb t "") eqn:Hnil; cbn in Hres; injection Hres as ->.
    - now apply String.eqb_eq in Hnil.
    - cbn. now apply cache_lookup_stale. }
  eexists. rewrite chat_completion_miss by exact Hmiss'.
  pose proof (direct_request_call messages kwargs st1) as Hcall.
  destruct (_direct_request messages false kwargs st1) as [[| t | g] st2];
    cbn in Hcall |- *; try exact Hcall.
  destruct (String.eqb t ""); exact Hcall.
Qed.

(** A look-up that finds nothing fresh finds nothing fresh later on. *)
Lemma cache_lookup_later now later k c :
  cache_lookup now k c = None -> now <= later -> cache_lookup later k c = None.
Proof.
  unfold cache_lookup. destruct (c !! k) as [e|]; [|reflexivity].
  destruct (now - entry_timestamp e <? cache_ttl) eqn:H; [discriminate|].
  intros _ Hle. apply Z.ltb_ge in H.
  destruct (later - entry_timestamp e <? cache_ttl) eqn:H'; [|reflexivity].
  apply Z.ltb_lt in H'. lia.
Qed.

(** What [chat_completion] leaves in the cache when its look-up failed. *)
Lemma chat_completion_stores now now' messages kwargs st v :
  cache_lookup now (_get_cache_key messages kwargs) (cache st) = None ->
  fst (chat_completion now now' messages false kwargs st) = RStr v ->
  cache (snd (chat_completion now now' messages false kwargs st))
  = if String.eqb v "" then cache st
    else cache_store now' (_get_cache_key messages kwargs) v (cache st).
Proof.
  intros Hmiss Hres. rewrite chat_completion_miss in * by exact Hmiss.
  unfold _direct_request in *.
  destruct (create_completion _ _) as [err | choices]; cbn in Hres; [discriminate|].
  destruct (String.eqb (completion_text choices) "") eqn:Hnil;
    cbn in Hres; injection Hres as <-; now rewrite Hnil.
Qed.

(** C4 (as amended). [chat_completion] is the only code that stores and looks
    up.  When its look-up failed and the endpoint gave it a text [v] that is
    not empty, it stores [v] under the key of the request with the time of the
    store.  While less than [cache_ttl] (300 time units) have passed since
    then, the look-up of that key returns [v], and the same request is
    answered with [v] without a call to the endpoint.  From then on the
    look-up misses, although the entry is still in the map, and the request
    goes to the endpoint again.  An empty text is not stored: the cache is
    left as it was, and the look-up keeps missing. *)
Theorem cache_round_trip now now' later later' messages kwargs st v :
  cache_lookup now (_get_cache_key messages kwargs) (cache st) = None ->
  fst (chat_completion now now' messages false kwargs st) = RStr v ->
  cache_ttl = 300
  /\ (v <> "" ->
      cache (snd (chat_completion now now' messages false kwargs st))
      = cache_store now' (_get_cache_key messages kwargs) v (cache st)
      /\ (later - now' < cache_ttl ->
          cache_lookup later (_get_cache_key messages kwargs)
            (cache (snd (chat_completion now now' messages false kwargs st)))
          = Some v
          /\ chat_completion later later' messages false kwargs
               (snd (chat_completion now now' messages false kwargs st))
             = (RStr v,
                syslog LOG_DEBUG "使用缓存响应"
                  (snd (chat_completion now now' messages false kwargs st))))
      /\ (cache_ttl <= later - now' ->
          cache_lookup later (_get_cache_key messages kwargs)
            (cache (snd (chat_completion now now' messages false kwargs st)))
          = None
          /\ cache (snd (chat_completion now now' messages false kwargs st))
               !! _get_cache_key messages kwargs
             = Some {| entry_response := v; entry_timestamp := now' |}
          /\ api_calls
               (snd (chat_completion later later' messages false kwargs
                       (snd (chat_completion now now' messages false kwargs st))))
             = api_calls (snd (chat_completion now now' messages false kwargs st))
                 ++ [{| param_model := "qwen-turbo"; param_messages := messages;
                        param_stream := false;
                        param_temperature := dict_get kwargs "temperature" (JFloat "0.9");
                        param_max_tokens := dict_get kwargs "max_tokens" (JInt 1500) |}]))
  /\ (v = "" ->
      cache (snd (chat_completion now now' messages false kwargs st)) = cache st
      /\ (now <= later ->
          cache_lookup later (_get_cache_key messages kwargs)
            (cache (snd (chat_completion now now' messages false kwargs st)))
          = None)).
Proof.
  intros Hmiss Hres. pose proof (chat_completion_stores _ _ _ _ _ _ Hmiss Hres) as Hcache.
  split; [reflexivity|]. split.
  - intros Hne. apply String.eqb_neq in Hne. rewrite Hne in Hcache.
    split; [exact Hcache|]. split.
    + intros Hfresh.
      assert (Hhit : cache_lookup later (_get_cache_key messages kwargs)
                       (cache (snd (chat_completion now now' messages false kwargs st)))
                     = Some v).
      { rewrite Hcache. now apply cache_lookup_fresh. }
      split; [exact Hhit | now apply chat_completion_hit].
    + intros Hstale.
      assert (Hmiss' : cache_lookup later (_get_cache_key messages kwargs)
                         (cache (snd (chat_completion now now' messages false kwargs st)))
                       = None).
      { rewrite Hcache. now apply cache_lookup_stale. }
      split; [exact Hmiss'|]. split.
      * rewrite Hcache. unfold cache_store. apply lookup_insert_eq.
      * rewrite chat_completion_miss by exact Hmiss'.
        pose proof (direct_request_call messages kwargs
                      (snd (chat_completion now now' messages false kwargs st))) as Hcall.
        destruct (_direct_request messages false kwargs _) as [[| t | g] st2];
          cbn in Hcall |- *; try exact Hcall.
        destruct (String.eqb t ""); exact Hcall.
  - intros ->. cbn [String.eqb] in Hcache. split; [exact Hcache|].
    intros Hclock. rewrite Hcache. now apply (cache_lookup_later now).
Qed.

(** *** The streaming path ([_stream_response]) *)

(** What one run of the loop does: it yields the text of a chunk that lies
    ahead and suspends before the chunks after it, or it finishes; it calls
    nothing and leaves the cache alone. *)
Lemma stream_loop_spec events st :
  api_calls (snd (stream_loop events st)) = api_calls st
  /\ cache (snd (stream_loop events st)) = cache st
  /\ match fst (stream_loop events st) with
     | (Some fragment, g) =>
         exists skipped chunk rest,
           events = skipped ++ ChunkEvent chunk :: rest
           /\ chunk_text chunk = Some fragment
           /\ Forall (fun ev => exists c, ev = ChunkEvent c /\ chunk_text c = None) skipped
           /\ g = GenSuspended rest
     | (None, g) =>
         g = GenFinished
         /\ omap chunk_text (chunks_before_error events) = []
     end.
Proof.
  induction events as [|[chunk|err] rest IH]; cbn [stream_loop].
  - now cbn.
  - destruct chunk as [[|[[content|]] others]]; cbn [chunk_choices delta_content].
    + destruct IH as (Hc & Hk & IH). split; [exact Hc|]. split; [exact Hk|].
      destruct (stream_loop rest st) as [[[f|] g] st']; cbn in IH |- *.
      * destruct IH as (skipped & c & r & -> & Ht & Hall & ->).
        exists (ChunkEvent {| chunk_choices := [] |} :: skipped), c, r.
        repeat split; auto. constructor; eauto.
      * exact IH.
    + destruct (String.eqb content "") eqn:Hnil.
      * destruct IH as (Hc & Hk & IH). split; [exact Hc|]. split; [exact Hk|].
        destruct (stream_loop rest st) as [[[f|] g] st']; cbn in IH |- *.
        -- destruct IH as (skipped & c & r & -> & Ht & Hall & ->).
           eexists (ChunkEvent _ :: skipped), c, r.
           repeat split; auto. constructor; auto.
           eexists. split; [reflexivity|]. cbn. now rewrite Hnil.
        -- unfold chunk_text at 1. cbn. rewrite Hnil. exact IH.
      * cbn. repeat split.
        exists [], {| chunk_choices := {| delta_content := Some content |} :: others |}, rest.
        repeat split; auto. unfold chunk_text. cbn. now rewrite Hnil.
    + destruct IH as (Hc & Hk & IH). split; [exact Hc|]. split; [exact Hk|].
      destruct (stream_loop rest st) as [[[f|] g] st']; cbn in IH |- *.
      * destruct IH as (skipped & c & r & -> & Ht & Hall & ->).
        eexists (ChunkEvent _ :: skipped), c, r.
        repeat split; auto. constructor; eauto.
      * exact IH.
  - now cbn.
Qed.

Lemma fragments_after_skipped skipped chunk rest fragment :
  Forall (fun ev => exists c, ev = ChunkEvent c /\ chunk_text c = None) skipped ->
  chunk_text chunk = Some fragment ->
  omap chunk_text (chunks_before_error (skipped ++ ChunkEvent chunk :: rest))
  = fragment :: omap chunk_text (chunks_before_error rest).
Proof.
  intros Hall Ht. induction Hall as [|ev skipped (c & -> & Hc) _ IH]; cbn.
  - now rewrite Ht.
  - now rewrite Hc.
Qed.

(** A generator past its first [next]: the fragments it goes on to yield are
    the texts of the chunks ahead, in order, and it calls nothing. *)
Lemma gen_take_suspended n : forall events st,
  api_calls (snd (gen_take n (GenSuspended events) st)) = api_calls st
  /\ cache (snd (gen_take n (GenSuspended events) st)) = cache st
  /\ (exists more,
        omap chunk_text (chunks_before_error events)
        = fst (fst (gen_take n (GenSuspended events) st)) ++ more)
  /\ ((length events < n)%nat ->
      fst (gen_take n (GenSuspended events) st)
      = (omap chunk_text (chunks_before_error events), GenFinished)).
Proof.
  induction n as [|n IH]; intros events st.
  - cbn. repeat split; eauto. lia.
  - cbn [gen_take gen_next].
    destruct (stream_loop_spec events st) as (Hc & Hk & Hres).
    destruct (stream_loop events st) as [[[f|] g] st1]; cbn in Hc, Hk, Hres.
    + destruct Hres as (skipped & chunk & rest & -> & Ht & Hall & ->).
      destruct (IH rest st1) as (Hc' & Hk' & (more & Hmore) & Hfull).
      rewrite (fragments_after_skipped skipped chunk rest f Hall Ht).
      destruct (gen_take n (GenSuspended rest) st1) as [[fs g'] st2].
      cbn in *. repeat split; try congruence.
      * exists more. now rewrite Hmore.
      * intros Hlen. rewrite length_app in Hlen. cbn in Hlen.
        assert (Hr : (length rest < n)%nat) by lia.
        specialize (Hfull Hr). now injection Hfull as -> ->.
    + destruct Hres as (-> & ->). cbn. repeat split; eauto.
Qed.

(** C9. The fragments drawn from the generator of a streaming call are texts
    of chunks of the remote stream, in order and none of them empty: a chunk
    without choices, without content or with an empty content yields nothing.
    The endpoint is called when the first fragment is asked for and never
    again; returning the generator calls nothing and leaves the cache alone. *)
Theorem stream_yields_text_only now now' messages kwargs n st :
  exists params,
    chat_completion now now' messages true kwargs st
    = (RGenerator (_stream_response params), st)
    /\ param_stream params = true
    /\ Forall (fun fragment => fragment <> "")
         (fst (fst (gen_take n (_stream_response params) st)))
    /\ cache (snd (gen_take n (_stream_response params) st)) = cache st
    /\ api_calls (snd (gen_take n (_stream_response params) st))
       = match n with
         | O => api_calls st
         | S _ => api_calls st ++ [params]
         end
    /\ (forall events,
          create_stream (api_calls st) params = Opens events ->
          (exists more,
              omap chunk_text (chunks_before_error events)
              = fst (fst (gen_take n (_stream_response params) st)) ++ more)
          /\ ((length events < n)%nat ->
              fst (gen_take n (_stream_response params) st)
              = (omap chunk_text (chunks_before_error events), GenFinished)))
    /\ (forall err,
          create_stream (api_calls st) params = OpenRaises err ->
          fst (fst (gen_take n (_stream_response params) st)) = []).
Proof.
  eexists. split; [reflexivity|]. split; [reflexivity|].
  set (params := {| param_model := _ |}). unfold _stream_response.
  assert (Hnonempty : forall l : list Chunk,
             Forall (fun fragment => fragment <> "") (omap chunk_text l)).
  { induction l as [|c l IHl]; cbn; [constructor|].
    destruct (chunk_text c) as [t|] eqn:Ht; [|exact IHl].
    constructor; [|exact IHl]. unfold chunk_text in Ht.
    destruct (chunk_choices c) as [|[[content|]] ?]; try discriminate Ht.
    cbn in Ht. destruct (String.eqb content "") eqn:Hnil; [discriminate Ht|].
    injection Ht as <-. now apply String.eqb_neq in Hnil. }
  destruct n as [|n]; [cbn; repeat split; eauto; try constructor; lia|].
  destruct (create_stream (api_calls st) params) as [err|events] eqn:Hopen.
  - cbn [gen_take gen_next]. rewrite Hopen. cbn.
    repeat split; try constructor; try discriminate; eauto.
  - assert (Hstep : gen_take (S n) (GenCreated params) st
                    = gen_take (S n) (GenSuspended events) (record_call params st)).
    { cbn [gen_take gen_next]. now rewrite Hopen. }
    rewrite Hstep.
    destruct (gen_take_suspended (S n) events (record_call params st))
      as (Hc & Hk & (more & Hmore) & Hfull).
    split; [|split; [exact Hk|split; [exact Hc|split; [|discriminate]]]].
    + specialize (Hnonempty (chunks_before_error events)). rewrite Hmore in Hnonempty.
      now apply Forall_app in Hnonempty.
    + intros events' Heq. injection Heq as <-. split; [now exists more|exact Hfull].
Qed.

Lemma stream_loop_journal : forall events st,
  match stream_loop events st with
  | (Some _, g, st') =>
      st' = st
      /\ exists rest, g = GenSuspended rest
         /\ (length rest < length events)%nat
         /\ stream_error rest = stream_error events
  | (None, _, st') =>
      cache st' = cache st /\ api_calls st' = api_calls st
      /\ journal st' = journal st ++ stream_error_lines (stream_error events)
  end.
Proof.
  induction events as [|[chunk | e] rest IH]; intros st; cbn [stream_loop stream_error].
  - cbn. now rewrite app_nil_r.
  - assert (Hskip :
      match stream_loop rest st with
      | (Some _, g, st') =>
          st' = st
          /\ exists rest', g = GenSuspended rest'
             /\ (length rest' < length (ChunkEvent chunk :: rest))%nat
             /\ stream_error rest' = stream_error rest
      | (None, _, st') =>
          cache st' = cache st /\ api_calls st' = api_calls st
          /\ journal st' = journal st ++ stream_error_lines (stream_error rest)
      end).
    { specialize (IH st). destruct (stream_loop rest st) as [[[fragment|] g] st']; [|exact IH].
      destruct IH as (-> & rest' & -> & Hlen & Herr). split; [reflexivity|].
      exists rest'. cbn [length]. repeat split; auto; lia. }
    destruct (chunk_choices chunk) as [|delta ?]; [exact Hskip|].
    destruct (delta_content delta) as [content|]; [|exact Hskip].
    destruct (String.eqb content ""); [exact Hskip|].
    split; [reflexivity|]. exists rest. cbn [length]. repeat split; lia.
  - cbn. repeat split.
Qed.

Lemma gen_take_suspended_journal n : forall events st,
  (length events < n)%nat ->
  journal (snd (gen_take n (GenSuspended events) st))
  = journal st ++ stream_error_lines (stream_error events).
Proof.
  induction n as [|n IH]; intros events st Hlen; [lia|].
  cbn [gen_take gen_next]. pose proof (stream_loop_journal events st) as Hloop.
  destruct (stream_loop events st) as [[[fragment|] g] st'].
  - destruct Hloop as (-> & rest & -> & Hrest & Herr).
    specialize (IH rest st ltac:(lia)).
    destruct (gen_take n (GenSuspended rest) st) as [[more g''] st'']. cbn [snd] in *.
    now rewrite IH, Herr.
  - cbn [snd]. apply Hloop.
Qed.

Lemma gen_take_suspended_lines n : forall events st,
  exists lines,
    journal (snd (gen_take n (GenSuspended events) st)) = journal st ++ lines
    /\ (length lines <= 1)%nat.
Proof.
  induction n as [|n IH]; intros events st.
  - exists []. cbn. rewrite app_nil_r. split; [reflexivity | lia].
  - cbn [gen_take gen_next]. pose proof (stream_loop_journal events st) as Hloop.
    destruct (stream_loop events st) as [[[fragment|] g] st'].
    + destruct Hloop as (-> & rest & -> & _).
      destruct (IH rest st) as (lines & Hlines & Hlen).
      destruct (gen_take n (GenSuspended rest) st) as [[more g''] st''].
      now exists lines.
    + destruct Hloop as (_ & _ & Hlines). exists (stream_error_lines (stream_error events)).
      split; [exact Hlines|]. destruct (stream_error events); cbn; lia.
Qed.

Lemma gen_take_opened n params st events :
  create_stream (api_calls st) params = Opens events ->
  gen_take (S n) (_stream_response params) st
  = gen_take (S n) (GenSuspended events) (record_call params st).
Proof. intros Hopen. unfold _stream_response. cbn [gen_take gen_next]. now rewrite Hopen. Qed.

Lemma chunks_before_error_cut chunks :
  chunks_before_error (map ChunkEvent chunks) = chunks.
Proof. induction chunks as [|c l IH]; cbn; [reflexivity | now rewrite IH]. Qed.

Lemma chunks_before_error_length events :
  (length (chunks_before_error events) <= length events)%nat.
Proof. induction events as [|[c|e] l IH]; cbn; lia. Qed.

(** C1 (as amended). When the call to the endpoint raises, the gateway writes
    the error text to the log and returns none of it.  Without [stream],
    [chat_completion] returns [None] and caches nothing; a call that produced
    no content returns the empty text, which is another value, so the
    gateway's entry point tells the two apart.  With [stream], the failure
    ends the sequence of fragments as its exhaustion does: when the stream
    cannot be opened the generator yields what an empty stream yields, and
    when it fails on the way the generator yields what the stream cut before
    its failure yields. *)
Theorem gateway_failure_reported now now' messages kwargs st :
  (cache_lookup now (_get_cache_key messages kwargs) (cache st) = None ->
   (forall err,
       create_completion (api_calls st) (direct_params messages false kwargs) = Raises err ->
       chat_completion now now' messages false kwargs st
       = (RNone,
          {| cache := cache st;
             api_calls := api_calls st ++ [direct_params messages false kwargs];
             journal := journal st ++ [(LOG_ERR, "千问请求失败: " +:+ err)] |}))
   /\ (forall choices,
         create_completion (api_calls st) (direct_params messages false kwargs)
         = Completes choices ->
         completion_text choices = "" ->
         fst (chat_completion now now' messages false kwargs st) = RStr ""))
  /\ RNone <> RStr ""
  /\ chat_completion now now' messages true kwargs st
     = (RGenerator (_stream_response (direct_params messages true kwargs)), st)
  /\ (forall n err,
        create_stream (api_calls st) (direct_params messages true kwargs) = OpenRaises err ->
        gen_take (S n) (_stream_response (direct_params messages true kwargs)) st
        = ([], GenFinished,
           {| cache := cache st;
              api_calls := api_calls st ++ [direct_params messages true kwargs];
              journal := journal st ++ [(LOG_ERR, "流式响应错误: " +:+ err)] |})
        /\ forall st', fst (gen_take (S n) (GenSuspended []) st') = ([], GenFinished))
  /\ (forall n events,
        create_stream (api_calls st) (direct_params messages true kwargs) = Opens events ->
        (length events < n)%nat ->
        fst (gen_take n (_stream_response (direct_params messages true kwargs)) st)
        = (omap chunk_text (chunks_before_error events), GenFinished)
        /\ journal (snd (gen_take n (_stream_response (direct_params messages true kwargs)) st))
           = journal st ++ stream_error_lines (stream_error events)
        /\ forall st',
            fst (gen_take n (GenSuspended events) st')
            = fst (gen_take n (GenSuspended (map ChunkEvent (chunks_before_error events))) st')).
Proof.
  split; [|split; [discriminate|split; [reflexivity|split]]].
  - intros Hmiss. split.
    + intros err Hcall. rewrite chat_completion_miss by exact Hmiss.
      unfold _direct_request. fold (direct_params messages false kwargs).
      now rewrite Hcall.
    + intros choices Hcall Hempty. rewrite chat_completion_miss by exact Hmiss.
      unfold _direct_request. fold (direct_params messages false kwargs).
      now rewrite Hcall, Hempty.
  - intros n err Hopen. split; [|reflexivity].
    unfold _stream_response. cbn [gen_take gen_next]. now rewrite Hopen.
  - intros n events Hopen Hn. destruct n as [|n]; [lia|].
    rewrite (gen_take_opened n _ st events Hopen). split; [|split].
    + destruct (gen_take_suspended (S n) events
                  (record_call (direct_params messages true kwargs) st))
        as (_ & _ & _ & Hend).
      exact (Hend Hn).
    + apply (gen_take_suspended_journal (S n) events
               (record_call (direct_params messages true kwargs) st) Hn).
    + intros st'.
      destruct (gen_take_suspended (S n) events st') as (_ & _ & _ & Hend).
      destruct (gen_take_suspended (S n)
                  (map ChunkEvent (chunks_before_error events)) st')
        as (_ & _ & _ & Hcut).
      rewrite (Hend Hn), Hcut, chunks_before_error_cut; [reflexivity|].
      rewrite length_map. pose proof (chunks_before_error_length events). lia.
Qed.

(** *** The cache key ([_get_cache_key]) *)

Lemma json_dumps_object ea sk d :
  json_dumps ea sk (JObject d)
  = "{" +:+ join ", " (map (render_item ea)
                         (if sk then merge_sort item_le (dumped_items ea sk d)
                          else dumped_items ea sk d)) +:+ "}".
Proof. reflexivity. Qed.

Lemma json_dumps_list ea sk l :
  json_dumps ea sk (JList l) = "[" +:+ join ", " (list_texts ea sk (JList l)) +:+ "]".
Proof. reflexivity. Qed.

Global Instance item_le_transitive : Transitive item_le.
Proof. intros a b c. unfold item_le. apply transitivity. Qed.

Global Instance item_le_total : Total item_le.
Proof. intros a b. unfold item_le. apply total, _. Qed.

Lemma item_of_key {B} (l : list (string * B)) x y :
  NoDup (map fst l) -> x ∈ l -> y ∈ l -> fst x = fst y -> x = y.
Proof.
  induction l as [|z l IH]; intros Hnd Hx Hy Heq.
  - inversion Hx.
  - cbn in Hnd. apply NoDup_cons in Hnd as [Hz Hnd].
    apply elem_of_cons in Hx as [-> | Hx]; apply elem_of_cons in Hy as [-> | Hy]; auto.
    + exfalso. apply Hz. rewrite Heq. now apply (list_elem_of_fmap_2 fst).
    + exfalso. apply Hz. rewrite <- Heq. now apply (list_elem_of_fmap_2 fst).
Qed.

Lemma sorted_items_perm (l1 l2 : list (string * string)) :
  NoDup (map fst l1) -> l1 ≡ₚ l2 -> merge_sort item_le l1 = merge_sort item_le l2.
Proof.
  intros Hnd Hperm.
  apply (StronglySorted_unique_strong item_le).
  - intros x1 x2 H1 H2 H12 H21.
    rewrite merge_sort_Permutation in H1. rewrite merge_sort_Permutation, <- Hperm in H2.
    apply (item_of_key l1); auto. unfold item_le in *.
    now apply (anti_symm String.le).
  - apply StronglySorted_merge_sort; apply _.
  - apply StronglySorted_merge_sort; apply _.
  - now rewrite !merge_sort_Permutation.
Qed.

Lemma wf_json_object d :
  wf_json (JObject d) = true
  <-> NoDup (map fst d) /\ Forall (fun kv => wf_json (snd kv) = true) d.
Proof.
  cbn [wf_json]. rewrite andb_true_iff, bool_decide_eq_true, forallb_forall, Forall_forall.
  split; intros [H1 H2]; split; auto; intros x Hx; apply H2; now apply list_elem_of_In.
Qed.

Lemma wf_json_list l :
  wf_json (JList l) = true <-> Forall (fun v => wf_json v = true) l.
Proof.
  cbn [wf_json]. rewrite forallb_forall, Forall_forall.
  split; intros H x Hx; apply H; now apply list_elem_of_In.
Qed.

Lemma dumped_items_keys ea sk d : map fst (dumped_items ea sk d) = map fst d.
Proof. unfold dumped_items. rewrite map_map. reflexivity. Qed.

Lemma same_fields_dumps ea u v :
  same_fields u v ->
  wf_json u = true ->
  wf_json v = true
  /\ json_dumps ea true u = json_dumps ea true v
  /\ list_texts ea true u = list_texts ea true v
  /\ object_items ea true u ≡ₚ object_items ea true v.
Proof.
  induction 1 as [v | u v w _ IH1 _ IH2 | x y l l' _ IHx _ IHl
                 | k x y d d' _ IHx _ IHd | d d' Hperm]; intros Hwf.
  - auto.
  - destruct (IH1 Hwf) as (Hv & E1 & L1 & O1).
    destruct (IH2 Hv) as (Hw & E2 & L2 & O2).
    repeat split; try congruence. now rewrite O1.
  - apply wf_json_list in Hwf. apply Forall_cons in Hwf as [Hx Hl].
    apply wf_json_list in Hl.
    destruct (IHx Hx) as (Hy & Ex & _). destruct (IHl Hl) as (Hl' & _ & Ll & _).
    assert (Hlist : list_texts ea true (JList (x :: l)) = list_texts ea true (JList (y :: l'))).
    { cbn in Ll |- *. now rewrite Ex, Ll. }
    repeat split.
    + apply wf_json_list. constructor; [exact Hy | now apply wf_json_list].
    + now rewrite !json_dumps_list, Hlist.
    + exact Hlist.
    + reflexivity.
  - apply wf_json_object in Hwf as [Hnd Hall]. cbn in Hnd.
    apply NoDup_cons in Hnd as [Hk Hnd]. apply Forall_cons in Hall as [Hx Hall].
    cbn in Hx.
    assert (Hd : wf_json (JObject d) = true) by now apply wf_json_object.
    destruct (IHx Hx) as (Hy & Ex & _). destruct (IHd Hd) as (Hd' & _ & _ & Od).
    apply wf_json_object in Hd' as [Hnd' Hall'].
    assert (Hkeys : map fst d ≡ₚ map fst d').
    { rewrite <- (dumped_items_keys ea true d), <- (dumped_items_keys ea true d').
      cbn in Od. now rewrite Od. }
    assert (Hitems : object_items ea true (JObject ((k, x) :: d))
                     ≡ₚ object_items ea true (JObject ((k, y) :: d'))).
    { cbn in Od |- *. rewrite Ex. now constructor. }
    repeat split.
    + apply wf_json_object. split.
      * cbn. apply NoDup_cons. split; [now rewrite <- Hkeys | exact Hnd'].
      * constructor; [exact Hy | exact Hall'].
    + rewrite !json_dumps_object.
      rewrite (sorted_items_perm _ (dumped_items ea true ((k, y) :: d'))); auto.
      rewrite dumped_items_keys. cbn. apply NoDup_cons. now split.
    + exact Hitems.
  - apply wf_json_object in Hwf as [Hnd Hall].
    assert (Hitems : object_items ea true (JObject d) ≡ₚ object_items ea true (JObject d')).
    { cbn. unfold dumped_items. now apply Permutation_map. }
    repeat split.
    + apply wf_json_object. split; [now rewrite <- Hperm | now rewrite <- Hperm].
    + rewrite !json_dumps_object.
      rewrite (sorted_items_perm _ (dumped_items ea true d')); auto.
      now rewrite dumped_items_keys.
    + exact Hitems.
Qed.

Lemma dict_lookup_elem key d v :
  NoDup (map fst d) -> (dict_lookup key d = Some v <-> (key, v) ∈ d).
Proof.
  induction d as [|[k x] d IH]; intros Hnd; cbn.
  - split; [discriminate | intros H; inversion H].
  - cbn in Hnd. apply NoDup_cons in Hnd as [Hk Hnd]. rewrite elem_of_cons.
    destruct (String.eqb k key) eqn:E.
    + apply String.eqb_eq in E as ->. split.
      * intros [= ->]. now left.
      * intros [[= ->] | Hin]; [reflexivity|].
        exfalso. apply Hk. now apply (list_elem_of_fmap_2 fst _ (key, v)).
    + apply String.eqb_neq in E. rewrite (IH Hnd). split; [now right|].
      intros [[= -> ->] | Hin]; [congruence | exact Hin].
Qed.

Lemma dict_lookup_none key d : dict_lookup key d = None <-> key ∉ map fst d.
Proof.
  induction d as [|[k x] d IH]; cbn.
  - split; [intros _ H; inversion H | reflexivity].
  - rewrite not_elem_of_cons. destruct (String.eqb k key) eqn:E.
    + apply String.eqb_eq in E as ->. split; [discriminate | now intros [? _]].
    + apply String.eqb_neq in E. rewrite IH. split; [now split | now intros [_ ?]].
Qed.

Lemma dict_lookup_perm key d d' :
  NoDup (map fst d) -> d ≡ₚ d' -> dict_lookup key d = dict_lookup key d'.
Proof.
  intros Hnd Hperm.
  assert (Hnd' : NoDup (map fst d')) by now rewrite <- Hperm.
  destruct (dict_lookup key d) as [v|] eqn:E; symmetry.
  - apply dict_lookup_elem; [exact Hnd'|]. rewrite <- Hperm. now apply dict_lookup_elem.
  - apply dict_lookup_none. rewrite <- Hperm. now apply dict_lookup_none.
Qed.

Lemma dict_lookup_wf key d v :
  wf_json (JObject d) = true -> dict_lookup key d = Some v -> wf_json v = true.
Proof.
  intros Hwf Hv. apply wf_json_object in Hwf as [Hnd Hall].
  apply dict_lookup_elem in Hv; [|exact Hnd].
  rewrite Forall_forall in Hall. exact (Hall _ Hv).
Qed.

(** Values that differ in the order of their fields have, under every key,
    fields that differ in the order of theirs. *)
Lemma same_fields_lookup u v :
  same_fields u v ->
  wf_json u = true ->
  forall key,
    option_Forall2 same_fields (dict_lookup key (object_fields u))
      (dict_lookup key (object_fields v)).
Proof.
  induction 1 as [v | u v w Huv IH1 _ IH2 | x y l l' _ _ _ _
                 | k x y d d' Hxy _ _ IHd | d d' Hperm]; intros Hwf key.
  - destruct (dict_lookup key (object_fields v)); constructor. apply same_refl.
  - pose proof (same_fields_dumps true u v Huv Hwf) as (Hv & _).
    specialize (IH1 Hwf key). specialize (IH2 Hv key).
    destruct IH1 as [a b Hab|]; inversion IH2; subst; constructor.
    now apply (same_trans a b).
  - constructor.
  - cbn. destruct (String.eqb k key); [now constructor|].
    apply wf_json_object in Hwf as [Hnd Hall]. cbn in Hnd.
    apply NoDup_cons in Hnd as [_ Hnd]. apply Forall_cons in Hall as [_ Hall].
    apply IHd. now apply wf_json_object.
  - cbn. apply wf_json_object in Hwf as [Hnd _].
    rewrite (dict_lookup_perm key d d' Hnd Hperm).
    destruct (dict_lookup key d'); constructor. apply same_refl.
Qed.

Lemma same_fields_get d d' key default :
  wf_json (JObject d) = true ->
  same_fields (JObject d) (JObject d') ->
  same_fields (dict_get d key default) (dict_get d' key default).
Proof.
  intros Hwf Hsame. unfold dict_get.
  pose proof (same_fields_lookup _ _ Hsame Hwf key) as H. cbn in H.
  destruct H; [assumption | apply same_refl].
Qed.

(** C5. The cache key is a function of the conversation and the parameters,
    and it does not depend on the order in which the fields of the messages,
    of the parameters or of the request that carries them were supplied. *)
Theorem cache_key_order_independent :
  (forall messages messages' kwargs kwargs',
      wf_json (JObject (("messages", messages) :: kwargs)) = true ->
      same_fields messages messages' ->
      same_fields (JObject kwargs) (JObject kwargs') ->
      _get_cache_key messages kwargs = _get_cache_key messages' kwargs')
  /\ (forall d d',
        wf_json (JObject d) = true ->
        same_fields (JObject d) (JObject d') ->
        chat_key d = chat_key d').
Proof.
  assert (Hkey : forall messages messages' kwargs kwargs',
             wf_json (JObject (("messages", messages) :: kwargs)) = true ->
             same_fields messages messages' ->
             same_fields (JObject kwargs) (JObject kwargs') ->
             _get_cache_key messages kwargs = _get_cache_key messages' kwargs').
  { intros messages messages' kwargs kwargs' Hwf Hm Hk. unfold _get_cache_key. f_equal.
    apply (same_fields_dumps true _ _ (same_object_cons "messages" _ _ _ _ Hm Hk) Hwf). }
  split; [exact Hkey|].
  intros d d' Hwf Hsame. unfold chat_key. apply Hkey.
  - apply wf_json_object. split.
    + cbn [map fst]. apply (bool_decide_unpack _). reflexivity.
    + assert (Hdef : forall key default,
                 wf_json default = true -> wf_json (dict_get d key default) = true).
      { intros key default Hd. unfold dict_get.
        destruct (dict_lookup key d) eqn:E; [|exact Hd].
        exact (dict_lookup_wf key d _ Hwf E). }
      repeat constructor; cbn [snd]; now apply Hdef.
  - now apply same_fields_get.
  - apply same_object_cons; [now apply same_fields_get|].
    apply same_object_cons; [now apply same_fields_get|apply same_refl].
Qed.

(** *** The wire codec ([handle_client], [send_request]) *)

(** *** Text *)

Lemma string_app_cons c s t : String c s +:+ t = String c (s +:+ t).
Proof. reflexivity. Qed.

Lemma string_app_nil_l s : "" +:+ s = s.
Proof. reflexivity. Qed.

Lemma string_app_nil_r s : s +:+ "" = s.
Proof. induction s as [|c s IH]; [reflexivity|]. now rewrite string_app_cons, IH. Qed.

Lemma string_app_assoc s t u : (s +:+ t) +:+ u = s +:+ (t +:+ u).
Proof. induction s as [|c s IH]; [reflexivity|]. now rewrite !string_app_cons, IH. Qed.

Lemma string_length_app s t : String.length (s +:+ t) = (String.length s + String.length t)%nat.
Proof. induction s as [|c s IH]; [reflexivity|]. rewrite string_app_cons. cbn. now rewrite IH. Qed.

Lemma string_length_zero s : String.length s = O -> s = "".
Proof. now destruct s. Qed.

Lemma startswith_split p : forall s, startswith p s = true -> exists r, s = p +:+ r.
Proof.
  induction p as [|a p IH]; intros s H; cbn in H.
  - now exists s.
  - destruct s as [|b s]; [discriminate H|].
    apply andb_true_iff in H as [Hab Hp]. apply Ascii.eqb_eq in Hab as <-.
    destruct (IH s Hp) as [r ->]. now exists r.
Qed.

Lemma startswith_app p : forall s t, startswith p s = true -> startswith p (s +:+ t) = true.
Proof.
  induction p as [|a p IH]; intros s t H; [reflexivity|].
  destruct s as [|b s]; [discriminate H|]. rewrite string_app_cons. cbn in H |- *.
  apply andb_true_iff in H as [-> Hp]. now rewrite IH.
Qed.

(** The prefix test sees only as many characters as the prefix has. *)
Lemma startswith_within p : forall s t,
  (String.length p <= String.length s)%nat ->
  startswith p (s +:+ t) = startswith p s.
Proof.
  induction p as [|a p IH]; intros s t Hlen; [reflexivity|].
  destruct s as [|b s]; [cbn in Hlen; lia|]. rewrite string_app_cons. cbn in Hlen |- *.
  rewrite IH by lia. reflexivity.
Qed.

(** A prefix that runs over the end of [s] has [s] as a prefix. *)
Lemma startswith_over p : forall s t,
  startswith p (s +:+ t) = true ->
  startswith p s = true \/ exists p2, p = s +:+ p2.
Proof.
  induction p as [|a p IH]; intros s t H; [now left|].
  destruct s as [|b s]; [right; now exists (String a p)|].
  rewrite string_app_cons in H. cbn in H |- *. apply andb_true_iff in H as [Hab Hp].
  rewrite Hab. apply Ascii.eqb_eq in Hab as <-.
  destruct (IH s t Hp) as [-> | [p2 ->]]; [now left|right; now exists p2].
Qed.

Lemma contains_length old : forall s,
  contains old s = true -> (String.length old <= String.length s)%nat.
Proof.
  induction s as [|c s IH]; intros H.
  - cbn in H. destruct old; [cbn; lia|discriminate H].
  - cbn [contains] in H. apply orb_true_iff in H as [H | H].
    + apply startswith_split in H as [r ->]. rewrite string_length_app. lia.
    + specialize (IH H). cbn. lia.
Qed.

Lemma contains_cons old c s :
  contains old (String c s) = startswith old (String c s) || contains old s.
Proof. reflexivity. Qed.

Lemma contains_app_r old : forall s, contains old (s +:+ old) = true.
Proof.
  assert (Hself : forall p, startswith p p = true).
  { induction p as [|a p IH]; [reflexivity|]. cbn. now rewrite Ascii.eqb_refl. }
  induction s as [|c s IH].
  - rewrite string_app_nil_l. destruct old; cbn; [reflexivity|].
    now rewrite Ascii.eqb_refl, Hself.
  - rewrite string_app_cons, contains_cons, IH. apply orb_true_r.
Qed.

Lemma all_chars_app p s t : all_chars p (s +:+ t) = all_chars p s && all_chars p t.
Proof.
  induction s as [|c s IH]; [reflexivity|]. rewrite string_app_cons. cbn.
  now rewrite IH, andb_assoc.
Qed.

Lemma ends_with_closer_snoc s c : ends_with_closer (s +:+ String c "") = is_closer c.
Proof.
  induction s as [|b s IH]; [reflexivity|]. rewrite string_app_cons.
  destruct s as [|b' s]; [reflexivity|]. exact IH.
Qed.

Lemma ends_with_closer_none s :
  all_chars (fun c => negb (is_closer c)) s = true -> ends_with_closer s = false.
Proof.
  induction s as [|c s IH]; intros H; [reflexivity|]. cbn in H.
  apply andb_true_iff in H as [Hc Hs]. destruct s as [|b s].
  - cbn. now apply negb_true_iff.
  - exact (IH Hs).
Qed.

(** *** The terminator *)

Lemma strip_END_nil : strip_END "" = "".
Proof. reflexivity. Qed.

Lemma strip_END_skip r : strip_END (END +:+ r) = strip_END r.
Proof. reflexivity. Qed.

Lemma strip_END_keep c s :
  startswith END (String c s) = false -> strip_END (String c s) = String c (strip_END s).
Proof. intros H. unfold strip_END, py_replace. cbn [replace_from]. now rewrite H. Qed.

Lemma strip_END_clean s : no_start s = true -> strip_END (s +:+ END) = s.
Proof.
  induction s as [|c s IH]; intros H; [reflexivity|].
  cbn [no_start] in H. apply andb_true_iff in H as [Hc Hs].
  apply negb_true_iff in Hc. rewrite string_app_cons in Hc |- *.
  rewrite strip_END_keep by exact Hc. now rewrite IH.
Qed.

(** In a clean text followed by the terminator, the terminator is seen only
    once all of it has arrived. *)
Lemma contains_END_whole : forall s p r,
  no_start s = true -> p +:+ r = s +:+ END -> contains END p = true -> r = "".
Proof.
  induction s as [|c s IH]; intros p r Hs Heq Hp.
  - apply contains_length in Hp. apply (f_equal String.length) in Heq.
    rewrite string_length_app in Heq. change (String.length ("" +:+ END)) with 7%nat in Heq.
    change (String.length END) with 7%nat in Hp. apply string_length_zero. lia.
  - destruct p as [|c' p]; [discriminate Hp|].
    rewrite !string_app_cons in Heq. injection Heq as -> Heq.
    cbn [no_start] in Hs. apply andb_true_iff in Hs as [Hc Hs].
    apply negb_true_iff in Hc.
    rewrite contains_cons in Hp. apply orb_true_iff in Hp as [Hp | Hp].
    + apply (startswith_app _ _ r) in Hp. rewrite string_app_cons, Heq, <- string_app_cons in Hp.
      congruence.
    + exact (IH p r Hs Heq Hp).
Qed.

Lemma recv_until_END_clean s : forall chunks data,
  no_start s = true ->
  Forall (fun c => c <> "") chunks ->
  data +:+ concat_chunks chunks = s +:+ END ->
  contains END data = false ->
  recv_until_END chunks data = s +:+ END.
Proof.
  induction chunks as [|chunk rest IH]; intros data Hs Hall Heq Hdata.
  - cbn in Heq. rewrite string_app_nil_r in Heq. subst data.
    now rewrite contains_app_r in Hdata.
  - apply Forall_cons in Hall as [Hchunk Hall]. cbn [recv_until_END concat_chunks] in *.
    apply String.eqb_neq in Hchunk. rewrite Hchunk.
    rewrite <- string_app_assoc in Heq.
    destruct (contains END (data +:+ chunk)) eqn:Hseen.
    + assert (Hrest := contains_END_whole s _ _ Hs Heq Hseen).
      rewrite Hrest, string_app_nil_r in Heq. exact Heq.
    + now apply IH.
Qed.

Lemma all_chars_impl (p q : ascii -> bool) s :
  (forall c, p c = true -> q c = true) -> all_chars p s = true -> all_chars q s = true.
Proof.
  intros Hpq. induction s as [|c s IH]; [reflexivity|]. cbn.
  intros H. apply andb_true_iff in H as [Hc Hs]. now rewrite (Hpq c Hc), IH.
Qed.

(** A non-empty prefix of the terminator begins with an underscore and does
    not end with a closing character. *)
Lemma prefix_of_END_boundary t p2 :
  t <> "" -> END = t +:+ p2 -> boundary_ok t = false.
Proof.
  intros Hne Heq. unfold boundary_ok. apply orb_false_iff. split.
  - destruct t as [|c t]; [congruence|]. rewrite string_app_cons in Heq.
    injection Heq as <- _. reflexivity.
  - apply ends_with_closer_none.
    assert (H : all_chars (fun c => negb (is_closer c)) END = true) by reflexivity.
    rewrite Heq, all_chars_app in H. now apply andb_true_iff in H as [H _].
Qed.

Lemma boundary_ok_tail c s : s <> "" -> boundary_ok (String c s) = true -> boundary_ok s = true.
Proof.
  intros Hne. unfold boundary_ok. cbn [all_chars]. intros H.
  apply orb_true_iff in H as [H | H]; apply orb_true_iff.
  - left. now apply andb_true_iff in H as [_ H].
  - right. destruct s; [congruence | exact H].
Qed.

Lemma no_start_of_boundary s :
  contains END s = false -> boundary_ok s = true -> no_start s = true.
Proof.
  induction s as [|c s IH]; intros Hc Hb; [reflexivity|].
  rewrite contains_cons in Hc. apply orb_false_iff in Hc as [Hhead Htail].
  cbn [no_start]. apply andb_true_iff. split.
  - apply negb_true_iff. destruct (startswith END (String c s +:+ END)) eqn:Hover; [|reflexivity].
    apply startswith_over in Hover as [Hin | [p2 Hp2]]; [congruence|].
    rewrite (prefix_of_END_boundary (String c s) p2) in Hb; [discriminate Hb | discriminate | exact Hp2].
  - destruct s as [|c' s]; [reflexivity|].
    apply IH; [exact Htail|]. apply (boundary_ok_tail c); [discriminate | exact Hb].
Qed.

(** *** Texts written by [json_dumps] *)

Lemma uint_no_underscore d : all_chars not_underscore (NilEmpty.string_of_uint d) = true.
Proof. induction d; cbn; auto. Qed.

Lemma int_repr_no_underscore n : all_chars not_underscore (int_repr n) = true.
Proof.
  unfold int_repr. destruct (Z.to_int n) as [d|d]; cbn [NilZero.string_of_int].
  - destruct d; try apply uint_no_underscore. reflexivity.
  - cbn [all_chars]. destruct d; try apply uint_no_underscore. reflexivity.
Qed.

Lemma float_text_no_underscore r : float_text r = true -> all_chars not_underscore r = true.
Proof.
  unfold float_text. intros H.
  repeat (apply orb_true_iff in H as [H | H]);
    try (apply String.eqb_eq in H; subst r; reflexivity).
  apply andb_true_iff in H as [_ H]. revert H. apply all_chars_impl.
  intros c Hc. unfold not_underscore. destruct (Ascii.eqb c "_") eqn:E; [|reflexivity].
  apply Ascii.eqb_eq in E. subst c. discriminate Hc.
Qed.

Lemma boundary_ok_closed a s c : is_closer c = true -> boundary_ok (String a (s +:+ String c "")) = true.
Proof.
  intros Hc. unfold boundary_ok. apply orb_true_iff. right.
  rewrite <- string_app_cons, ends_with_closer_snoc. exact Hc.
Qed.

Lemma json_dumps_boundary ea sk v :
  wf_json v = true -> boundary_ok (json_dumps ea sk v) = true.
Proof.
  destruct v as [|[]|n|r|s|l|d]; intros Hwf; try reflexivity.
  - cbn [json_dumps]. unfold boundary_ok. now rewrite int_repr_no_underscore.
  - cbn [json_dumps wf_json] in *. unfold boundary_ok.
    now rewrite float_text_no_underscore.
  - cbn [json_dumps]. unfold encode_basestring. now apply boundary_ok_closed.
  - cbn [json_dumps]. now apply (boundary_ok_closed "[").
  - cbn [json_dumps]. now apply (boundary_ok_closed "{").
Qed.

(** *** What stripping removes *)

Lemma strip_END_cases x :
  (exists r, x = END +:+ r /\ strip_END x = strip_END r)
  \/ x = ""
  \/ (exists c s, x = String c s /\ startswith END x = false
                  /\ strip_END x = String c (strip_END s)).
Proof.
  destruct (startswith END x) eqn:H.
  - left. apply startswith_split in H as [r ->]. exists r. split; [reflexivity|apply strip_END_skip].
  - right. destruct x as [|c s]; [now left|right]. exists c, s.
    repeat split. now apply strip_END_keep.
Qed.

Lemma strip_END_length_le n : forall x,
  (String.length x <= n)%nat -> (String.length (strip_END x) <= String.length x)%nat.
Proof.
  induction n as [|n IH]; intros x Hn.
  - destruct x; [cbn; lia | cbn in Hn; lia].
  - destruct (strip_END_cases x) as [(r & -> & ->) | [-> | (c & s & -> & _ & ->)]].
    + rewrite string_length_app in *. change (String.length END) with 7%nat in *.
      specialize (IH r). lia.
    + cbn. lia.
    + cbn in *. specialize (IH s). lia.
Qed.

(** Where the terminator occurs, stripping shortens the text by at least
    its seven characters. *)
Lemma strip_END_shortens n : forall x,
  (String.length x <= n)%nat ->
  contains END x = true ->
  (String.length (strip_END x) + 7 <= String.length x)%nat.
Proof.
  induction n as [|n IH]; intros x Hn Hc.
  - destruct x; [discriminate Hc | cbn in Hn; lia].
  - destruct (strip_END_cases x) as [(r & -> & ->) | [-> | (c & s & -> & Hhead & ->)]].
    + rewrite string_length_app. change (String.length END) with 7%nat.
      pose proof (strip_END_length_le (String.length r) r). lia.
    + discriminate Hc.
    + rewrite contains_cons, Hhead in Hc. cbn [orb] in Hc.
      cbn [String.length] in *. assert (Hs : (String.length s <= n)%nat) by lia.
      specialize (IH s Hs Hc). lia.
Qed.

(** A text that holds the terminator comes out of its own frame shorter
    than it went in. *)
Lemma strip_END_frame_shortens s :
  contains END s = true ->
  (String.length (strip_END (s +:+ END)) + 7 <= String.length s)%nat.
Proof.
  induction s as [|c s IH]; intros Hc; [discriminate Hc|].
  rewrite contains_cons in Hc. destruct (startswith END (String c s)) eqn:Hhead.
  - apply startswith_split in Hhead as [r Hr]. rewrite Hr, string_app_assoc, strip_END_skip.
    rewrite string_length_app. change (String.length END) with 7%nat.
    pose proof (strip_END_shortens _ (r +:+ END) (le_n _) (contains_app_r END r)) as H.
    rewrite string_length_app in H. change (String.length END) with 7%nat in H. lia.
  - cbn in Hc. pose proof (contains_length END s Hc) as Hlen.
    change (String.length END) with 7%nat in Hlen.
    rewrite string_app_cons, strip_END_keep.
    + specialize (IH Hc). cbn [String.length]. lia.
    + rewrite <- string_app_cons, startswith_within; [exact Hhead|].
      change (String.length END) with 7%nat. cbn. lia.
Qed.

(** The loop stops on a prefix of what was sent, and on one that holds the
    terminator if what was sent does. *)
Lemma recv_until_END_prefix : forall chunks data,
  Forall (fun c => c <> "") chunks ->
  contains END (data +:+ concat_chunks chunks) = true ->
  exists rest,
    data +:+ concat_chunks chunks = recv_until_END chunks data +:+ rest
    /\ contains END (recv_until_END chunks data) = true.
Proof.
  induction chunks as [|chunk rest IH]; intros data Hall Hc.
  - cbn in *. rewrite string_app_nil_r in Hc. exists "". now rewrite string_app_nil_r.
  - apply Forall_cons in Hall as [Hchunk Hall]. cbn [recv_until_END concat_chunks] in *.
    apply String.eqb_neq in Hchunk. rewrite Hchunk. rewrite <- string_app_assoc in *.
    destruct (contains END (data +:+ chunk)) eqn:Hseen.
    + exists (concat_chunks rest). now split.
    + now apply IH.
Qed.

Lemma received_text_corrupted s chunks :
  contains END s = true ->
  Forall (fun c => c <> "") chunks ->
  concat_chunks chunks = s +:+ END ->
  strip_END (recv_until_END chunks "") <> s.
Proof.
  intros Hc Hall Hsent Heq.
  destruct (recv_until_END_prefix chunks "" Hall) as (rest & Hsplit & Hseen).
  { rewrite string_app_nil_l, Hsent. apply contains_app_r. }
  rewrite string_app_nil_l, Hsent in Hsplit.
  set (data := recv_until_END chunks "") in *.
  pose proof (strip_END_shortens _ data (le_n _) Hseen) as Hshort.
  pose proof (f_equal String.length Hsplit) as Hlen.
  rewrite !string_length_app in Hlen. change (String.length END) with 7%nat in Hlen.
  rewrite Heq in Hshort.
  assert (Hrest : rest = "") by (apply string_length_zero; lia).
  rewrite Hrest, string_app_nil_r in Hsplit.
  pose proof (strip_END_frame_shortens s Hc) as Hframe.
  rewrite Hsplit, Heq in Hframe. lia.
Qed.

(** *** The terminator inside a value *)

Lemma contains_app_l old a b : contains old a = true -> contains old (a +:+ b) = true.
Proof.
  induction a as [|c a IH]; intros H.
  - destruct old; [|discriminate H]. now destruct b.
  - rewrite string_app_cons, contains_cons. rewrite contains_cons in H.
    apply orb_true_iff in H as [H | H]; apply orb_true_iff.
    + left. rewrite <- string_app_cons. now apply startswith_app.
    + right. now apply IH.
Qed.

Lemma contains_app_behind old a b : contains old b = true -> contains old (a +:+ b) = true.
Proof.
  intros H. induction a as [|c a IH]; [exact H|].
  rewrite string_app_cons, contains_cons, IH. apply orb_true_r.
Qed.

Lemma contains_join old sep t parts :
  t ∈ parts -> contains old t = true -> contains old (join sep parts) = true.
Proof.
  intros Hin Ht. induction parts as [|p rest IH]; [inversion Hin|].
  apply elem_of_cons in Hin as [<- | Hin].
  - destruct rest; [exact Ht|]. cbn [join]. now apply contains_app_l.
  - specialize (IH Hin). destruct rest as [|q rest]; [inversion Hin|].
    cbn [join]. now do 2 apply contains_app_behind.
Qed.

Lemma escape_body_END r : escape_body (END +:+ r) = END +:+ escape_body r.
Proof. reflexivity. Qed.

Lemma contains_escape_body s :
  contains END s = true -> contains END (escape_body s) = true.
Proof.
  induction s as [|c s IH]; intros H; [discriminate H|].
  rewrite contains_cons in H. apply orb_true_iff in H as [H | H].
  - apply startswith_split in H as [r ->]. rewrite escape_body_END.
    apply contains_app_l. reflexivity.
  - cbn [escape_body]. destruct (escape_char c).
    + apply contains_app_behind. now apply IH.
    + rewrite contains_cons, IH by exact H. apply orb_true_r.
Qed.

Lemma contains_encode_basestring s :
  contains END s = true -> contains END (encode_basestring false s) = true.
Proof.
  intros H. unfold encode_basestring. rewrite contains_cons.
  apply orb_true_iff. right. apply contains_app_l. now apply contains_escape_body.
Qed.

Lemma contains_wrapped a body b :
  contains END body = true -> contains END (a +:+ body +:+ b) = true.
Proof. intros H. apply contains_app_behind. now apply contains_app_l. Qed.

(** The terminator inside a key or a text of a value is in the text written
    for the value. *)
Lemma contains_json_dumps v s :
  holds_text v s -> contains END s = true ->
  contains END (json_dumps false false v) = true.
Proof.
  induction 1 as [s | v l s Hin _ IH | k v d Hin | k v d s Hin _ IH]; intros Hs.
  - now apply contains_encode_basestring.
  - cbn [json_dumps]. apply contains_wrapped.
    apply (contains_join _ _ (json_dumps false false v)); [|now apply IH].
    now apply (list_elem_of_fmap_2 (json_dumps false false)).
  - cbn [json_dumps]. apply contains_wrapped.
    apply (contains_join _ _ (render_item false (k, json_dumps false false v))).
    + apply (list_elem_of_fmap_2 (render_item false)).
      now apply (list_elem_of_fmap_2 (fun kv => (fst kv, json_dumps false false (snd kv))) _ (k, v)).
    + unfold render_item. cbn [fst snd]. apply contains_app_l.
      now apply contains_encode_basestring.
  - cbn [json_dumps]. apply contains_wrapped.
    apply (contains_join _ _ (render_item false (k, json_dumps false false v))).
    + apply (list_elem_of_fmap_2 (render_item false)).
      now apply (list_elem_of_fmap_2 (fun kv => (fst kv, json_dumps false false (snd kv))) _ (k, v)).
    + unfold render_item. cbn [fst snd]. do 2 apply contains_app_behind. now apply IH.
Qed.

Lemma frame_not_empty v : String.eqb (frame v) "" = false.
Proof.
  apply String.eqb_neq. intros H. apply (f_equal String.length) in H.
  unfold frame in H. rewrite string_length_app in H. change (String.length END) with 7%nat in H.
  cbn in H. lia.
Qed.

(** *** Bytes that decode *)

Lemma utf8_scan_app n : forall s pos t,
  (String.length s <= n)%nat ->
  utf8_scan pos s = None ->
  (forall q, utf8_scan q t = None) ->
  utf8_scan pos (s +:+ t) = None.
Proof.
  unfold invalid_start, invalid_continuation, unexpected_end.
  induction n as [|n IH]; intros s pos t Hlen Hs Ht.
  - destruct s; [apply Ht | cbn in Hlen; lia].
  - destruct s as [|c1 s1]; [apply Ht|].
    rewrite string_app_cons. cbn [utf8_scan] in Hs |- *. cbn [String.length] in Hlen.
    unfold invalid_start, invalid_continuation, unexpected_end in *.
    destruct (N_of_ascii c1 <? 128)%N; [apply IH; [lia | exact Hs | exact Ht]|].
    destruct (N_of_ascii c1 <? 194)%N; [discriminate Hs|].
    destruct (N_of_ascii c1 <? 224)%N.
    { destruct s1 as [|c2 s2]; [discriminate Hs|]. rewrite string_app_cons.
      cbn [String.length] in Hlen.
      destruct (is_continuation c2); [|discriminate Hs].
      apply IH; [lia | exact Hs | exact Ht]. }
    destruct (N_of_ascii c1 <? 240)%N.
    { destruct s1 as [|c2 s2]; [discriminate Hs|]. rewrite string_app_cons.
      cbn [String.length] in Hlen.
      destruct (negb (is_continuation c2) || _); [discriminate Hs|].
      destruct s2 as [|c3 s3]; [discriminate Hs|]. rewrite string_app_cons.
      cbn [String.length] in Hlen.
      destruct (is_continuation c3); [|discriminate Hs].
      apply IH; [lia | exact Hs | exact Ht]. }
    destruct (N_of_ascii c1 <? 245)%N; [|discriminate Hs].
    destruct s1 as [|c2 s2]; [discriminate Hs|]. rewrite string_app_cons.
    cbn [String.length] in Hlen.
    destruct (negb (is_continuation c2) || _); [discriminate Hs|].
    destruct s2 as [|c3 s3]; [discriminate Hs|]. rewrite string_app_cons.
    cbn [String.length] in Hlen.
    destruct (negb (is_continuation c3)); [discriminate Hs|].
    destruct s3 as [|c4 s4]; [discriminate Hs|]. rewrite string_app_cons.
    cbn [String.length] in Hlen.
    destruct (is_continuation c4); [|discriminate Hs].
    apply IH; [lia | exact Hs | exact Ht].
Qed.

Lemma utf8_error_scan s : utf8_error s = None <-> utf8_scan 0 s = None.
Proof. unfold utf8_error. now destruct (utf8_scan 0 s). Qed.

(** Bytes that decode still decode with the terminator behind them. *)
Lemma utf8_error_terminated s : utf8_error s = None -> utf8_error (s +:+ END) = None.
Proof.
  rewrite !utf8_error_scan. intros H.
  apply (utf8_scan_app (String.length s)); [lia | exact H | reflexivity].
Qed.

Lemma frame_decodes v :
  json_loads (json_dumps false false v) = Some v -> utf8_error (frame v) = None.
Proof. intros H. apply utf8_error_terminated. exact (json_loads_text _ _ H). Qed.

(** *** Deleting the terminator, in a text and in a value *)

Lemma strip_END_unchanged s : contains END s = false -> strip_END s = s.
Proof.
  induction s as [|c s IH]; intros H; [reflexivity|].
  rewrite contains_cons in H. apply orb_false_iff in H as [Hhead Htail].
  rewrite strip_END_keep by exact Hhead. now rewrite IH.
Qed.















(** *** Where the receive loop stops *)






End Properties.

(** ** The daemon at work *)

(** Scenario A: a ping is answered with a pong. *)
Example ping_pong :
  fst (handle_client (world := answering None) 0 0
         [frame (JObject [("action", JStr "ping")])] fresh_state)
  = Some (frame (JObject [("status", JStr "alive"); ("action", JStr "pong")])).
Proof. vm_compute. reflexivity. Qed.

(** Scenario E: bytes that are not JSON are answered with an error. *)
Example malformed_frame :
  handle_client (world := answering None) 0 0 ["{not json"; "__END__"] fresh_state
  = (Some (json_dumps true false (error_response "无效的JSON请求") +:+ END), fresh_state).
Proof. vm_compute. reflexivity. Qed.

(** A peer that closes without sending anything gets no answer. *)
Example silent_peer :
  handle_client (world := answering None) 0 0 [] fresh_state = (None, fresh_state).
Proof. reflexivity. Qed.

(** Scenario C: the same request twice within the time to live reaches the
    endpoint once, and the second answer is the first. *)
Example scenario_C :
  let '(first, st1) :=
    process_request (world := answering (Some "hi there")) 0 1 (JObject hello_request)
      fresh_state in
  let '(second, st2) :=
    process_request (world := answering (Some "hi there")) 300 300 (JObject hello_request)
      st1 in
  second = first /\ length (api_calls st2) = 1%nat.
Proof. vm_compute. split; reflexivity. Qed.

(** Scenario D: once the entry has expired the request reaches the endpoint
    again. *)
Example scenario_D :
  let '(first, st1) :=
    process_request (world := answering (Some "hi there")) 0 1 (JObject hello_request)
      fresh_state in
  let '(second, st2) :=
    process_request (world := answering (Some "hi there")) 301 302 (JObject hello_request)
      st1 in
  second = first /\ length (api_calls st2) = 2%nat.
Proof. vm_compute. split; reflexivity. Qed.

(** A status request is answered with the four fields. *)
Example status_report :
  fst (process_request (world := answering None) 0 0
         (JObject [("action", JStr "status")]) fresh_state)
  = Return (JObject [("status", JStr "running"); ("model_loaded", JBool true);
                     ("clients_connected", JInt 1); ("memory_usage", JStr "unknown")]).
Proof. reflexivity. Qed.

(** The warm-up call is made with the gateway's own defaults. *)
Example warm_up_call :
  api_calls (snd (initialize_llm (world := answering (Some "hi")) (Some "sk-key") 0 0
                    fresh_state))
  = [{| param_model := "qwen-turbo";
        param_messages := JList [user_message "你好"];
        param_stream := false;
        param_temperature := JFloat "0.9";
        param_max_tokens := JInt 1500 |}].
Proof. vm_compute. reflexivity. Qed.

(** The key of the request of scenario B. *)
Example hello_key :
  chat_key (world := answering None) hello_request = "e16cd4a3c5f1053eabf590a3876931c9".
Proof. vm_compute. reflexivity. Qed.

(** C7, at a request without messages. *)
Lemma chat_empty_conversation_witness :
  is_chat_request [("action", JStr "chat")] = true
  /\ (dict_lookup "messages" [("action", JStr "chat")] = None
      \/ dict_lookup "messages" [("action", JStr "chat")] = Some (JList []))
  /\ process_request (world := answering (Some "hi there")) 0 0
       (JObject [("action", JStr "chat")]) fresh_state
     = (Return (error_response "消息不能为空"), fresh_state).
Proof.
  split; [reflexivity|]. split; [left; reflexivity|].
  apply (chat_empty_conversation_rejected (world := answering (Some "hi there")));
    [reflexivity | left; reflexivity].
Defined.

(** C2 as stated fails: with an empty conversation a request for a stream is
    answered with the empty-conversation error. *)
Lemma chat_stream_empty_conversation :
  is_chat_request streamed_empty_request = true
  /\ dict_lookup "stream" streamed_empty_request = Some (JBool true)
  /\ fst (process_request (world := answering (Some "hi there")) 0 0
            (JObject streamed_empty_request) fresh_state)
     = Return (error_response "消息不能为空")
  /\ fst (process_request (world := answering (Some "hi there")) 0 0
            (JObject streamed_empty_request) fresh_state)
     <> Return (warning_response "流式响应需要WebSocket，使用非流式").
Proof. repeat split. discriminate. Qed.

(** C2 as amended, at a request for a streamed answer to "hello". *)
Lemma chat_stream_unsupported_witness :
  is_chat_request streamed_request = true
  /\ dict_lookup "stream" streamed_request = Some (JBool true)
  /\ process_request (world := answering (Some "hi there")) 0 0
       (JObject streamed_request) fresh_state
     = (Return (warning_response "流式响应需要WebSocket，使用非流式"), fresh_state).
Proof.
  split; [reflexivity|]. split; [reflexivity|].
  eapply (proj1 (proj2 (proj2 (chat_stream_unsupported (world := answering (Some "hi there"))
                                 0 0 streamed_request fresh_state eq_refl eq_refl)))).
  reflexivity.
Defined.

(** C10, at a request that has messages and no action. *)
Lemma action_defaults_to_chat_witness :
  dict_lookup "action" [("messages", JList [user_message "hello"])] = None
  /\ fst (process_request (world := answering (Some "hi there")) 0 0
            (JObject [("messages", JList [user_message "hello"])]) fresh_state)
     = Return (JObject [("response", JStr "hi there"); ("tokens", JInt 2)]).
Proof.
  split; [reflexivity|].
  rewrite (proj1 (action_defaults_to_chat (world := answering (Some "hi there")) 0 0
                    [("messages", JList [user_message "hello"])] fresh_state) eq_refl).
  vm_compute. reflexivity.
Defined.

(** C3 as stated fails: an empty text is a result that is not null, and it
    is not stored. *)
Lemma empty_text_not_stored :
  is_chat_request hello_request = true
  /\ cache_lookup 0 (chat_key (world := answering (Some "")) hello_request)
       (cache fresh_state) = None
  /\ fst (chat_completion (world := answering (Some "")) 0 0
            (JList [user_message "hello"]) false
            [("temperature", JFloat "0.9"); ("max_tokens", JInt 2000)] fresh_state)
     = RStr ""
  /\ RStr "" <> RNone
  /\ cache (snd (process_request (world := answering (Some "")) 0 0
                   (JObject hello_request) fresh_state)) = ∅.
Proof. vm_compute. repeat split. discriminate. Qed.

(** C3 as amended, at scenario B: the endpoint answers "hi there" to the
    request for "hello". *)
Lemma scenario_B :
  is_chat_request hello_request = true
  /\ truthy (dict_get hello_request "messages" (JList [])) = true
  /\ truthy (dict_get hello_request "stream" (JBool false)) = false
  /\ cache_lookup 0 (chat_key (world := answering (Some "hi there")) hello_request)
       (cache fresh_state) = None
  /\ create_completion (World := answering (Some "hi there")) (api_calls fresh_state)
       (chat_params hello_request)
     = Completes [{| message_content := Some "hi there" |}]
  /\ process_request (world := answering (Some "hi there")) 0 7 (JObject hello_request)
       fresh_state
     = (Return (JObject [("response", JStr "hi there"); ("tokens", JInt 2)]),
        {| cache := cache_store 7 "e16cd4a3c5f1053eabf590a3876931c9" "hi there" ∅;
           api_calls := [chat_params hello_request];
           journal := [] |}).
Proof.
  assert (Hmiss : cache_lookup 0 (chat_key (world := answering (Some "hi there")) hello_request)
                    (cache fresh_state) = None) by (vm_compute; reflexivity).
  repeat (split; [first [reflexivity | exact Hmiss]|]).
  rewrite (proj1 (chat_cache_miss (world := answering (Some "hi there")) 0 7 hello_request
                    fresh_state [{| message_content := Some "hi there" |}]
                    eq_refl eq_refl eq_refl Hmiss eq_refl)).
  vm_compute. reflexivity.
Defined.

(** C6 as stated fails: a request may ask for more than 2000 tokens, and the
    endpoint is called with what it asks for. *)
Lemma max_tokens_not_capped :
  api_calls (snd (process_request (world := answering (Some "hi there")) 0 0
                    (JObject long_request) fresh_state))
  = [{| param_model := "qwen-turbo";
        param_messages := JList [user_message "hello"];
        param_stream := false;
        param_temperature := JFloat "0.9";
        param_max_tokens := JInt 5000 |}]
  /\ 2000 < 5000.
Proof. split; [vm_compute; reflexivity | lia]. Qed.

(** C6 as amended, at the request of scenario B, which names neither
    parameter. *)
Lemma gateway_parameters_witness :
  is_chat_request hello_request = true
  /\ truthy (dict_get hello_request "messages" (JList [])) = true
  /\ truthy (dict_get hello_request "stream" (JBool false)) = false
  /\ cache_lookup 0 (chat_key (world := answering (Some "hi there")) hello_request)
       (cache fresh_state) = None
  /\ exists p,
      api_calls (snd (process_request (world := answering (Some "hi there")) 0 0
                        (JObject hello_request) fresh_state)) = [p]
      /\ param_temperature p = JFloat "0.9"
      /\ param_max_tokens p = JInt 2000.
Proof.
  assert (Hmiss : cache_lookup 0 (chat_key (world := answering (Some "hi there")) hello_request)
                    (cache fresh_state) = None) by (vm_compute; reflexivity).
  repeat (split; [first [reflexivity | exact Hmiss]|]).
  destruct (proj2 (gateway_parameters (world := answering (Some "hi there")) 0 0
                     JNull [] hello_request fresh_state)
              eq_refl eq_refl eq_refl Hmiss) as (p & Hcalls & Ht & Hm & _).
  exists p. split; [exact Hcalls|]. split; [exact (Ht eq_refl) | exact (Hm eq_refl)].
Defined.

(** C1 as stated fails.  Without [stream] the caller of the gateway gets
    [None] whatever the endpoint's error was, and the reply of the dispatcher
    is the same for two different errors.  With [stream] an endpoint that
    fails gives the caller what an endpoint with an empty stream gives it. *)
Lemma gateway_error_text_lost :
  fst (chat_completion (world := failing "Request timed out.") 0 0
         (JList [user_message "hello"]) false
         [("temperature", JFloat "0.9"); ("max_tokens", JInt 2000)] fresh_state)
  = RNone
  /\ fst (chat_completion (world := failing "Connection error.") 0 0
            (JList [user_message "hello"]) false
            [("temperature", JFloat "0.9"); ("max_tokens", JInt 2000)] fresh_state)
     = RNone
  /\ fst (process_request (world := failing "Request timed out.") 0 0
            (JObject hello_request) fresh_state)
     = fst (process_request (world := failing "Connection error.") 0 0
              (JObject hello_request) fresh_state)
  /\ fst (gen_take (world := failing "Request timed out.") 3
            (_stream_response (direct_params (JList [user_message "hello"]) true []))
            fresh_state)
     = ([], GenFinished)
  /\ fst (gen_take (world := streaming []) 3
            (_stream_response (direct_params (JList [user_message "hello"]) true []))
            fresh_state)
     = ([], GenFinished).
Proof. vm_compute. repeat split. Qed.

(** C1 as amended, at an endpoint that times out on the conversation of
    scenario B, asked for without and with [stream]. *)
Lemma gateway_failure_witness :
  cache_lookup 0
    (_get_cache_key (world := failing "Request timed out.") (JList [user_message "hello"]) [])
    (cache fresh_state) = None
  /\ chat_completion (world := failing "Request timed out.") 0 0
       (JList [user_message "hello"]) false [] fresh_state
     = (RNone,
        {| cache := ∅;
           api_calls := [direct_params (JList [user_message "hello"]) false []];
           journal := [(LOG_ERR, "千问请求失败: Request timed out.")] |})
  /\ gen_take (world := failing "Request timed out.") 1
       (_stream_response (direct_params (JList [user_message "hello"]) true [])) fresh_state
     = ([], GenFinished,
        {| cache := ∅;
           api_calls := [direct_params (JList [user_message "hello"]) true []];
           journal := [(LOG_ERR, "流式响应错误: Request timed out.")] |}).
Proof.
  assert (Hmiss : cache_lookup 0
                    (_get_cache_key (world := failing "Request timed out.")
                       (JList [user_message "hello"]) [])
                    (cache fresh_state) = None) by (vm_compute; reflexivity).
  destruct (gateway_failure_reported (world := failing "Request timed out.") 0 0
              (JList [user_message "hello"]) [] fresh_state)
    as (Hplain & _ & _ & Hopen & _).
  split; [exact Hmiss|]. split.
  - exact (proj1 (Hplain Hmiss) "Request timed out." eq_refl).
  - exact (proj1 (Hopen O "Request timed out." eq_refl)).
Defined.

(** C4 as stated fails at the empty text: the endpoint answers the request of
    scenario B with it, nothing is stored, the look-up of the key misses, and
    the same request calls the endpoint a second time. *)
Lemma empty_text_looked_up :
  fst (chat_completion (world := answering (Some "")) 0 0
         (JList [user_message "hello"]) false
         [("temperature", JFloat "0.9"); ("max_tokens", JInt 2000)] fresh_state)
  = RStr ""
  /\ cache_lookup 0
       (_get_cache_key (world := answering (Some "")) (JList [user_message "hello"])
          [("temperature", JFloat "0.9"); ("max_tokens", JInt 2000)])
       (cache (snd (chat_completion (world := answering (Some "")) 0 0
                      (JList [user_message "hello"]) false
                      [("temperature", JFloat "0.9"); ("max_tokens", JInt 2000)]
                      fresh_state)))
     <> Some ""
  /\ length
       (api_calls
          (snd (chat_completion (world := answering (Some "")) 0 0
                  (JList [user_message "hello"]) false
                  [("temperature", JFloat "0.9"); ("max_tokens", JInt 2000)]
                  (snd (chat_completion (world := answering (Some "")) 0 0
                          (JList [user_message "hello"]) false
                          [("temperature", JFloat "0.9"); ("max_tokens", JInt 2000)]
                          fresh_state)))))
     = 2%nat.
Proof. vm_compute. repeat split. discriminate. Qed.

(** C4 as amended, on the answer to the request of scenario B, stored at time
    1000: one time unit before the entry expires and at the moment it does. *)
Lemma cache_round_trip_witness :
  cache_lookup 999
    (_get_cache_key (world := answering (Some "hi there")) (JList [user_message "hello"])
       [("temperature", JFloat "0.9"); ("max_tokens", JInt 2000)])
    (cache fresh_state) = None
  /\ fst (chat_completion (world := answering (Some "hi there")) 999 1000
            (JList [user_message "hello"]) false
            [("temperature", JFloat "0.9"); ("max_tokens", JInt 2000)] fresh_state)
     = RStr "hi there"
  /\ (1299 - 1000 < cache_ttl
      /\ fst (chat_completion (world := answering (Some "hi there")) 1299 1299
                (JList [user_message "hello"]) false
                [("temperature", JFloat "0.9"); ("max_tokens", JInt 2000)]
                (snd (chat_completion (world := answering (Some "hi there")) 999 1000
                        (JList [user_message "hello"]) false
                        [("temperature", JFloat "0.9"); ("max_tokens", JInt 2000)]
                        fresh_state)))
         = RStr "hi there")
  /\ (cache_ttl <= 1300 - 1000
      /\ cache_lookup 1300
           (_get_cache_key (world := answering (Some "hi there"))
              (JList [user_message "hello"])
              [("temperature", JFloat "0.9"); ("max_tokens", JInt 2000)])
           (cache (snd (chat_completion (world := answering (Some "hi there")) 999 1000
                          (JList [user_message "hello"]) false
                          [("temperature", JFloat "0.9"); ("max_tokens", JInt 2000)]
                          fresh_state)))
         = None).
Proof.
  assert (Hmiss : cache_lookup 999
                    (_get_cache_key (world := answering (Some "hi there"))
                       (JList [user_message "hello"])
                       [("temperature", JFloat "0.9"); ("max_tokens", JInt 2000)])
                    (cache fresh_state) = None) by (vm_compute; reflexivity).
  assert (Hres : fst (chat_completion (world := answering (Some "hi there")) 999 1000
                        (JList [user_message "hello"]) false
                        [("temperature", JFloat "0.9"); ("max_tokens", JInt 2000)]
                        fresh_state)
                 = RStr "hi there") by (vm_compute; reflexivity).
  split; [exact Hmiss|]. split; [exact Hres|]. split.
  - split; [reflexivity|].
    destruct (cache_round_trip (world := answering (Some "hi there")) 999 1000 1299 1299
                _ _ _ _ Hmiss Hres) as (_ & Hstored & _).
    destruct (Hstored ltac:(discriminate)) as (_ & Hfresh & _).
    destruct (Hfresh eq_refl) as [_ Hhit]. now rewrite Hhit.
  - split; [discriminate|].
    destruct (cache_round_trip (world := answering (Some "hi there")) 999 1000 1300 1300
                _ _ _ _ Hmiss Hres) as (_ & Hstored & _).
    destruct (Hstored ltac:(discriminate)) as (_ & _ & Hstale).
    exact (proj1 (Hstale ltac:(discriminate))).
Defined.

(** C9, on a stream of seven events drawn to its end: the two texts come out,
    the chunks without text and the failure leave no trace in the fragments,
    and the endpoint has been called once. *)
Lemma stream_yields_text_only_witness :
  create_stream (World := streaming sample_stream) (api_calls fresh_state)
    {| param_model := "qwen-turbo";
       param_messages := JList [user_message "hello"];
       param_stream := true;
       param_temperature := JFloat "0.9";
       param_max_tokens := JInt 1500 |}
  = Opens sample_stream
  /\ exists g,
      chat_completion (world := streaming sample_stream) 0 0
        (JList [user_message "hello"]) true [] fresh_state
      = (RGenerator g, fresh_state)
      /\ fst (gen_take (world := streaming sample_stream) 8 g fresh_state)
         = (["Hel"; "lo"], GenFinished)
      /\ length (api_calls (snd (gen_take (world := streaming sample_stream) 8 g
                                   fresh_state))) = 1%nat.
Proof.
  split; [reflexivity|].
  destruct (stream_yields_text_only (world := streaming sample_stream) 0 0
              (JList [user_message "hello"]) [] 8 fresh_state)
    as (params & Hgen & _ & _ & _ & Hcalls & Hopen & _).
  exists (_stream_response params). split; [exact Hgen|].
  injection Hgen as <-.
  destruct (Hopen sample_stream eq_refl) as [_ Hfull]. split.
  - rewrite Hfull; [reflexivity | cbn; lia].
  - rewrite Hcalls. reflexivity.
Defined.

(** C5, at the conversation of scenario B written with its fields in two
    orders, and at the two requests that carry it. *)
Lemma cache_key_witness :
  wf_json (JObject [("messages", JList [user_message "hello"]);
                    ("temperature", JFloat "0.9"); ("max_tokens", JInt 2000)]) = true
  /\ _get_cache_key (world := answering None) (JList [user_message "hello"])
       [("temperature", JFloat "0.9"); ("max_tokens", JInt 2000)]
     = _get_cache_key (world := answering None)
         (JList [JObject [("content", JStr "hello"); ("role", JStr "user")]])
         [("max_tokens", JInt 2000); ("temperature", JFloat "0.9")]
  /\ chat_key (world := answering None) hello_request
     = chat_key (world := answering None) hello_request_reordered.
Proof.
  assert (Hmessage : same_fields (JList [user_message "hello"])
                       (JList [JObject [("content", JStr "hello"); ("role", JStr "user")]])).
  { apply same_list_cons; [|apply same_refl].
    apply same_object_perm. apply perm_swap. }
  split; [reflexivity|]. split.
  - apply (proj1 (cache_key_order_independent (world := answering None)));
      [reflexivity | exact Hmessage |].
    apply same_object_perm. apply perm_swap.
  - apply (proj2 (cache_key_order_independent (world := answering None)));
      [reflexivity|].
    apply (same_trans _ (JObject [("action", JStr "chat");
                                  ("messages",
                                   JList [JObject [("content", JStr "hello");
                                                   ("role", JStr "user")]]);
                                  ("stream", JBool false)])).
    + apply same_object_cons; [apply same_refl|].
      apply same_object_cons; [exact Hmessage | apply same_refl].
    + apply same_object_perm.
      eapply perm_trans; [apply perm_swap|].
      eapply perm_trans; [apply perm_skip, perm_swap|]. apply perm_swap.
Defined.


(** The terminator inside a message is deleted on the way when the frame
    comes in one read: the server sees "ab" where the client wrote
    "a__END__b". *)
Example sentinel_in_content_deleted :
  contains END (json_dumps false false (JObject sentinel_request)) = true
  /\ strip_value (JObject sentinel_request)
     = JObject [("action", JStr "chat"); ("messages", JList [user_message "ab"])]
  /\ json_loads (World := answering None)
       (strip_END (recv_until_END [frame (JObject sentinel_request)] ""))
     = Some (JObject [("action", JStr "chat"); ("messages", JList [user_message "ab"])]).
Proof. vm_compute. repeat split. Qed.


(** ** Further properties, read off the code *)

Section Coverage.
Context {world : World}.

(** What one call of [chat_completion] without [stream] does to the state. *)
Lemma chat_completion_effects now now' messages kwargs st :
  (exists cached,
      cache_lookup now (_get_cache_key messages kwargs) (cache st) = Some cached
      /\ chat_completion now now' messages false kwargs st
         = (RStr cached, syslog LOG_DEBUG "使用缓存响应" st))
  \/ (cache_lookup now (_get_cache_key messages kwargs) (cache st) = None
      /\ exists response lines stored,
          chat_completion now now' messages false kwargs st
          = (response,
             {| cache := stored;
                api_calls := api_calls st
                  ++ [{| param_model := "qwen-turbo"; param_messages := messages;
                         param_stream := false;
                         param_temperature := dict_get kwargs "temperature" (JFloat "0.9");
                         param_max_tokens := dict_get kwargs "max_tokens" (JInt 1500) |}];
                journal := journal st ++ lines |})
          /\ (stored = cache st
              \/ exists text, text <> "" /\ response = RStr text
                 /\ stored = cache_store now' (_get_cache_key messages kwargs) text (cache st))).
Proof.
  destruct (cache_lookup now (_get_cache_key messages kwargs) (cache st)) as [cached|] eqn:Hl.
  - left. exists cached. split; [reflexivity|]. now apply chat_completion_hit.
  - right. split; [reflexivity|]. rewrite chat_completion_miss by exact Hl.
    unfold _direct_request.
    destruct (create_completion _ _) as [err|choices].
    + eexists _, [_], _. split; [reflexivity|]. now left.
    + destruct (String.eqb (completion_text choices) "") eqn:Hnil.
      * eexists _, [], _. split; [unfold record_call; now rewrite app_nil_r|]. now left.
      * eexists _, [], _. split; [unfold record_call, set_cache; cbn; now rewrite app_nil_r|].
        right. exists (completion_text choices).
        split; [now apply String.eqb_neq|]. now split.
Qed.


(** What [process_request] does to the state: nothing, or the one line of a
    cache hit, or the call of a cache miss with what it logs and stores. *)
Lemma process_request_effects now now' request st :
  snd (process_request now now' request st) = st
  \/ (exists d cached,
        request = JObject d
        /\ cache_lookup now (chat_key d) (cache st) = Some cached
        /\ snd (process_request now now' request st)
           = syslog LOG_DEBUG "使用缓存响应" st)
  \/ (exists d lines stored,
        request = JObject d
        /\ is_chat_request d = true
        /\ truthy (dict_get d "messages" (JList [])) = true
        /\ truthy (dict_get d "stream" (JBool false)) = false
        /\ cache_lookup now (chat_key d) (cache st) = None
        /\ snd (process_request now now' request st)
           = {| cache := stored;
                api_calls := api_calls st ++ [chat_params d];
                journal := journal st ++ lines |}
        /\ (stored = cache st
            \/ exists text, text <> ""
               /\ stored = cache_store now' (chat_key d) text (cache st))).
Proof.
  destruct request as [| | | | |l|d]; try (left; reflexivity).
  destruct (is_chat_request d) eqn:Hchat.
  - rewrite process_request_chat by exact Hchat. cbn [snd].
    destruct (truthy (dict_get d "messages" (JList []))) eqn:Hm;
      [|left; now rewrite process_chat_falsy_messages].
    destruct (truthy (dict_get d "stream" (JBool false))) eqn:Hs;
      [left; now rewrite process_chat_truthy_stream|].
    unfold process_chat. rewrite Hm, Hs. cbn [negb].
    destruct (chat_completion_effects now now' (dict_get d "messages" (JList []))
                [("temperature", dict_get d "temperature" (JFloat "0.9"));
                 ("max_tokens", dict_get d "max_tokens" (JInt 2000))] st)
      as [(cached & Hl & ->) | (Hl & response & lines & stored & -> & Hstored)].
    + right. left. exists d, cached. now repeat split.
    + right. right. exists d, lines, stored.
      split; [reflexivity|]. split; [exact Hchat|]. split; [exact Hm|].
      split; [exact Hs|]. split; [exact Hl|]. split.
      * now destruct response.
      * destruct Hstored as [-> | (text & Hne & _ & ->)]; [now left|].
        right. now exists text.
  - left. unfold process_request. fold (is_chat_request d). rewrite Hchat.
    now repeat destruct (is_str _ _).
Qed.

(** The state [handle_client] leaves is the one [process_request] leaves,
    with one more line when the request was not an object. *)
Lemma handle_client_state now now' chunks st :
  snd (handle_client now now' chunks st) = st
  \/ (exists request,
        snd (handle_client now now' chunks st)
        = snd (process_request now now' request st))
  \/ (exists line, snd (handle_client now now' chunks st) = syslog LOG_ERR line st).
Proof.
  unfold handle_client, internal_error. destruct (String.eqb _ ""); [now left|].
  destruct (utf8_error _) as [e|]; [right; right; eexists; reflexivity|].
  destruct (json_loads _) as [request|];
    [|destruct (loads_error _) as [e|]; [right; right; eexists; reflexivity | now left]].
  destruct request as [| | | | |l|d];
    try (right; right; eexists; reflexivity).
  right. left. exists (JObject d).
  destruct (process_request now now' (JObject d) st) as [[response|e] st'] eqn:Hreq;
    [reflexivity|].
  exfalso. unfold process_request in Hreq.
  destruct (process_chat now now' d st).
  repeat destruct (is_str _ _); discriminate Hreq.
Qed.

(** X1. Serving a connection only appends: at most one call to the endpoint
    is added to the calls made so far, and lines are added to the log. *)
Theorem handle_client_appends now now' chunks st :
  exists calls lines,
    api_calls (snd (handle_client now now' chunks st)) = api_calls st ++ calls
    /\ (length calls <= 1)%nat
    /\ journal (snd (handle_client now now' chunks st)) = journal st ++ lines.
Proof.
  assert (Hreq : forall request, exists calls lines,
             api_calls (snd (process_request now now' request st)) = api_calls st ++ calls
             /\ (length calls <= 1)%nat
             /\ journal (snd (process_request now now' request st)) = journal st ++ lines).
  { intros request.
    destruct (process_request_effects now now' request st)
      as [-> | [(d & cached & _ & _ & ->) | (d & lines & stored & _ & _ & _ & _ & _ & -> & _)]].
    - exists [], []. rewrite !app_nil_r. repeat split. cbn. lia.
    - exists [], [(LOG_DEBUG, "使用缓存响应")]. rewrite app_nil_r. repeat split. cbn. lia.
    - exists [chat_params d], lines. repeat split. cbn. lia. }
  destruct (handle_client_state now now' chunks st) as [-> | [(request & ->) | (line & ->)]].
  - exists [], []. rewrite !app_nil_r. repeat split. cbn. lia.
  - apply Hreq.
  - exists [], [(LOG_ERR, line)]. rewrite app_nil_r. repeat split. cbn. lia.
Qed.


(** X2. The endpoint is called for a request exactly when the request is a
    chat request with a conversation, without [stream], and the cache has no
    fresh entry for it. *)
Theorem endpoint_called_only_on_miss now now' request st :
  api_calls (snd (process_request now now' request st)) <> api_calls st
  <-> exists d,
      request = JObject d
      /\ is_chat_request d = true
      /\ truthy (dict_get d "messages" (JList [])) = true
      /\ truthy (dict_get d "stream" (JBool false)) = false
      /\ cache_lookup now (chat_key d) (cache st) = None.
Proof.
  split.
  - intros Hcalls.
    destruct (process_request_effects now now' request st)
      as [Heq | [(d & cached & _ & _ & Heq) | (d & lines & stored & -> & Hc & Hm & Hs & Hl & _)]].
    + now rewrite Heq in Hcalls.
    + now rewrite Heq in Hcalls.
    + now exists d.
  - intros (d & -> & Hchat & Hm & Hs & Hmiss).
    rewrite process_request_chat by exact Hchat. cbn [snd].
    rewrite process_chat_miss_call by assumption.
    intros Heq. apply (f_equal length) in Heq. rewrite length_app in Heq. cbn in Heq. lia.
Qed.

(** X3. Serving a connection removes nothing from the cache: an entry is
    left as it was, or it is written anew, with a text that is not empty and
    the time of the store, where the look-up had found nothing fresh. *)
Theorem cache_entries_kept now now' chunks st k :
  cache (snd (handle_client now now' chunks st)) !! k = cache st !! k
  \/ (cache_lookup now k (cache st) = None
      /\ exists text,
          text <> ""
          /\ cache (snd (handle_client now now' chunks st)) !! k
             = Some {| entry_response := text; entry_timestamp := now' |}).
Proof.
  destruct (handle_client_state now now' chunks st) as [-> | [(request & ->) | (line & ->)]];
    [now left | | now left].
  destruct (process_request_effects now now' request st)
    as [-> | [(d & cached & _ & _ & ->)
             | (d & lines & stored & _ & _ & _ & _ & Hl & -> & Hstored)]];
    [now left | now left |].
  cbn [cache]. destruct Hstored as [-> | (text & Hne & ->)]; [now left|].
  unfold cache_store. destruct (decide (chat_key d = k)) as [<- | Hk].
  - right. split; [exact Hl|]. exists text. split; [exact Hne|]. apply lookup_insert_eq.
  - left. now apply lookup_insert_ne.
Qed.

Lemma chat_cache_hit now now' d st cached :
  is_chat_request d = true ->
  truthy (dict_get d "messages" (JList [])) = true ->
  truthy (dict_get d "stream" (JBool false)) = false ->
  cache_lookup now (chat_key d) (cache st) = Some cached ->
  process_request now now' (JObject d) st
  = (Return (JObject [("response", JStr cached);
                      ("tokens", JInt (Z.of_nat (py_len cached) / 4))]),
     syslog LOG_DEBUG "使用缓存响应" st).
Proof.
  intros Hchat Hm Hs Hhit. rewrite process_request_chat by exact Hchat.
  unfold process_chat. rewrite Hm, Hs. cbn [negb].
  now rewrite (chat_completion_hit now now' _ _ st cached) by exact Hhit.
Qed.

(** X4. A text that is empty is never served from the cache: if no entry holds
    an empty text, none does after a connection has been served, and a look-up
    that finds a text finds one that is not empty. *)
Theorem cached_answers_not_empty now now' chunks st :
  (forall k e, cache st !! k = Some e -> entry_response e <> "") ->
  (forall k e,
      cache (snd (handle_client now now' chunks st)) !! k = Some e ->
      entry_response e <> "")
  /\ (forall later k text,
        cache_lookup later k (cache (snd (handle_client now now' chunks st))) = Some text ->
        text <> "").
Proof.
  intros Hinv.
  assert (Hafter : forall k e,
             cache (snd (handle_client now now' chunks st)) !! k = Some e ->
             entry_response e <> "").
  { destruct (handle_client_state now now' chunks st) as [-> | [(request & ->) | (line & ->)]];
      [exact Hinv | | exact Hinv].
    destruct (process_request_effects now now' request st)
      as [-> | [(d & cached & _ & _ & ->)
               | (d & lines & stored & _ & _ & _ & _ & _ & -> & Hstored)]];
      [exact Hinv | exact Hinv |].
    cbn [cache]. destruct Hstored as [-> | (text & Hne & ->)]; [exact Hinv|].
    intros k e. unfold cache_store. destruct (decide (chat_key d = k)) as [<- | Hk].
    - rewrite lookup_insert_eq. now intros [= <-].
    - rewrite lookup_insert_ne by exact Hk. apply Hinv. }
  split; [exact Hafter|]. intros later k text Hl. unfold cache_lookup in Hl.
  destruct (cache (snd (handle_client now now' chunks st)) !! k) as [e|] eqn:He;
    [|discriminate Hl].
  destruct (later - entry_timestamp e <? cache_ttl); [|discriminate Hl].
  injection Hl as <-. exact (Hafter k e He).
Qed.

(** X5. A chat request answered by the endpoint with a text that is not
    empty is, when repeated before the time to live has passed since the
    store, given the same response without a call to the endpoint. *)
Theorem repeated_request_served_from_cache now now' later later' d st choices :
  is_chat_request d = true ->
  truthy (dict_get d "messages" (JList [])) = true ->
  truthy (dict_get d "stream" (JBool false)) = false ->
  cache_lookup now (chat_key d) (cache st) = None ->
  create_completion (api_calls st) (chat_params d) = Completes choices ->
  completion_text choices <> "" ->
  later - now' < cache_ttl ->
  process_request later later' (JObject d) (snd (process_request now now' (JObject d) st))
  = (fst (process_request now now' (JObject d) st),
     syslog LOG_DEBUG "使用缓存响应" (snd (process_request now now' (JObject d) st)))
  /\ api_calls (snd (process_request later later' (JObject d)
                       (snd (process_request now now' (JObject d) st))))
     = api_calls st ++ [chat_params d].
Proof.
  intros Hchat Hm Hs Hmiss Hcall Hne Hfresh.
  rewrite (process_request_chat now now' d st Hchat).
  rewrite (process_chat_completes now now' d st choices) by assumption.
  apply String.eqb_neq in Hne. rewrite Hne. cbn [fst snd].
  rewrite (chat_cache_hit later later' d _ (completion_text choices)); auto.
  cbn [cache]. now apply cache_lookup_fresh.
Qed.

(** X6. Once the time to live has passed since the store, the same request
    is sent to the endpoint again. *)
Theorem expired_request_calls_again now now' later later' d st choices :
  is_chat_request d = true ->
  truthy (dict_get d "messages" (JList [])) = true ->
  truthy (dict_get d "stream" (JBool false)) = false ->
  cache_lookup now (chat_key d) (cache st) = None ->
  create_completion (api_calls st) (chat_params d) = Completes choices ->
  now <= later ->
  cache_ttl <= later - now' ->
  api_calls (snd (process_request later later' (JObject d)
                    (snd (process_request now now' (JObject d) st))))
  = api_calls st ++ [chat_params d; chat_params d].
Proof.
  intros Hchat Hm Hs Hmiss Hcall Hclock Hstale.
  rewrite (process_request_chat now now' d st Hchat).
  rewrite (process_chat_completes now now' d st choices) by assumption. cbn [snd].
  rewrite process_request_chat by exact Hchat. cbn [snd].
  rewrite process_chat_miss_call; auto.
  - cbn [api_calls]. now rewrite <- app_assoc.
  - cbn [cache]. destruct (String.eqb (completion_text choices) "").
    + now apply (cache_lookup_later now).
    + now apply cache_lookup_stale.
Qed.

(** *** More on the wire *)

Lemma recv_until_END_extends : forall chunks data,
  exists more, recv_until_END chunks data = data +:+ more.
Proof.
  induction chunks as [|chunk rest IH]; intros data.
  - exists "". now rewrite string_app_nil_r.
  - cbn [recv_until_END]. destruct (String.eqb chunk "").
    + exists "". now rewrite string_app_nil_r.
    + destruct (contains END (data +:+ chunk)).
      * now exists chunk.
      * destruct (IH (data +:+ chunk)) as [more ->].
        exists (chunk +:+ more). now rewrite string_app_assoc.
Qed.

Lemma recv_until_END_nothing chunks :
  recv_until_END chunks "" = "" <-> chunks = [] \/ exists rest, chunks = "" :: rest.
Proof.
  split.
  - destruct chunks as [|chunk rest]; [now left|]. intros H. right.
    cbn [recv_until_END] in H. destruct (String.eqb chunk "") eqn:Hnil.
    + apply String.eqb_eq in Hnil as ->. now exists rest.
    + exfalso. rewrite string_app_nil_l in H.
      assert (Hlen : exists more, "" = chunk +:+ more).
      { destruct (contains END chunk); [exists ""; now rewrite string_app_nil_r, H|].
        destruct (recv_until_END_extends rest chunk) as [more Hmore].
        exists more. now rewrite <- Hmore, H. }
      destruct Hlen as [more Hlen]. apply String.eqb_neq in Hnil.
      destruct chunk; [congruence | discriminate Hlen].
  - intros [-> | [rest ->]]; reflexivity.
Qed.

(** X7. A reply is sent exactly when at least one byte has arrived before the
    peer closed; every reply ends with the terminator, and a connection on
    which nothing arrived leaves the state as it was. *)
Theorem reply_iff_bytes now now' chunks st :
  (fst (handle_client now now' chunks st) = None
   <-> chunks = [] \/ exists rest, chunks = "" :: rest)
  /\ (fst (handle_client now now' chunks st) = None ->
      snd (handle_client now now' chunks st) = st)
  /\ (forall reply,
        fst (handle_client now now' chunks st) = Some reply ->
        exists text, reply = text +:+ END).
Proof.
  assert (Hnone : fst (handle_client now now' chunks st) = None
                  <-> recv_until_END chunks "" = "").
  { unfold handle_client, internal_error.
    destruct (String.eqb (recv_until_END chunks "") "") eqn:Hnil.
    - apply String.eqb_eq in Hnil. now split.
    - apply String.eqb_neq in Hnil. split; [|contradiction].
      destruct (utf8_error _); [discriminate|].
      destruct (json_loads _) as [request|];
        [|destruct (loads_error _); discriminate].
      now destruct (process_request now now' request st) as [[response|e] st']. }
  split; [|split].
  - rewrite Hnone. apply recv_until_END_nothing.
  - intros H. apply Hnone in H. unfold handle_client. now rewrite H.
  - intros reply. unfold handle_client, internal_error.
    destruct (String.eqb (recv_until_END chunks "") ""); [discriminate|].
    destruct (utf8_error _); [intros [= <-]; eexists; reflexivity|].
    destruct (json_loads _) as [request|].
    + destruct (process_request now now' request st) as [[response|e] st'];
        intros [= <-]; eexists; reflexivity.
    + destruct (loads_error _); intros [= <-]; eexists; reflexivity.
Qed.

(** X8. Stripping leaves a buffer as it is exactly when the buffer does not
    hold the terminator; otherwise what comes out is shorter by seven
    characters or more. *)
Theorem strip_END_fixed_point s :
  (strip_END s = s <-> contains END s = false)
  /\ (contains END s = true ->
      (String.length (strip_END s) + 7 <= String.length s)%nat).
Proof.
  split; [split|].
  - intros Heq. destruct (contains END s) eqn:Hc; [|reflexivity].
    pose proof (strip_END_shortens _ s (le_n _) Hc) as H. rewrite Heq in H. lia.
  - apply strip_END_unchanged.
  - apply (strip_END_shortens _ s (le_n _)).
Qed.

Lemma recv_until_END_all : forall chunks data,
  Forall (fun c => c <> "") chunks ->
  contains END (data +:+ concat_chunks chunks) = false ->
  recv_until_END chunks data = data +:+ concat_chunks chunks.
Proof.
  induction chunks as [|chunk rest IH]; intros data Hall Hc.
  - cbn. now rewrite string_app_nil_r.
  - apply Forall_cons in Hall as [Hchunk Hall]. cbn [recv_until_END concat_chunks] in *.
    apply String.eqb_neq in Hchunk. rewrite Hchunk. rewrite <- string_app_assoc in *.
    destruct (contains END (data +:+ chunk)) eqn:Hseen.
    + apply (contains_app_l _ _ (concat_chunks rest)) in Hseen. congruence.
    + now apply IH.
Qed.

(** X9. The terminator is not needed when the peer closes after its
    request: a JSON text that arrives without it, in any number of reads, is
    dispatched like a framed one. *)
Theorem unterminated_request_served now now' v chunks st :
  chunks <> [] ->
  Forall (fun c => c <> "") chunks ->
  concat_chunks chunks = json_dumps false false v ->
  contains END (json_dumps false false v) = false ->
  json_loads (json_dumps false false v) = Some v ->
  strip_END (recv_until_END chunks "") = json_dumps false false v
  /\ forall response st',
      process_request now now' v st = (Return response, st') ->
      handle_client now now' chunks st = (Some (frame response), st').
Proof.
  intros Hsome Hall Hsent Hclean Hloads.
  assert (Hdata : recv_until_END chunks "" = json_dumps false false v).
  { rewrite recv_until_END_all; rewrite ?string_app_nil_l, ?Hsent; auto. }
  split; [rewrite Hdata; now apply strip_END_unchanged|].
  intros response st' Hreq. unfold handle_client. rewrite Hdata.
  assert (Hne : String.eqb (json_dumps false false v) "" = false).
  { apply String.eqb_neq. rewrite <- Hsent. destruct chunks as [|c rest]; [congruence|].
    apply Forall_cons in Hall as [Hc _]. cbn. destruct c; [congruence | discriminate]. }
  rewrite Hne, (json_loads_text _ _ Hloads), strip_END_unchanged, Hloads, Hreq
    by exact Hclean.
  reflexivity.
Qed.

(** X10. What arrives after the read that completes the terminator is never
    looked at: the reply and the state are those of the reads up to it. *)
Theorem reads_after_terminator_ignored now now' before after st :
  contains END (recv_until_END before "") = true ->
  recv_until_END (before ++ after) "" = recv_until_END before ""
  /\ handle_client now now' (before ++ after) st = handle_client now now' before st.
Proof.
  assert (Hloop : forall chunks data,
             contains END data = false ->
             contains END (recv_until_END chunks data) = true ->
             recv_until_END (chunks ++ after) data = recv_until_END chunks data).
  { induction chunks as [|chunk rest IH]; intros data Hdata Hseen.
    - cbn in Hseen. congruence.
    - cbn [recv_until_END app] in *. destruct (String.eqb chunk ""); [congruence|].
      destruct (contains END (data +:+ chunk)) eqn:Hchunk; [reflexivity|].
      now apply IH. }
  intros Hseen. assert (Heq := Hloop before "" eq_refl Hseen).
  split; [exact Heq|]. unfold handle_client. now rewrite Heq.
Qed.

Lemma process_chat_reply_wf now now' d st :
  wf_json (fst (process_chat now now' d st)) = true.
Proof.
  unfold process_chat.
  destruct (negb (truthy _)); [reflexivity|].
  destruct (truthy (dict_get d "stream" _)); [reflexivity|].
  destruct (chat_completion _ _ _ _ _ _) as [[| text | g] st']; reflexivity.
Qed.

Lemma process_request_reply_wf now now' request st response st' :
  process_request now now' request st = (Return response, st') ->
  wf_json response = true.
Proof.
  destruct request as [| b | n | r | s | l | d]; try discriminate.
  cbn [process_request].
  destruct (is_str _ "chat").
  { pose proof (process_chat_reply_wf now now' d st) as Hwf.
    destruct (process_chat now now' d st) as [reply st1]. now intros [= <- <-]. }
  destruct (is_str _ "ping"); [now intros [= <- <-]|].
  destruct (is_str _ "status"); [|now intros [= <- <-]].
  intros [= <- <-]. unfold get_status, get_memory_usage. now destruct memory_rss.
Qed.

Lemma received_text_clean v chunks :
  wf_json v = true ->
  contains END (json_dumps false false v) = false ->
  Forall (fun c => c <> "") chunks ->
  concat_chunks chunks = frame v ->
  recv_until_END chunks "" = frame v
  /\ strip_END (frame v) = json_dumps false false v.
Proof.
  intros Hwf Hclean Hall Hsent.
  assert (Hs : no_start (json_dumps false false v) = true).
  { apply no_start_of_boundary; [exact Hclean | now apply json_dumps_boundary]. }
  split; [apply recv_until_END_clean; auto | now apply strip_END_clean].
Qed.

Lemma server_serves now now' request chunks response st st' :
  wf_json request = true ->
  contains END (json_dumps false false request) = false ->
  json_loads (json_dumps false false request) = Some request ->
  Forall (fun c => c <> "") chunks ->
  concat_chunks chunks = frame request ->
  process_request now now' request st = (Return response, st') ->
  handle_client now now' chunks st = (Some (frame response), st').
Proof.
  intros Hwf Hclean Hloads Hall Hsent Hreq.
  destruct (received_text_clean request chunks Hwf Hclean Hall Hsent) as [Hdata Htext].
  unfold handle_client.
  rewrite Hdata, frame_not_empty, (frame_decodes _ Hloads), Htext, Hloads, Hreq.
  reflexivity.
Qed.

Lemma send_request_sent request reply : fst (send_request request reply) = frame request.
Proof. unfold send_request. now destruct (utf8_error _). Qed.

Lemma client_decodes request response chunks :
  wf_json response = true ->
  contains END (json_dumps false false response) = false ->
  json_loads (json_dumps false false response) = Some response ->
  Forall (fun c => c <> "") chunks ->
  concat_chunks chunks = frame response ->
  snd (send_request request chunks) = Some response.
Proof.
  intros Hwf Hclean Hloads Hall Hsent.
  destruct (received_text_clean response chunks Hwf Hclean Hall Hsent) as [Hdata Htext].
  unfold send_request. now rewrite Hdata, (frame_decodes _ Hloads), Htext.
Qed.

(** X11. A whole exchange.  The client writes the frame of its request; when
    neither the text of the request nor that of the reply holds the
    terminator, and the JSON library reads both texts back, the client
    decodes the very value [process_request] returned, and the server is left
    in the state [process_request] left, however the two frames are cut into
    reads. *)
Theorem exchange_round_trip now now' request to_server to_client response st st' :
  wf_json request = true ->
  contains END (json_dumps false false request) = false ->
  json_loads (json_dumps false false request) = Some request ->
  Forall (fun c => c <> "") to_server ->
  concat_chunks to_server = fst (send_request request to_client) ->
  process_request now now' request st = (Return response, st') ->
  contains END (json_dumps false false response) = false ->
  json_loads (json_dumps false false response) = Some response ->
  Forall (fun c => c <> "") to_client ->
  Some (concat_chunks to_client) = fst (handle_client now now' to_server st) ->
  snd (send_request request to_client) = Some response
  /\ snd (handle_client now now' to_server st) = st'.
Proof.
  intros Hwf Hclean Hloads Hall Hsent Hreq Hclean' Hloads' Hall' Hback.
  rewrite send_request_sent in Hsent.
  rewrite (server_serves now now' request to_server response st st') in Hback |- * by assumption.
  cbn [fst snd] in *. injection Hback as Hback. split; [|reflexivity].
  apply client_decodes; try assumption.
  exact (process_request_reply_wf _ _ _ _ _ _ Hreq).
Qed.

(** X12. An answer of the model that holds the terminator breaks the reply:
    the server frames it as it is, the text the client strips out of its
    reads is never the text the server wrote, and it is at least seven
    characters shorter when the reply comes in one read. *)
Theorem answer_with_terminator_garbled now now' d st choices to_client :
  is_chat_request d = true ->
  truthy (dict_get d "messages" (JList [])) = true ->
  truthy (dict_get d "stream" (JBool false)) = false ->
  cache_lookup now (chat_key d) (cache st) = None ->
  create_completion (api_calls st) (chat_params d) = Completes choices ->
  contains END (completion_text choices) = true ->
  Forall (fun c => c <> "") to_client ->
  let response :=
    JObject [("response", JStr (completion_text choices));
             ("tokens", JInt (Z.of_nat (py_len (completion_text choices)) / 4))] in
  fst (process_request now now' (JObject d) st) = Return response
  /\ (concat_chunks to_client = frame response ->
      strip_END (recv_until_END to_client "") <> json_dumps false false response)
  /\ (String.length (strip_END (recv_until_END [frame response] "")) + 7
      <= String.length (json_dumps false false response))%nat.
Proof.
  intros Hchat Hmsg Hstream Hmiss Hcall Hend Hall response.
  assert (Hdirty : contains END (json_dumps false false response) = true).
  { apply (contains_json_dumps response (completion_text choices)); [|exact Hend].
    apply (holds_field "response" (JStr (completion_text choices))); [|constructor].
    subst response. set_solver. }
  split; [|split].
  - rewrite process_request_chat by exact Hchat. cbn [fst].
    now rewrite (process_chat_completes now now' d st choices).
  - intros Hsent. now apply received_text_corrupted.
  - assert (Hone : recv_until_END [frame response] "" = frame response).
    { cbn [recv_until_END]. rewrite frame_not_empty, string_app_nil_l.
      unfold frame at 1. now rewrite contains_app_r. }
    rewrite Hone. now apply strip_END_frame_shortens.
Qed.

(** *** Start-up *)

(** X13. Start-up.  The server refuses to start exactly when there is no API
    key, when the key is empty, or when the constructor of the client
    raises; it then writes one error line, the text of the exception in the
    last case, and calls nothing.  Otherwise it starts, whatever the endpoint
    does with the warm-up: it makes exactly one call, with the gateway's own
    defaults, and the cache it starts serving with holds nothing but the
    answer to the warm-up, if there was one and it was not empty. *)
Theorem start_up api_key now now' st :
  (fst (initialize_llm api_key now now' st) = false
   <-> api_key = None \/ api_key = Some ""
       \/ exists key e, api_key = Some key /\ client_error key = Some e)
  /\ (fst (initialize_llm api_key now now' st) = false ->
      api_calls (snd (initialize_llm api_key now now' st)) = api_calls st
      /\ cache (snd (initialize_llm api_key now now' st)) = cache st
      /\ exists line,
          journal (snd (initialize_llm api_key now now' st))
          = journal st ++ [(LOG_ERR, line)])
  /\ (forall key e,
        api_key = Some key -> key <> "" -> client_error key = Some e ->
        initialize_llm api_key now now' st
        = (false, syslog LOG_ERR ("模型初始化失败: " +:+ e) st))
  /\ (fst (initialize_llm api_key now now' st) = true ->
      api_calls (snd (initialize_llm api_key now now' st)) = api_calls st ++ [warmup_params]
      /\ cache (snd (initialize_llm api_key now now' st))
         = match create_completion (api_calls st) warmup_params with
           | Completes choices =>
               if String.eqb (completion_text choices) "" then ∅
               else cache_store now' (_get_cache_key warmup_messages [])
                      (completion_text choices) ∅
           | Raises _ => ∅
           end).
Proof.
  unfold initialize_llm. destruct api_key as [key|].
  2:{ split; [split; [now left | reflexivity]|].
      split; [intros _; cbn; eauto|]. split; [discriminate | discriminate]. }
  destruct (String.eqb key "") eqn:Hkey.
  { apply String.eqb_eq in Hkey as ->.
    split; [split; [now right; left | reflexivity]|].
    split; [intros _; cbn; eauto|]. split; [congruence | discriminate]. }
  apply String.eqb_neq in Hkey.
  destruct (client_error key) as [e|] eqn:Hclient.
  { split; [split; [right; right; now exists key, e | reflexivity]|].
    split; [intros _; cbn; eauto|].
    split; [intros k e' [= <-] _ He; rewrite Hclient in He; now injection He as <- | discriminate]. }
  fold warmup_messages. unfold chat_completion, cache_lookup. cbn [cache syslog set_cache].
  rewrite lookup_empty. unfold _direct_request.
  cbn [dict_get dict_lookup api_calls syslog set_cache].
  fold warmup_params.
  assert (Hno : ~ (Some key = None \/ Some key = Some ""
                   \/ exists k e, Some key = Some k /\ client_error k = Some e)).
  { intros [H | [H | (k & e & [= <-] & H)]]; [discriminate | congruence | congruence]. }
  assert (Hraise : forall k e,
             Some key = Some k -> k <> "" -> client_error k = Some e ->
             False).
  { intros k e [= <-] _ He. congruence. }
  destruct (create_completion (api_calls st) warmup_params) as [err | choices].
  { cbn. split; [split; [discriminate | tauto]|]. split; [discriminate|].
    split; [intros k e H1 H2 H3; destruct (Hraise k e H1 H2 H3) | now split]. }
  destruct (String.eqb (completion_text choices) "") eqn:Htext.
  { cbn. rewrite Htext. cbn.
    split; [split; [discriminate | tauto]|]. split; [discriminate|].
    split; [intros k e H1 H2 H3; destruct (Hraise k e H1 H2 H3) | now split]. }
  cbn. rewrite Htext. cbn.
  split; [split; [discriminate | tauto]|]. split; [discriminate|].
  split; [intros k e H1 H2 H3; destruct (Hraise k e H1 H2 H3) | now split].
Qed.

(** *** Streaming *)

(** X15. A stream that fails ends for the consumer like one that is over;
    the failure is only written to the journal.  Whatever is drawn, the
    journal gains at most one line, and when the stream has been read to
    its end it has gained exactly the line of the failure, if there was
    one: the refusal of the endpoint to open the stream, or the first error
    among its events. *)
Theorem stream_failure_logged n params st :
  (exists lines,
      journal (snd (gen_take n (_stream_response params) st)) = journal st ++ lines
      /\ (length lines <= 1)%nat)
  /\ match create_stream (api_calls st) params with
     | OpenRaises err =>
         (0 < n)%nat ->
         gen_take n (_stream_response params) st
         = ([], GenFinished,
            syslog LOG_ERR ("流式响应错误: " +:+ err) (record_call params st))
     | Opens events =>
         (length events < n)%nat ->
         snd (fst (gen_take n (_stream_response params) st)) = GenFinished
         /\ journal (snd (gen_take n (_stream_response params) st))
            = journal st ++ stream_error_lines (stream_error events)
     end.
Proof.
  split.
  - destruct n as [|n].
    { exists []. cbn. rewrite app_nil_r. split; [reflexivity | lia]. }
    destruct (create_stream (api_calls st) params) as [err | events] eqn:Hopen.
    + unfold _stream_response. cbn [gen_take gen_next]. rewrite Hopen. cbn.
      eexists. split; [reflexivity | cbn; lia].
    + rewrite (gen_take_opened n params st events Hopen).
      apply (gen_take_suspended_lines (S n) events (record_call params st)).
  - destruct (create_stream (api_calls st) params) as [err | events] eqn:Hopen.
    + intros Hn. destruct n as [|n]; [lia|].
      unfold _stream_response. cbn [gen_take gen_next]. now rewrite Hopen.
    + intros Hn. destruct n as [|n]; [lia|].
      rewrite (gen_take_opened n params st events Hopen). split.
      * destruct (gen_take_suspended (S n) events (record_call params st))
          as (_ & _ & _ & Hend).
        now rewrite (Hend Hn).
      * apply (gen_take_suspended_journal (S n) events (record_call params st) Hn).
Qed.

(** *** The interactive client *)

Lemma then_do_trace {A Peer : Type} events (rest : list Event * Exit A * Peer) :
  fst (fst (then_do events rest)) = events ++ fst (fst rest).
Proof. now destruct rest as [[trace exit] peer]. Qed.

Lemma then_do_exit {A Peer : Type} events (rest : list Event * Exit A * Peer) :
  snd (fst (then_do events rest)) = snd (fst rest)
  /\ snd (then_do events rest) = snd rest.
Proof. now destruct rest as [[trace exit] peer]. Qed.

Lemma process_chat_answers now now' d st :
  truthy (dict_get d "messages" (JList [])) = true ->
  truthy (dict_get d "stream" (JBool false)) = false ->
  (exists text,
      fst (process_chat now now' d st)
      = JObject [("response", JStr text); ("tokens", JInt (Z.of_nat (py_len text) / 4))])
  \/ fst (process_chat now now' d st) = error_response ("模型请求失败: " +:+ len_of_None).
Proof.
  intros Hmsg Hstream.
  destruct (cache_lookup now (chat_key d) (cache st)) as [cached|] eqn:Hlook.
  - left. exists cached. unfold process_chat. rewrite Hmsg, Hstream. cbn [negb].
    now rewrite (chat_completion_hit now now' _ _ st cached) by exact Hlook.
  - destruct (create_completion (api_calls st) (chat_params d)) as [err | choices] eqn:Hcall.
    + right. now rewrite (process_chat_raises now now' d st err).
    + left. exists (completion_text choices).
      now rewrite (process_chat_completes now now' d st choices).
Qed.

(** What the loop sends, whatever conversation it starts from. *)
Lemma chat_loop_requests {Peer : Type} (send : Peer -> json -> Sending * Peer) inputs :
  forall conversation_history peer,
  Forall (fun ev =>
            match ev with
            | Requested request =>
                exists history question,
                  request = chat_request (history ++ [user_says question])
                  /\ question <> ""
            | _ => True
            end)
    (fst (fst (chat_loop send inputs conversation_history peer))).
Proof.
  induction inputs as [|[text|] rest IH]; intros history peer; cbn [chat_loop].
  - repeat constructor.
  - destruct (String.eqb (py_strip text) "") eqn:Hblank.
    { rewrite then_do_trace. apply Forall_app. split; [repeat constructor | apply IH]. }
    destruct (String.eqb (lower_ascii (py_strip text)) "exit"); [repeat constructor|].
    destruct (String.eqb (lower_ascii (py_strip text)) "clear").
    { rewrite then_do_trace. apply Forall_app. split; [repeat constructor | apply IH]. }
    apply String.eqb_neq in Hblank.
    assert (Hasked : Forall (fun ev =>
              match ev with
              | Requested request =>
                  exists history question,
                    request = chat_request (history ++ [user_says question])
                    /\ question <> ""
              | _ => True
              end)
              [Asked user_prompt; Printed assistant_prompt;
               Requested (chat_request (history ++ [user_says (py_strip text)]))]).
    { repeat constructor. now exists history, (py_strip text). }
    fold (user_says (py_strip text)).
    destruct (send peer _) as [[response | | exception] peer'].
    + assert (Hnone : forall line,
                Forall (fun ev =>
                  match ev with
                  | Requested request =>
                      exists history question,
                        request = chat_request (history ++ [user_says question])
                        /\ question <> ""
                  | _ => True
                  end)
                  (fst (fst (then_do
                     ([Asked user_prompt; Printed assistant_prompt;
                       Requested (chat_request (history ++ [user_says (py_strip text)]))]
                        ++ [Printed line])
                     (chat_loop send rest (history ++ [user_says (py_strip text)]) peer'))))).
      { intros line. rewrite then_do_trace. apply Forall_app. split; [|apply IH].
        apply Forall_app. split; [exact Hasked | repeat constructor]. }
      destruct response as [response|]; [|apply Hnone].
      destruct (truthy response); cbn [negb]; [|apply Hnone].
      destruct response as [| b | n | r | s | l | d]; try exact Hasked.
      * now destruct (contains "response" s).
      * now destruct (existsb _ l).
      * destruct (dict_lookup "response" d) as [assistant_reply|]; [|apply Hnone].
        rewrite then_do_trace. apply Forall_app. split; [|apply IH].
        apply Forall_app. split; [exact Hasked | repeat constructor].
    + apply Forall_app. split; [exact Hasked | repeat constructor].
    + exact Hasked.
  - repeat constructor.
Qed.

(** X16. Every request of an interactive session is one the dispatcher takes
    for a chat: its action is chat, its conversation ends with a question
    of the user that is not empty, and it does not ask for a stream.  So
    the daemon never turns it down for an empty conversation or for
    streaming: it answers with a text, or reports that the model failed. *)
Theorem interactive_requests_accepted {Peer : Type}
    (send : Peer -> json -> Sending * Peer) inputs peer :
  Forall (fun ev =>
            match ev with
            | Requested request =>
                (exists history question,
                    request = chat_request (history ++ [user_says question])
                    /\ question <> "")
                /\ (exists d,
                      request = JObject d
                      /\ is_chat_request d = true
                      /\ truthy (dict_get d "messages" (JList [])) = true
                      /\ truthy (dict_get d "stream" (JBool false)) = false)
                /\ forall now now' st,
                    (exists text,
                        fst (process_request now now' request st)
                        = Return (JObject [("response", JStr text);
                                           ("tokens", JInt (Z.of_nat (py_len text) / 4))]))
                    \/ fst (process_request now now' request st)
                       = Return (error_response ("模型请求失败: " +:+ len_of_None))
            | _ => True
            end)
    (fst (fst (chat_interactive send inputs peer))).
Proof.
  unfold chat_interactive. rewrite then_do_trace. apply Forall_app.
  split; [repeat constructor|].
  eapply Forall_impl; [apply chat_loop_requests|].
  intros [prompt | text | request]; try exact (fun H => H).
  intros (history & question & -> & Hq).
  assert (Hmsg : truthy (JList (history ++ [user_says question])) = true).
  { cbn. now destruct history. }
  split; [now exists history, question|]. split.
  { eexists. split; [reflexivity|]. repeat split. exact Hmsg. }
  intros now now' st. unfold chat_request.
  rewrite process_request_chat by reflexivity. cbn [fst].
  destruct (process_chat_answers now now'
              [("action", JStr "chat");
               ("messages", JList (history ++ [user_says question]));
               ("stream", JBool false)] st Hmsg eq_refl) as [[text Htext] | Herr].
  - left. exists text. now rewrite Htext.
  - right. now rewrite Herr.
Qed.

Lemma chat_loop_grows {Peer : Type} (send : Peer -> json -> Sending * Peer) inputs :
  forall conversation_history peer,
  Forall (fun input => says "clear" input = false) inputs ->
  match sent_conversations (fst (fst (chat_loop send inputs conversation_history peer))) with
  | [] => True
  | conversation :: rest =>
      (exists question, conversation = conversation_history ++ [user_says question])
      /\ grows conversation rest
  end.
Proof.
  induction inputs as [|[text|] rest IH]; intros history peer Hclear; cbn [chat_loop].
  - exact I.
  - apply Forall_cons in Hclear as [Hthis Hclear]. cbn [says] in Hthis.
    destruct (String.eqb (py_strip text) "").
    { rewrite then_do_trace. cbn [app sent_conversations]. now apply IH. }
    destruct (String.eqb (lower_ascii (py_strip text)) "exit"); [exact I|].
    rewrite Hthis. fold (user_says (py_strip text)).
    set (conversation := history ++ [user_says (py_strip text)]).
    assert (Hnext : forall line history' peer',
              (history' = conversation
               \/ exists answer, history' = conversation ++ [assistant_says answer]) ->
              match
                sent_conversations
                  (fst (fst (then_do
                     ([Asked user_prompt; Printed assistant_prompt;
                       Requested (chat_request conversation)] ++ [Printed line])
                     (chat_loop send rest history' peer'))))
              with
              | [] => True
              | first :: others =>
                  (exists question, first = history ++ [user_says question])
                  /\ grows first others
              end).
    { intros line history' peer' Hhistory. rewrite then_do_trace.
      cbn [app sent_conversations chat_request object_fields dict_get dict_lookup String.eqb
           Ascii.eqb Bool.eqb].
      split; [now exists (py_strip text)|].
      specialize (IH history' peer' Hclear).
      destruct (sent_conversations _) as [|next others]; [exact I|].
      destruct IH as [[question ->] Hrest]. split; [|exact Hrest].
      destruct Hhistory as [-> | [answer ->]].
      - left. now exists question.
      - right. exists answer, question. now rewrite <- app_assoc. }
    destruct (send peer _) as [[response | | exception] peer'].
    + destruct response as [response|]; [|apply Hnext; now left].
      destruct (truthy response); cbn [negb]; [|apply Hnext; now left].
      assert (Hone : match sent_conversations
                             [Asked user_prompt; Printed assistant_prompt;
                              Requested (chat_request conversation)] with
                     | [] => True
                     | first :: others =>
                         (exists question, first = history ++ [user_says question])
                         /\ grows first others
                     end).
      { cbn. split; [now exists (py_strip text) | exact I]. }
      destruct response as [| b | n | r | s | l | d]; try exact Hone.
      * now destruct (contains "response" s).
      * now destruct (existsb _ l).
      * destruct (dict_lookup "response" d) as [assistant_reply|].
        -- apply Hnext. right. now exists assistant_reply.
        -- apply Hnext. now left.
    + cbn. split; [now exists (py_strip text) | exact I].
    + cbn. split; [now exists (py_strip text) | exact I].
  - exact I.
Qed.

(** X17. The context is carried.  As long as the user does not clear it, every
    request of a session repeats the conversation of the request before it
    and adds to it the answer, if one came, and the new question; a failed
    exchange leaves its question in the conversation. *)
Theorem conversation_carried {Peer : Type} (send : Peer -> json -> Sending * Peer)
    inputs peer :
  Forall (fun input => says "clear" input = false) inputs ->
  grows [] (sent_conversations (fst (fst (chat_interactive send inputs peer)))).
Proof.
  intros Hclear. unfold chat_interactive. rewrite then_do_trace.
  cbn [app sent_conversations].
  pose proof (chat_loop_grows send inputs [] peer Hclear) as H.
  destruct (sent_conversations _) as [|conversation rest]; [exact I|].
  destruct H as [[question ->] Hrest]. split; [|exact Hrest].
  left. now exists question.
Qed.

(** X18. The session ends at the first line that says exit, in any letter
    case and with any blanks around it, or at the first Ctrl-C: what is
    typed after it is neither read nor sent. *)
Theorem exit_ends_session {Peer : Type} (send : Peer -> json -> Sending * Peer)
    before input after peer :
  says "exit" input = true \/ input = KeyboardInterrupt ->
  chat_interactive send (before ++ input :: after) peer
  = chat_interactive send (before ++ [input]) peer.
Proof.
  intros Hexit. unfold chat_interactive. f_equal.
  generalize (@nil json) as history. revert peer.
  induction before as [|[text|] rest IH]; intros peer history; cbn [app chat_loop].
  - destruct Hexit as [Hexit | ->]; [|reflexivity].
    destruct input as [text|]; [|discriminate]. cbn [says] in Hexit. cbn [chat_loop].
    destruct (String.eqb (py_strip text) "") eqn:Hblank; [|now rewrite Hexit].
    apply String.eqb_eq in Hblank. rewrite Hblank in Hexit. discriminate.
  - destruct (String.eqb (py_strip text) ""); [now rewrite IH|].
    destruct (String.eqb (lower_ascii (py_strip text)) "exit"); [reflexivity|].
    destruct (String.eqb (lower_ascii (py_strip text)) "clear"); [now rewrite IH|].
    destruct (send peer _) as [[response | | exception] peer']; try reflexivity.
    destruct response as [response|]; [|now rewrite IH].
    destruct (truthy response); cbn [negb]; [|now rewrite IH].
    destruct response as [| b | n | r | s | l | d]; try reflexivity.
    destruct (dict_lookup "response" d) as [assistant_reply|]; now rewrite IH.
  - reflexivity.
Qed.

(** X19. A ping against the daemon succeeds whatever state the daemon is in,
    and costs it nothing: when the JSON library reads the two texts back,
    [ping] prints that the service is well and returns [True], and the
    daemon has called no endpoint, cached nothing and logged nothing. *)
Theorem ping_reaches_daemon clock cut n st :
  Forall (fun c => c <> "") (cut (frame ping_request)) ->
  concat_chunks (cut (frame ping_request)) = frame ping_request ->
  Forall (fun c => c <> "") (cut (frame pong)) ->
  concat_chunks (cut (frame pong)) = frame pong ->
  json_loads (json_dumps false false ping_request) = Some ping_request ->
  json_loads (json_dumps false false pong) = Some pong ->
  ping (daemon clock cut) (n, st)
  = ([Requested ping_request; Printed ("服务运行正常 ✓" +:+ nl)], Returned true, (S n, st)).
Proof.
  intros Hall Hsent Hall' Hsent' Hloads Hloads'.
  unfold ping, daemon. fold ping_request. cbn [send_request fst].
  rewrite (server_serves _ _ ping_request _ pong st st) by (assumption || reflexivity).
  rewrite (client_decodes ping_request pong) by (assumption || reflexivity).
  reflexivity.
Qed.

End Coverage.

(** ** More runs of the daemon and of its client *)

(** A state that holds one answer, stored at time 1000. *)
Lemma cached_answers_not_empty_witness :
  (forall k e,
      cache {| cache := cache_store 1000 "k" "v" ∅; api_calls := []; journal := [] |} !! k
      = Some e ->
      entry_response e <> "")
  /\ (forall later k text,
        cache_lookup later k
          (cache (snd (handle_client (world := answering (Some "hi there")) 2000 2001
                         [frame (JObject hello_request)]
                         {| cache := cache_store 1000 "k" "v" ∅;
                            api_calls := []; journal := [] |})))
        = Some text ->
        text <> "").
Proof.
  assert (Hinv : forall k e,
             cache {| cache := cache_store 1000 "k" "v" ∅; api_calls := []; journal := [] |} !! k
             = Some e ->
             entry_response e <> "").
  { intros k e. cbn [cache]. unfold cache_store. rewrite lookup_insert_Some.
    intros [[_ <-] | [_ He]]; [discriminate | now rewrite lookup_empty in He]. }
  split; [exact Hinv|].
  exact (proj2 (cached_answers_not_empty (world := answering (Some "hi there")) 2000 2001
                  [frame (JObject hello_request)] _ Hinv)).
Defined.

(** The request of scenario B asked again ninety-nine time units after its
    answer was stored: the answer comes back and the endpoint has been
    called once in all. *)
Lemma repeated_request_served_from_cache_witness :
  100 - 1 < cache_ttl
  /\ fst (process_request (world := answering (Some "hi there")) 100 101
            (JObject hello_request)
            (snd (process_request (world := answering (Some "hi there")) 0 1
                    (JObject hello_request) fresh_state)))
     = Return (JObject [("response", JStr "hi there"); ("tokens", JInt 2)])
  /\ api_calls
       (snd (process_request (world := answering (Some "hi there")) 100 101
               (JObject hello_request)
               (snd (process_request (world := answering (Some "hi there")) 0 1
                       (JObject hello_request) fresh_state))))
     = [chat_params hello_request].
Proof.
  destruct (repeated_request_served_from_cache (world := answering (Some "hi there"))
              0 1 100 101 hello_request fresh_state
              [{| message_content := Some "hi there" |}]
              eq_refl eq_refl eq_refl eq_refl eq_refl ltac:(discriminate) eq_refl)
    as [Hsame Hcalls].
  split; [reflexivity|]. split; [|exact Hcalls].
  rewrite Hsame. vm_compute. reflexivity.
Defined.

(** The same request asked again once the entry has expired. *)
Lemma expired_request_calls_again_witness :
  0 <= 301
  /\ cache_ttl <= 301 - 1
  /\ api_calls
       (snd (process_request (world := answering (Some "hi there")) 301 302
               (JObject hello_request)
               (snd (process_request (world := answering (Some "hi there")) 0 1
                       (JObject hello_request) fresh_state))))
     = [chat_params hello_request; chat_params hello_request].
Proof.
  split; [discriminate|]. split; [discriminate|].
  exact (expired_request_calls_again (world := answering (Some "hi there"))
           0 1 301 302 hello_request fresh_state
           [{| message_content := Some "hi there" |}]
           eq_refl eq_refl eq_refl eq_refl eq_refl ltac:(discriminate) ltac:(discriminate)).
Defined.

(** The request of scenario B sent without the terminator, sixteen bytes at a
    time, by a peer that then closes its side. *)
Lemma unterminated_request_served_witness :
  reads 200 16 (json_dumps false false (JObject hello_request)) <> []
  /\ concat_chunks (reads 200 16 (json_dumps false false (JObject hello_request)))
     = json_dumps false false (JObject hello_request)
  /\ handle_client (world := answering (Some "hi there")) 0 0
       (reads 200 16 (json_dumps false false (JObject hello_request))) fresh_state
     = (Some (frame (JObject [("response", JStr "hi there"); ("tokens", JInt 2)])),
        snd (process_request (world := answering (Some "hi there")) 0 0
               (JObject hello_request) fresh_state)).
Proof.
  assert (Hsome : reads 200 16 (json_dumps false false (JObject hello_request)) <> [])
    by (vm_compute; discriminate).
  assert (Hall : Forall (fun c => c <> "")
                   (reads 200 16 (json_dumps false false (JObject hello_request)))).
  { vm_compute. repeat constructor; discriminate. }
  assert (Hsent : concat_chunks (reads 200 16 (json_dumps false false (JObject hello_request)))
                  = json_dumps false false (JObject hello_request))
    by (vm_compute; reflexivity).
  split; [exact Hsome|]. split; [exact Hsent|].
  apply (proj2 (unterminated_request_served (world := answering (Some "hi there")) 0 0
                  (JObject hello_request) _ fresh_state Hsome Hall Hsent
                  ltac:(vm_compute; reflexivity) ltac:(vm_compute; reflexivity))).
  vm_compute. reflexivity.
Defined.

(** A ping and, in the same read, a chat request behind it: the ping is
    answered and the chat request is dropped. *)
Lemma reads_after_terminator_ignored_witness :
  contains END (recv_until_END [frame ping_request] "") = true
  /\ handle_client (world := answering (Some "hi there")) 0 0
       ([frame ping_request] ++ [frame (JObject hello_request)]) fresh_state
     = (Some (frame pong), fresh_state).
Proof.
  split; [vm_compute; reflexivity|].
  rewrite (proj2 (reads_after_terminator_ignored (world := answering (Some "hi there")) 0 0
                    [frame ping_request] [frame (JObject hello_request)] fresh_state
                    ltac:(vm_compute; reflexivity))).
  vm_compute. reflexivity.
Defined.

(** Scenario B end to end, both frames read sixteen bytes at a time. *)
Lemma exchange_round_trip_witness :
  process_request (world := answering (Some "hi there")) 0 0 (JObject hello_request)
    fresh_state
  = (Return (JObject [("response", JStr "hi there"); ("tokens", JInt 2)]),
     snd (process_request (world := answering (Some "hi there")) 0 0
            (JObject hello_request) fresh_state))
  /\ Some (concat_chunks
             (reads 200 16
                (frame (JObject [("response", JStr "hi there"); ("tokens", JInt 2)]))))
     = fst (handle_client (world := answering (Some "hi there")) 0 0
              (reads 200 16 (frame (JObject hello_request))) fresh_state)
  /\ snd (send_request (world := answering (Some "hi there")) (JObject hello_request)
            (reads 200 16
               (frame (JObject [("response", JStr "hi there"); ("tokens", JInt 2)]))))
     = Some (JObject [("response", JStr "hi there"); ("tokens", JInt 2)]).
Proof.
  assert (Hreq : process_request (world := answering (Some "hi there")) 0 0
                   (JObject hello_request) fresh_state
                 = (Return (JObject [("response", JStr "hi there"); ("tokens", JInt 2)]),
                    snd (process_request (world := answering (Some "hi there")) 0 0
                           (JObject hello_request) fresh_state)))
    by (vm_compute; reflexivity).
  assert (Hback : Some (concat_chunks
                          (reads 200 16
                             (frame (JObject [("response", JStr "hi there");
                                              ("tokens", JInt 2)]))))
                  = fst (handle_client (world := answering (Some "hi there")) 0 0
                           (reads 200 16 (frame (JObject hello_request))) fresh_state))
    by (vm_compute; reflexivity).
  split; [exact Hreq|]. split; [exact Hback|].
  refine (proj1 (exchange_round_trip (world := answering (Some "hi there")) 0 0
                   (JObject hello_request) (reads 200 16 (frame (JObject hello_request)))
                   _ _ fresh_state _ eq_refl _ _ _ _ Hreq _ _ _ Hback)).
  - vm_compute. reflexivity.
  - vm_compute. reflexivity.
  - vm_compute. repeat constructor; discriminate.
  - vm_compute. reflexivity.
  - vm_compute. reflexivity.
  - vm_compute. reflexivity.
  - vm_compute. repeat constructor; discriminate.
Defined.

(** The endpoint answers with a text that holds the terminator: the client
    does not parse what the server wrote. *)
Lemma answer_with_terminator_garbled_witness :
  contains END "a__END__b" = true
  /\ strip_END
       (recv_until_END
          [frame (JObject [("response", JStr "a__END__b"); ("tokens", JInt 2)])] "")
     <> json_dumps false false
          (JObject [("response", JStr "a__END__b"); ("tokens", JInt 2)]).
Proof.
  split; [reflexivity|].
  destruct (answer_with_terminator_garbled (world := answering (Some "a__END__b")) 0 0
              hello_request fresh_state [{| message_content := Some "a__END__b" |}]
              [frame (JObject [("response", JStr "a__END__b"); ("tokens", JInt 2)])]
              eq_refl eq_refl eq_refl eq_refl eq_refl eq_refl
              ltac:(repeat constructor; discriminate))
    as (_ & Hgarbled & _).
  apply Hgarbled. vm_compute. reflexivity.
Defined.

(** The session of [session_inputs] with the daemon: the second request
    carries the first question and its answer. *)
Example session_conversations :
  sent_conversations
    (fst (fst (chat_interactive (world := answering (Some "hi there")) session_link
                 session_inputs (O, fresh_state))))
  = [[user_says "hello"];
     [user_says "hello"; assistant_says (JStr "hi there"); user_says "and then?"]].
Proof. vm_compute. reflexivity. Qed.

Lemma conversation_carried_witness :
  Forall (fun input => says "clear" input = false) session_inputs
  /\ grows []
       (sent_conversations
          (fst (fst (chat_interactive (world := answering (Some "hi there")) session_link
                       session_inputs (O, fresh_state))))).
Proof.
  assert (Hclear : Forall (fun input => says "clear" input = false) session_inputs)
    by (repeat constructor).
  split; [exact Hclear|].
  exact (conversation_carried (world := answering (Some "hi there")) session_link
           session_inputs (O, fresh_state) Hclear).
Defined.

(** The line after the exit changes nothing. *)
Lemma exit_ends_session_witness :
  says "exit" (Line "EXIT") = true
  /\ chat_interactive (world := answering (Some "hi there")) session_link
       ([Line " hello "; Line ""; Line "and then?"] ++ Line "EXIT" :: [Line "never read"])
       (O, fresh_state)
     = chat_interactive (world := answering (Some "hi there")) session_link
         ([Line " hello "; Line ""; Line "and then?"] ++ [Line "EXIT"]) (O, fresh_state).
Proof.
  split; [reflexivity|].
  apply (exit_ends_session (world := answering (Some "hi there"))). left. reflexivity.
Defined.

(** A ping whose frames are read four bytes at a time. *)
Lemma ping_reaches_daemon_witness :
  concat_chunks (reads 200 4 (frame ping_request)) = frame ping_request
  /\ concat_chunks (reads 200 4 (frame pong)) = frame pong
  /\ ping
       (daemon (world := answering None) (fun _ => (0, 0)) (reads 200 4)) (O, fresh_state)
     = ([Requested ping_request; Printed ("服务运行正常 ✓" +:+ nl)], Returned true,
        (1%nat, fresh_state)).
Proof.
  split; [vm_compute; reflexivity|]. split; [vm_compute; reflexivity|].
  apply (ping_reaches_daemon (world := answering None)).
  - vm_compute. repeat constructor; discriminate.
  - vm_compute. reflexivity.
  - vm_compute. repeat constructor; discriminate.
  - vm_compute. reflexivity.
  - vm_compute. reflexivity.
  - vm_compute. reflexivity.
Defined.
